(** * glTF 2.0 exporter: a shallow embedding of [glTFExporter.ts] and
    [glTFUtilities.ts], and the properties of the exporter proved over it.

    Conventions of the embedding.
    - A JavaScript [number] that holds a length, an offset or an index is a
      [Z]; [%] is [Z.rem] (the sign follows the dividend).
    - A byte is a [Z] in [0, 256); an [ArrayBuffer], a [Uint8Array] and a
      [Blob] are lists of bytes.
    - A Babylon object used as a [Map] or [Set] key (node, mesh, buffer,
      indices array) is identified by a [positive] handle.
    - A [Map] object that is itself stored as a value of another [Map] lives
      in an explicit store of objects and is named by a reference, so that
      [map.set] on it is a mutation of a shared object. *)

From Stdlib Require Import ZArith List Lia Bool QArith.
From stdpp Require Import gmap strings list fin_maps.
From Equations Require Import Equations.
From Equations.Prop Require Import Logic.

Local Open Scope Z_scope.

(* ===================================================================== *)
(** * Part I: definitions                                                 *)
(* ===================================================================== *)

(** ** JavaScript runtime pieces the exporter relies on *)

Module JS.

(** [new ArrayBuffer(n)]: [n] zero bytes. *)
Definition ArrayBuffer (byteLength : Z) : list Z :=
  replicate (Z.to_nat byteLength) 0.

(** A store into a [Uint8Array] element: the value is reduced modulo 256;
    a store past the end of a typed array is ignored. *)
Definition setUint8 (buffer : list Z) (index : Z) (value : Z) : list Z :=
  if index <? 0 then buffer else <[Z.to_nat index := value mod 256]> buffer.

(** [DataView.prototype.setUint32(byteOffset, value, true)]: the value is
    converted with ToUint32 and stored little-endian.  (The real method
    raises a RangeError when the four bytes do not fit; every call of the
    exporter is in range.) *)
Definition setUint32 (buffer : list Z) (byteOffset : Z) (value : Z) : list Z :=
  let v := value mod 2 ^ 32 in
  let b := setUint8 buffer byteOffset v in
  let b := setUint8 b (byteOffset + 1) (v / 2 ^ 8) in
  let b := setUint8 b (byteOffset + 2) (v / 2 ^ 16) in
  setUint8 b (byteOffset + 3) (v / 2 ^ 24).

(** [DataView.prototype.getUint32(byteOffset, true)], as a reader of the
    produced file would call it. *)
Definition getUint32 (buffer : list Z) (byteOffset : nat) : option Z :=
  match buffer !! byteOffset, buffer !! S byteOffset,
        buffer !! S (S byteOffset), buffer !! S (S (S byteOffset)) with
  | Some b0, Some b1, Some b2, Some b3 =>
      Some (b0 + 2 ^ 8 * b1 + 2 ^ 16 * b2 + 2 ^ 24 * b3)
  | _, _, _, _ => None
  end.

(** [for (let i = 0; i < n; ++i) view[i] = value], where [view] is a
    [Uint8Array] over [buffer] starting at [byteOffset]. *)
Fixpoint fillView (buffer : list Z) (byteOffset : Z) (i : Z) (n : nat) (value : Z)
  : list Z :=
  match n with
  | O => buffer
  | S n' => fillView (setUint8 buffer (byteOffset + i) value) byteOffset (i + 1) n' value
  end.

(** [view.set(source)]: copies [source] element by element into the view
    that starts at [byteOffset]. *)
Fixpoint typedArraySet (buffer : list Z) (byteOffset : Z) (source : list Z) : list Z :=
  match source with
  | [] => buffer
  | x :: rest => typedArraySet (setUint8 buffer byteOffset x) (byteOffset + 1) rest
  end.

(** A string is the list of its UTF-16 code units. *)
Definition charCodeAt (s : list Z) (i : nat) : option Z := s !! i.

Definition isLeadSurrogate (c : Z) : bool := (0xD800 <=? c) && (c <=? 0xDBFF).
Definition isTrailSurrogate (c : Z) : bool := (0xDC00 <=? c) && (c <=? 0xDFFF).

(** [String.prototype.codePointAt]: a lead surrogate followed by a trail
    surrogate is read as one code point above 0xFFFF. *)
Definition codePointAt (s : list Z) (i : nat) : option Z :=
  match s !! i with
  | None => None
  | Some first =>
      if isLeadSurrogate first then
        match s !! S i with
        | Some second =>
            if isTrailSurrogate second
            then Some ((first - 0xD800) * 0x400 + (second - 0xDC00) + 0x10000)
            else Some first
        | None => Some first
        end
      else Some first
  end.

(** [new Blob(parts)]: the parts one after the other. *)
Definition Blob (parts : list (list Z)) : list Z := concat parts.

(** The outcome of evaluating a call: a value, or a thrown error. *)
Inductive Completion (A : Type) : Type :=
| Normal (a : A)
| Throw (message : string).
Arguments Normal {A} a.
Arguments Throw {A} message.

(** A promise, by the way it settles. *)
Inductive Promise (A : Type) : Type :=
| Fulfilled (a : A)
| Rejected (reason : string).
Arguments Fulfilled {A} a.
Arguments Rejected {A} reason.

(** [promise.then(callback)], the callback returning a promise; an error
    thrown by the callback rejects the resulting promise. *)
Definition then_ {A B : Type} (p : Promise A) (callback : A -> Completion (Promise B))
  : Promise B :=
  match p with
  | Fulfilled a =>
      match callback a with
      | Normal q => q
      | Throw e => Rejected e
      end
  | Rejected r => Rejected r
  end.

End JS.

(** ** [glTFUtilities.ts] *)

Module Utilities.
Import JS.

(** *** Numbers that are vertex coordinates

    Position data are IEEE doubles.  The functions below only compare and
    copy them, so a double is modelled by its kind and, when finite, by the
    rational it denotes. *)
Inductive number : Type :=
| NaN
| NegInfinity
| Finite (q : Q)
| Infinity.

(** JavaScript [a < b] on numbers. *)
Definition lt (a b : number) : bool :=
  match a, b with
  | NaN, _ | _, NaN => false
  | NegInfinity, NegInfinity => false
  | NegInfinity, _ => true
  | Finite _, NegInfinity => false
  | Finite p, Finite q => negb (Qle_bool q p)
  | Finite _, Infinity => true
  | Infinity, _ => false
  end.

(** JavaScript [a > b] on numbers. *)
Definition gt (a b : number) : bool := lt b a.

(** An array element read: [None] is [undefined] (index out of range). *)
Definition element (a : list number) (k : Z) : option number :=
  if k <? 0 then None else a !! Z.to_nat k.

(** ToNumber: [undefined] becomes [NaN]. *)
Definition ToNumber (v : option number) : number := default NaN v.

(** *** Output descriptors *)

Module IBufferView.
Record t : Type := mk {
  buffer : Z;
  byteLength : Z;
  byteOffset : option Z;
  byteStride : option Z;
  name : option string
}.
End IBufferView.

Module IAccessor.
Record t : Type := mk {
  bufferView : Z;
  componentType : Z;
  count : Z;
  type : string;
  min : option (list number);
  max : option (list number);
  byteOffset : option Z
}.
End IAccessor.

(** [createBufferView(bufferIndex, byteOffset, byteLength, byteStride?, name?)].
    Each [if (x)] is a truthiness test: a number passes when it is not zero,
    a string when it is not empty, and [undefined] never passes. *)
Definition createBufferView (bufferIndex byteOffset byteLength : Z)
    (byteStride : option Z) (name : option string) : IBufferView.t :=
  {| IBufferView.buffer := bufferIndex;
     IBufferView.byteLength := byteLength;
     IBufferView.byteOffset := if byteOffset =? 0 then None else Some byteOffset;
     IBufferView.name :=
       match name with
       | Some s => if String.eqb s EmptyString then None else Some s
       | None => None
       end;
     IBufferView.byteStride :=
       match byteStride with
       | Some n => if n =? 0 then None else Some n
       | None => None
       end |}.

(** [createAccessor(bufferViewIndex, type, componentType, count, byteOffset,
    min, max)].  Each test is [x != null]: [None] is [null]. *)
Definition createAccessor (bufferViewIndex : Z) (type : string) (componentType count : Z)
    (byteOffset : option Z) (min max : option (list number)) : IAccessor.t :=
  {| IAccessor.bufferView := bufferViewIndex;
     IAccessor.componentType := componentType;
     IAccessor.count := count;
     IAccessor.type := type;
     IAccessor.min := match min with Some m => Some m | None => None end;
     IAccessor.max := match max with Some m => Some m | None => None end;
     IAccessor.byteOffset := match byteOffset with Some o => Some o | None => None end |}.

(** *** [calculateMinMaxPositions] *)

Definition positionStrideSize : nat := 3.

(** [Vector3.FromArray(positions, indexOffset).asArray()]. *)
Definition FromArray (positions : list number) (indexOffset : Z) : list (option number) :=
  [element positions indexOffset;
   element positions (indexOffset + 1);
   element positions (indexOffset + 2)].

(** The body of the inner loop, for one component [j].  A comparison with
    [undefined] is false, so whatever is stored is a number. *)
Definition componentStep (vector : list (option number))
    (mm : list number * list number) (j : nat) : list number * list number :=
  let '(min, max) := mm in
  let num := ToNumber (default None (vector !! j)) in
  let min := if lt num (default NaN (min !! j)) then <[j := num]> min else min in
  let max := if gt num (default NaN (max !! j)) then <[j := num]> max else max in
  (min, max).

(** [for (let i = vertexStart, length = vertexStart + vertexCount; i < length; ++i)],
    with [n] the number of iterations left. *)
Fixpoint vertexLoop (positions : list number) (i : Z) (n : nat)
    (mm : list number * list number) : list number * list number :=
  match n with
  | O => mm
  | S n' =>
      let indexOffset := Z.of_nat positionStrideSize * i in
      let vector := FromArray positions indexOffset in
      vertexLoop positions (i + 1) n'
        (fold_left (componentStep vector) (seq 0 positionStrideSize) mm)
  end.

Definition calculateMinMaxPositions (positions : list number) (vertexStart vertexCount : Z)
  : list number * list number :=
  let min := [Infinity; Infinity; Infinity] in
  let max := [NegInfinity; NegInfinity; NegInfinity] in
  if vertexCount =? 0 then (min, max)
  else vertexLoop positions vertexStart (Z.to_nat vertexCount) (min, max).

(** *** Closed mappings over attribute kinds and fill modes *)

(** The attribute kinds are string constants of the engine's
    [VertexBuffer] class, and the fill modes number constants of its
    [Material] class; neither class is part of the exporter, so the
    mappings are stated over any values of these constants. *)
Record VertexBufferKinds : Type := {
  PositionKind : string;
  NormalKind : string;
  TangentKind : string;
  ColorKind : string;
  UVKind : string;
  UV2Kind : string;
  UV3Kind : string;
  UV4Kind : string;
  UV5Kind : string;
  UV6Kind : string;
  MatricesIndicesKind : string;
  MatricesIndicesExtraKind : string;
  MatricesWeightsKind : string;
  MatricesWeightsExtraKind : string
}.

Record MaterialFillModes : Type := {
  TriangleFillMode : Z;
  TriangleStripDrawMode : Z;
  TriangleFanDrawMode : Z;
  PointListDrawMode : Z;
  PointFillMode : Z;
  LineLoopDrawMode : Z;
  LineListDrawMode : Z;
  LineStripDrawMode : Z
}.

(** The glTF [AccessorType] string enum. *)
Module AccessorType.
Definition SCALAR : string := "SCALAR".
Definition VEC2 : string := "VEC2".
Definition VEC3 : string := "VEC3".
Definition VEC4 : string := "VEC4".
End AccessorType.

(** The glTF [MeshPrimitiveMode] enum. *)
Inductive MeshPrimitiveMode : Type :=
| POINTS | LINES | LINE_LOOP | LINE_STRIP | TRIANGLES | TRIANGLE_STRIP | TRIANGLE_FAN.

Section Mappings.
Context (VertexBuffer : VertexBufferKinds) (Material : MaterialFillModes).

(** A [switch] compares with [===], case after case in source order. *)
Fixpoint switch {K A : Type} (eqb : K -> K -> bool) (scrutinee : K)
    (cases : list (K * A)) (after : Completion A) : Completion A :=
  match cases with
  | [] => after
  | (label, result) :: rest =>
      if eqb scrutinee label then Normal result else switch eqb scrutinee rest after
  end.

Definition getAccessorType (kind : string) : Completion string :=
  switch String.eqb kind
    [ (PositionKind VertexBuffer, AccessorType.VEC3);
      (NormalKind VertexBuffer, AccessorType.VEC3);
      (ColorKind VertexBuffer, AccessorType.VEC4);
      (TangentKind VertexBuffer, AccessorType.VEC4);
      (MatricesIndicesKind VertexBuffer, AccessorType.VEC4);
      (MatricesIndicesExtraKind VertexBuffer, AccessorType.VEC4);
      (MatricesWeightsKind VertexBuffer, AccessorType.VEC4);
      (MatricesWeightsExtraKind VertexBuffer, AccessorType.VEC4);
      (UVKind VertexBuffer, AccessorType.VEC2);
      (UV2Kind VertexBuffer, AccessorType.VEC2);
      (UV3Kind VertexBuffer, AccessorType.VEC2);
      (UV4Kind VertexBuffer, AccessorType.VEC2);
      (UV5Kind VertexBuffer, AccessorType.VEC2);
      (UV6Kind VertexBuffer, AccessorType.VEC2) ]
    (Throw ("Unknown kind " ++ kind)).

Definition getAttributeType (kind : string) : Completion string :=
  switch String.eqb kind
    [ (PositionKind VertexBuffer, "POSITION");
      (NormalKind VertexBuffer, "NORMAL");
      (TangentKind VertexBuffer, "TANGENT");
      (ColorKind VertexBuffer, "COLOR_0");
      (UVKind VertexBuffer, "TEXCOORD_0");
      (UV2Kind VertexBuffer, "TEXCOORD_1");
      (UV3Kind VertexBuffer, "TEXCOORD_2");
      (UV4Kind VertexBuffer, "TEXCOORD_3");
      (UV5Kind VertexBuffer, "TEXCOORD_4");
      (UV6Kind VertexBuffer, "TEXCOORD_5");
      (MatricesIndicesKind VertexBuffer, "JOINTS_0");
      (MatricesIndicesExtraKind VertexBuffer, "JOINTS_1");
      (MatricesWeightsKind VertexBuffer, "WEIGHTS_0");
      (MatricesWeightsExtraKind VertexBuffer, "WEIGHTS_1") ]
    (Throw ("Unknown kind: " ++ kind)).

(** The message of the error interpolates the number; the model keeps
    the fixed part of it. *)
Definition getPrimitiveMode (fillMode : Z) : Completion MeshPrimitiveMode :=
  switch Z.eqb fillMode
    [ (TriangleFillMode Material, TRIANGLES);
      (TriangleStripDrawMode Material, TRIANGLE_STRIP);
      (TriangleFanDrawMode Material, TRIANGLE_FAN);
      (PointListDrawMode Material, POINTS);
      (PointFillMode Material, POINTS);
      (LineLoopDrawMode Material, LINE_LOOP);
      (LineListDrawMode Material, LINES);
      (LineStripDrawMode Material, LINE_STRIP) ]
    (Throw "Unknown fill mode: ").

(** The attribute kinds the two kind mappings have a case for. *)
Definition attributeKinds : list string :=
  [ PositionKind VertexBuffer; NormalKind VertexBuffer; TangentKind VertexBuffer;
    ColorKind VertexBuffer;
    UVKind VertexBuffer; UV2Kind VertexBuffer; UV3Kind VertexBuffer;
    UV4Kind VertexBuffer; UV5Kind VertexBuffer; UV6Kind VertexBuffer;
    MatricesIndicesKind VertexBuffer; MatricesIndicesExtraKind VertexBuffer;
    MatricesWeightsKind VertexBuffer; MatricesWeightsExtraKind VertexBuffer ].

(** The fill modes [getPrimitiveMode] has a case for. *)
Definition mappedFillModes : list Z :=
  [ TriangleFillMode Material; TriangleStripDrawMode Material;
    TriangleFanDrawMode Material; PointListDrawMode Material;
    PointFillMode Material; LineLoopDrawMode Material;
    LineListDrawMode Material; LineStripDrawMode Material ].
End Mappings.

(** The constants with the values they have in the engine
    ([core/Buffers/buffer] and [core/Materials/material]); the examples use
    them. *)
Definition BabylonVertexBuffer : VertexBufferKinds :=
  {| PositionKind := "position"; NormalKind := "normal"; TangentKind := "tangent";
     ColorKind := "color";
     UVKind := "uv"; UV2Kind := "uv2"; UV3Kind := "uv3";
     UV4Kind := "uv4"; UV5Kind := "uv5"; UV6Kind := "uv6";
     MatricesIndicesKind := "matricesIndices";
     MatricesIndicesExtraKind := "matricesIndicesExtra";
     MatricesWeightsKind := "matricesWeights";
     MatricesWeightsExtraKind := "matricesWeightsExtra" |}.

Definition BabylonMaterial : MaterialFillModes :=
  {| TriangleFillMode := 0; PointFillMode := 2; PointListDrawMode := 3;
     LineListDrawMode := 4; LineLoopDrawMode := 5; LineStripDrawMode := 6;
     TriangleStripDrawMode := 7; TriangleFanDrawMode := 8 |}.

End Utilities.

(** ** [class ExporterState]: the deduplication cache *)

Module ExporterState.

(** The two accessor caches are maps whose values are [Map] objects, which
    in turn hold [Map] objects.  Those objects are kept in two stores, and
    a reference is an index into its store. *)
Record t : Type := mk {
  _indicesBufferViewMap : gmap positive Z;
  _indicesAccessorMap : gmap positive nat;
  _attributeBufferViewMap : gmap positive Z;
  _attributeAccessorMap : gmap positive nat;
  _meshMap : gmap positive Z;
  (** the allocated [Map<number, Map<number, number>>] objects *)
  outerMaps : list (gmap Z nat);
  (** the allocated [Map<number, number>] objects *)
  innerMaps : list (gmap Z Z)
}.

(** [new ExporterState()] *)
Definition new : t :=
  {| _indicesBufferViewMap := ∅; _indicesAccessorMap := ∅;
     _attributeBufferViewMap := ∅; _attributeAccessorMap := ∅;
     _meshMap := ∅; outerMaps := []; innerMaps := [] |}.

Definition derefOuter (s : t) (r : nat) : gmap Z nat := default ∅ (outerMaps s !! r).
Definition derefInner (s : t) (r : nat) : gmap Z Z := default ∅ (innerMaps s !! r).

(** [new Map<number, Map<number, number>>()]: a fresh object and its reference. *)
Definition newOuterMap (s : t) : nat * t :=
  (length (outerMaps s),
   {| _indicesBufferViewMap := _indicesBufferViewMap s;
      _indicesAccessorMap := _indicesAccessorMap s;
      _attributeBufferViewMap := _attributeBufferViewMap s;
      _attributeAccessorMap := _attributeAccessorMap s;
      _meshMap := _meshMap s;
      outerMaps := outerMaps s ++ [∅];
      innerMaps := innerMaps s |}).

(** [new Map<number, number>()] *)
Definition newInnerMap (s : t) : nat * t :=
  (length (innerMaps s),
   {| _indicesBufferViewMap := _indicesBufferViewMap s;
      _indicesAccessorMap := _indicesAccessorMap s;
      _attributeBufferViewMap := _attributeBufferViewMap s;
      _attributeAccessorMap := _attributeAccessorMap s;
      _meshMap := _meshMap s;
      outerMaps := outerMaps s;
      innerMaps := innerMaps s ++ [∅] |}).

(** [map2.set(key, value)] on the [Map<number, number>] object [map2]. *)
Definition innerMapSet (map2 : nat) (key value : Z) (s : t) : t :=
  {| _indicesBufferViewMap := _indicesBufferViewMap s;
     _indicesAccessorMap := _indicesAccessorMap s;
     _attributeBufferViewMap := _attributeBufferViewMap s;
     _attributeAccessorMap := _attributeAccessorMap s;
     _meshMap := _meshMap s;
     outerMaps := outerMaps s;
     innerMaps := <[map2 := <[key := value]> (derefInner s map2)]> (innerMaps s) |}.

Definition getIndicesBufferView (indices : positive) (s : t) : option Z :=
  _indicesBufferViewMap s !! indices.

Definition setIndicesBufferView (indices : positive) (bufferViewIndex : Z) (s : t) : t :=
  {| _indicesBufferViewMap := <[indices := bufferViewIndex]> (_indicesBufferViewMap s);
     _indicesAccessorMap := _indicesAccessorMap s;
     _attributeBufferViewMap := _attributeBufferViewMap s;
     _attributeAccessorMap := _attributeAccessorMap s;
     _meshMap := _meshMap s;
     outerMaps := outerMaps s;
     innerMaps := innerMaps s |}.

Definition getIndicesAccessor (indices : positive) (indexStart indexCount : Z) (s : t)
  : option Z :=
  match _indicesAccessorMap s !! indices with
  | None => None
  | Some map1 =>
      match derefOuter s map1 !! indexStart with
      | None => None
      | Some map2 => derefInner s map2 !! indexCount
      end
  end.

(** [map1] is the cached object or a fresh one, [map2] likewise; the only
    store is [map2.set(indexCount, accessorIndex)]. *)
Definition setIndicesAccessor (indices : positive) (indexStart indexCount accessorIndex : Z)
    (s : t) : t :=
  let '(map1, s) :=
    match _indicesAccessorMap s !! indices with
    | Some r => (r, s)
    | None => newOuterMap s
    end in
  let '(map2, s) :=
    match derefOuter s map1 !! indexStart with
    | Some r => (r, s)
    | None => newInnerMap s
    end in
  innerMapSet map2 indexCount accessorIndex s.

Definition getAttributeBufferView (buffer : positive) (s : t) : option Z :=
  _attributeBufferViewMap s !! buffer.

Definition setAttributeBufferView (buffer : positive) (bufferViewIndex : Z) (s : t) : t :=
  {| _indicesBufferViewMap := _indicesBufferViewMap s;
     _indicesAccessorMap := _indicesAccessorMap s;
     _attributeBufferViewMap := <[buffer := bufferViewIndex]> (_attributeBufferViewMap s);
     _attributeAccessorMap := _attributeAccessorMap s;
     _meshMap := _meshMap s;
     outerMaps := outerMaps s;
     innerMaps := innerMaps s |}.

Definition getAttributeAccessor (vertexBuffer : positive) (vertexStart vertexCount : Z) (s : t)
  : option Z :=
  match _attributeAccessorMap s !! vertexBuffer with
  | None => None
  | Some map1 =>
      match derefOuter s map1 !! vertexStart with
      | None => None
      | Some map2 => derefInner s map2 !! vertexCount
      end
  end.

Definition setAttributeAccessor (vertexBuffer : positive)
    (vertexStart vertexCount accessorIndex : Z) (s : t) : t :=
  let '(map1, s) :=
    match _attributeAccessorMap s !! vertexBuffer with
    | Some r => (r, s)
    | None => newOuterMap s
    end in
  let '(map2, s) :=
    match derefOuter s map1 !! vertexStart with
    | Some r => (r, s)
    | None => newInnerMap s
    end in
  innerMapSet map2 vertexCount accessorIndex s.

Definition getMesh (mesh : positive) (s : t) : option Z := _meshMap s !! mesh.

Definition setMesh (mesh : positive) (meshIndex : Z) (s : t) : t :=
  {| _indicesBufferViewMap := _indicesBufferViewMap s;
     _indicesAccessorMap := _indicesAccessorMap s;
     _attributeBufferViewMap := _attributeBufferViewMap s;
     _attributeAccessorMap := _attributeAccessorMap s;
     _meshMap := <[mesh := meshIndex]> (_meshMap s);
     outerMaps := outerMaps s;
     innerMaps := innerMaps s |}.

(** The states an exporter can be in: [new], followed by any calls of the
    five setters. *)
Inductive reachable : t -> Prop :=
| reachable_new : reachable new
| reachable_setIndicesBufferView s k v :
    reachable s -> reachable (setIndicesBufferView k v s)
| reachable_setIndicesAccessor s k a b v :
    reachable s -> reachable (setIndicesAccessor k a b v s)
| reachable_setAttributeBufferView s k v :
    reachable s -> reachable (setAttributeBufferView k v s)
| reachable_setAttributeAccessor s k a b v :
    reachable s -> reachable (setAttributeAccessor k a b v s)
| reachable_setMesh s k v :
    reachable s -> reachable (setMesh k v s).

End ExporterState.

(** ** The scene collaborator

    The engine classes the exporter reads.  An object that is used as a key
    of a cache carries its identity; a method without arguments is a field. *)

Module Babylon.
Import Utilities.

(** [IndicesArray = number[] | Int32Array | Uint32Array | Uint16Array] *)
Inductive IndicesData : Type :=
| NumberArray (values : list Z)
| Int32Array (values : list Z)
| Uint32Array (values : list Z)
| Uint16Array (values : list Z).

Record IndicesArray : Type := {
  indices_id : positive;
  indices_data : IndicesData
}.

(** [DataArray = number[] | ArrayBuffer | ArrayBufferView]: an array of
    numbers, or bytes. *)
Inductive DataArray : Type :=
| Numbers (values : list number)
| Bytes (bytes : list Z).

Record Buffer : Type := {
  buffer_id : positive;
  getData : option DataArray
}.

Record VertexBuffer : Type := {
  vertexBuffer_id : positive;
  getKind : string;
  _buffer : Buffer;
  byteOffset : Z;
  byteStride : Z;
  type : Z;
  getFloatData : option (list number)
}.

Inductive MaterialClass : Type :=
| PBRMaterial | StandardMaterial | MultiMaterial | OtherMaterial.

#[warnings="-register-all"] Inductive Material : Type :=
| mkMaterial (material_id : positive) (class : MaterialClass) (fillMode : Z)
    (subMaterials : list (option Material)).

Definition material_id (m : Material) : positive :=
  match m with mkMaterial i _ _ _ => i end.
Definition material_class (m : Material) : MaterialClass :=
  match m with mkMaterial _ c _ _ => c end.
Definition fillMode (m : Material) : Z :=
  match m with mkMaterial _ _ f _ => f end.
Definition subMaterials (m : Material) : list (option Material) :=
  match m with mkMaterial _ _ _ l => l end.

Record SubMesh : Type := {
  indexStart : Z;
  indexCount : Z;
  verticesStart : Z;
  verticesCount : Z;
  materialIndex : Z;
  (** [getMaterial(true)] *)
  getMaterial : option Material
}.

Record Geometry : Type := {
  (** [getVertexBuffers()]: an object from attribute kind to vertex
      buffer, in the order of its keys. *)
  getVertexBuffers : option (list (string * VertexBuffer))
}.

Record Mesh : Type := {
  mesh_id : positive;
  isUnIndexed : bool;
  getIndices : option IndicesArray;
  geometry : option Geometry;
  subMeshes : option (list SubMesh);
  overrideRenderingFillMode : option Z
}.

(** *** Matrices

    Modelled from the spec: the engine's [Matrix] class ([core/Maths]) is
    not part of the exporter; the walker only needs the product with the
    handedness matrix and the identity test.  A matrix is its 16 entries
    in row-major order, taken as rationals. *)
Definition Matrix : Type := list Q.

Definition entry (m : Matrix) (i : nat) : Q := nth i m 0%Q.

Definition multiply (a b : Matrix) : Matrix :=
  List.map (fun k : nat =>
         let r := (k / 4)%nat in
         let c := (k mod 4)%nat in
         (entry a (4 * r) * entry b c
          + entry a (4 * r + 1) * entry b (4 + c)
          + entry a (4 * r + 2) * entry b (8 + c)
          + entry a (4 * r + 3) * entry b (12 + c))%Q)
      (seq 0 16).

Definition Identity : Matrix :=
  [1; 0; 0; 0;  0; 1; 0; 0;  0; 0; 1; 0;  0; 0; 0; 1]%Q.

Definition isIdentity (m : Matrix) : bool :=
  (length m =? 16)%nat
  && forallb (fun k => Qeq_bool (entry m k) (entry Identity k)) (seq 0 16).

(** *** Nodes *)

(** The class of a node.  [Mesh] and [InstancedMesh] are subclasses of
    [TransformNode]; [Light] and [Camera] are not.  A node of class [Mesh]
    is its mesh: the [mesh_id] of the mesh is the [uniqueId] of the node.
    The source mesh of an instance is another node of the scene. *)
Inductive NodeClass : Type :=
| TransformNode
| IsMesh (mesh : Mesh)
| IsInstancedMesh (sourceMesh : Mesh)
| Light
| Camera.

Record Node : Type := {
  uniqueId : positive;
  name : string;
  (** the identity of the parent node, if any *)
  parent : option positive;
  class : NodeClass;
  getWorldMatrix : Matrix
}.

Definition instanceofTransformNode (n : Node) : bool :=
  match class n with
  | TransformNode | IsMesh _ | IsInstancedMesh _ => true
  | Light | Camera => false
  end.

Record Scene : Type := {
  transformNodes : list Node;
  meshes : list Node;
  lights : list Node;
  cameras : list Node;
  rootNodes : list Node;
  useRightHandedSystem : bool
}.

Definition sceneNodes (scene : Scene) : list Node :=
  transformNodes scene ++ meshes scene ++ lights scene ++ cameras scene.

(** Modelled from the spec: [Node.getDescendants()] belongs to the engine;
    the descendants of a node are the nodes of the scene that reach it by
    following parent references. *)
Fixpoint hasAncestor (all : list Node) (fuel : nat) (n : Node) (ancestor : positive) : bool :=
  match parent n with
  | None => false
  | Some p =>
      if Pos.eqb p ancestor then true
      else
        match fuel with
        | O => false
        | S fuel' =>
            match List.find (fun m => Pos.eqb (uniqueId m) p) all with
            | Some pn => hasAncestor all fuel' pn ancestor
            | None => false
            end
        end
  end.

Definition getDescendants (scene : Scene) (n : Node) : list Node :=
  List.filter (fun m => hasAncestor (sceneNodes scene) (length (sceneNodes scene)) m (uniqueId n))
    (sceneNodes scene).

End Babylon.

(** ** [class GLTFExporter] *)

Module GLTFExporter.
Import JS Utilities.

(** *** The output document *)

Module IMeshPrimitive.
Record t : Type := mk {
  (** an object from semantic name to accessor index, in key order *)
  attributes : list (string * Z);
  material : option Z;
  mode : option MeshPrimitiveMode;
  indices : option Z
}.
End IMeshPrimitive.

Module IMesh.
Record t : Type := mk { primitives : list IMeshPrimitive.t }.
End IMesh.

(** The [translation], [rotation] and [scale] of a node are floating-point
    data and are left out of the record. *)
Module INode.
Record t : Type := mk {
  name : option string;
  mesh : option Z;
  children : option (list Z)
}.
End INode.

Module IScene.
Record t : Type := mk { nodes : list Z }.
End IScene.

Record IExportOptions : Type := {
  shouldExportNode : option (Babylon.Node -> bool);
  exportUnusedUVs : option bool;
  removeNoopRootNodes : option bool;
  includeCoordinateSystemConversionNodes : option bool
}.

(** *** The mutable fields of an exporter

    Modelled from the spec: [_dataWriter] is a [DataWriter], a class that
    is not part of this file: an append-only byte sink whose [byteOffset]
    is the number of bytes written and whose output is exactly those
    bytes.  It is the list of the bytes written so far. *)
Record t : Type := mk {
  _accessors : list IAccessor.t;
  _bufferViews : list IBufferView.t;
  _meshes : list IMesh.t;
  _nodes : list INode.t;
  _scenes : list IScene.t;
  _dataWriter : list Z;
  _nodesToConvertToRightHanded : gset positive;
  _originalState : ExporterState.t;
  _convertToRightHandedState : ExporterState.t;
  _nodeMap : gmap positive Z;
  _materialMap : gmap positive Z;
  _materialNeedsUVsSet : gset positive
}.

(** The fields as the field initialisers leave them. *)
Definition new : t :=
  {| _accessors := []; _bufferViews := []; _meshes := []; _nodes := [];
     _scenes := []; _dataWriter := [];
     _nodesToConvertToRightHanded := ∅;
     _originalState := ExporterState.new;
     _convertToRightHandedState := ExporterState.new;
     _nodeMap := ∅; _materialMap := ∅; _materialNeedsUVsSet := ∅ |}.

Definition update_accessors (f : list IAccessor.t -> list IAccessor.t) (e : t) : t :=
  let 'mk a b c d s w n o r m mm u := e in mk (f a) b c d s w n o r m mm u.
Definition update_bufferViews (f : list IBufferView.t -> list IBufferView.t) (e : t) : t :=
  let 'mk a b c d s w n o r m mm u := e in mk a (f b) c d s w n o r m mm u.
Definition update_meshes (f : list IMesh.t -> list IMesh.t) (e : t) : t :=
  let 'mk a b c d s w n o r m mm u := e in mk a b (f c) d s w n o r m mm u.
Definition update_nodes (f : list INode.t -> list INode.t) (e : t) : t :=
  let 'mk a b c d s w n o r m mm u := e in mk a b c (f d) s w n o r m mm u.
Definition update_scenes (f : list IScene.t -> list IScene.t) (e : t) : t :=
  let 'mk a b c d s w n o r m mm u := e in mk a b c d (f s) w n o r m mm u.
Definition update_dataWriter (f : list Z -> list Z) (e : t) : t :=
  let 'mk a b c d s w n o r m mm u := e in mk a b c d s (f w) n o r m mm u.
Definition update_nodesToConvertToRightHanded (f : gset positive -> gset positive) (e : t) : t :=
  let 'mk a b c d s w n o r m mm u := e in mk a b c d s w (f n) o r m mm u.
Definition update_originalState (f : ExporterState.t -> ExporterState.t) (e : t) : t :=
  let 'mk a b c d s w n o r m mm u := e in mk a b c d s w n (f o) r m mm u.
Definition update_convertToRightHandedState (f : ExporterState.t -> ExporterState.t) (e : t) : t :=
  let 'mk a b c d s w n o r m mm u := e in mk a b c d s w n o (f r) m mm u.
Definition update_nodeMap (f : gmap positive Z -> gmap positive Z) (e : t) : t :=
  let 'mk a b c d s w n o r m mm u := e in mk a b c d s w n o r (f m) mm u.
Definition update_materialMap (f : gmap positive Z -> gmap positive Z) (e : t) : t :=
  let 'mk a b c d s w n o r m mm u := e in mk a b c d s w n o r m (f mm) u.

(** *** Methods run in the state of the exporter and may throw

    An [async] method that awaits one step after the other is the
    sequential composition of the steps; a rejected promise that is
    awaited is a thrown error. *)
Definition M (A : Type) : Type := t -> Completion (A * t).

#[global] Instance M_ret : MRet M := fun A a e => Normal (a, e).

#[global] Instance M_bind : MBind M := fun A B k m e =>
  match m e with
  | Normal (a, e') => k a e'
  | Throw message => Throw message
  end.

Definition throw {A : Type} (message : string) : M A := fun _ => Throw message.
Definition read : M t := fun e => Normal (e, e).
Definition modify (f : t -> t) : M unit := fun e => Normal (tt, f e).

Definition lift {A : Type} (c : Completion A) : M A :=
  fun e => match c with Normal a => Normal (a, e) | Throw message => Throw message end.

(** [for (const x of l) body(x)] with loop-carried variables [s]. *)
Fixpoint forOf {A S : Type} (l : list A) (body : S -> A -> M S) (s : S) : M S :=
  match l with
  | [] => mret s
  | x :: rest => s' ← body s x; forOf rest body s'
  end.

(** *** Helpers at the top of the file *)

(** [Matrix.Compose(new Vector3(-1, 1, 1), Quaternion.Identity(), Vector3.Zero())]:
    the scaling by -1 along X. *)
Definition convertHandednessMatrix : Babylon.Matrix :=
  [-1; 0; 0; 0;  0; 1; 0; 0;  0; 0; 1; 0;  0; 0; 0; 1]%Q.

Definition isNoopNode (node : Babylon.Node) (useRightHandedSystem : bool) : bool :=
  if negb (Babylon.instanceofTransformNode node) then false
  else if
    (if useRightHandedSystem
     then negb (Babylon.isIdentity (Babylon.getWorldMatrix node))
     else negb (Babylon.isIdentity
                  (Babylon.multiply (Babylon.getWorldMatrix node) convertHandednessMatrix)))
  then false
  else if
    match Babylon.class node with
    | Babylon.IsMesh mesh => bool_decide (is_Some (Babylon.geometry mesh))
    | Babylon.IsInstancedMesh sourceMesh => bool_decide (is_Some (Babylon.geometry sourceMesh))
    | _ => false
    end
  then false
  else true.

Definition isIndicesArray32Bits (indices : Babylon.IndicesData) : bool :=
  match indices with
  | Babylon.NumberArray values => existsb (fun value => 65536 <=? value) values
  | Babylon.Int32Array _ | Babylon.Uint32Array _ => true
  | Babylon.Uint16Array _ => false
  end.

(** The bytes of an element of a [Uint16Array] and of a 4-byte typed array
    (little-endian). *)
Definition bytes16 (v : Z) : list Z :=
  let v := v mod 2 ^ 16 in [v mod 256; v / 2 ^ 8].
Definition bytes32 (v : Z) : list Z :=
  let v := v mod 2 ^ 32 in
  [v mod 256; (v / 2 ^ 8) mod 256; (v / 2 ^ 16) mod 256; v / 2 ^ 24].

Definition indicesArrayToUint8Array (indices : Babylon.IndicesData) (is32Bits : bool)
  : list Z :=
  match indices with
  | Babylon.NumberArray values =>
      if is32Bits then flat_map bytes32 values else flat_map bytes16 values
  | Babylon.Int32Array values | Babylon.Uint32Array values => flat_map bytes32 values
  | Babylon.Uint16Array values => flat_map bytes16 values
  end.

(** [_getPadding(num)] *)
Definition _getPadding (num : Z) : Z :=
  let remainder := Z.rem num 4 in
  let padding := if remainder =? 0 then remainder else 4 - remainder in
  padding.

(** [Array.prototype.indexOf] on a list of nodes: objects are compared by
    identity. *)
Fixpoint indexOfFrom (nodes : list Babylon.Node) (node : Babylon.Node) (i : Z) : Z :=
  match nodes with
  | [] => -1
  | n :: rest =>
      if Pos.eqb (Babylon.uniqueId n) (Babylon.uniqueId node) then i
      else indexOfFrom rest node (i + 1)
  end.
Definition indexOf (nodes : list Babylon.Node) (node : Babylon.Node) : Z :=
  indexOfFrom nodes node 0.

(** [array.splice(start, deleteCount)]: a negative [start] counts from the
    end of the array. *)
Definition splice {A : Type} (array : list A) (start deleteCount : Z) : list A :=
  let len := Z.of_nat (length array) in
  let actualStart := if start <? 0 then Z.max (len + start) 0 else Z.min start len in
  let actualDeleteCount := Z.min (Z.max deleteCount 0) (len - actualStart) in
  take (Z.to_nat actualStart) array
    ++ drop (Z.to_nat (actualStart + actualDeleteCount)) array.

(** [object[key] = value] on an object kept as the list of its properties. *)
Fixpoint setProperty (object : list (string * Z)) (key : string) (value : Z)
  : list (string * Z) :=
  match object with
  | [] => [(key, value)]
  | (k, v) :: rest =>
      if String.eqb k key then (k, value) :: rest
      else (k, v) :: setProperty rest key value
  end.

(** *** The export methods *)

Section Methods.
(** The collaborators of an export: the constants of the engine, the
    IEEE single-precision bytes of a number, the two entry points of the
    material exporter (which holds a reference to the exporter and may
    change it), the scene and the options. *)
Context (VertexBuffer : VertexBufferKinds) (Material : MaterialFillModes).
Context (float32Bytes : number -> list Z).
Context (exportPBRMaterialAsync exportStandardMaterialAsync
           : Babylon.Material -> bool -> M Z).
Context (_babylonScene : Babylon.Scene) (_options : IExportOptions).

Definition dataArrayToUint8Array (data : Babylon.DataArray) : list Z :=
  match data with
  | Babylon.Numbers values => flat_map float32Bytes values
  | Babylon.Bytes bytes => bytes
  end.

Definition _shouldConvertToRightHanded (babylonNode : positive) (e : t) : bool :=
  bool_decide (babylonNode ∈ _nodesToConvertToRightHanded e).

(** [_getState] returns one of the two state objects of the exporter;
    the result is the name of the field, since the caller goes on to
    change the object it designates. *)
Inductive StateField : Type := OriginalState | ConvertToRightHandedState.

Definition _getState (babylonNode : positive) (e : t) : StateField :=
  if _shouldConvertToRightHanded babylonNode e
  then ConvertToRightHandedState else OriginalState.

Definition stateOf (field : StateField) (e : t) : ExporterState.t :=
  match field with
  | OriginalState => _originalState e
  | ConvertToRightHandedState => _convertToRightHandedState e
  end.

Definition updateState (field : StateField) (f : ExporterState.t -> ExporterState.t)
  : M unit :=
  modify (match field with
          | OriginalState => update_originalState f
          | ConvertToRightHandedState => update_convertToRightHandedState f
          end).

Definition _exportIndicesData (indices : Babylon.IndicesData) (is32Bits : bool)
    (convertToRightHanded : bool) : M Z :=
  e ← read;
  let byteOffset := Z.of_nat (length (_dataWriter e)) in
  let bytes := indicesArrayToUint8Array indices is32Bits in
  modify (update_dataWriter (fun written => written ++ bytes));;
  modify (update_bufferViews (fun views =>
    views ++ [createBufferView 0 byteOffset (Z.of_nat (length bytes)) None None]));;
  e ← read;
  mret (Z.of_nat (length (_bufferViews e)) - 1).

Definition UNSIGNED_SHORT : Z := 5123.
Definition UNSIGNED_INT : Z := 5125.

Definition _exportIndices (bufferViewIndex : Z) (is32Bits : bool) (start count : Z) : M Z :=
  let byteStride := if is32Bits then 4 else 2 in
  let componentType := if is32Bits then UNSIGNED_INT else UNSIGNED_SHORT in
  let byteOffset := start * byteStride in
  modify (update_accessors (fun accessors =>
    accessors ++ [createAccessor bufferViewIndex AccessorType.SCALAR componentType count
                    (Some byteOffset) None None]));;
  e ← read;
  mret (Z.of_nat (length (_accessors e)) - 1).

Definition _exportBuffer (buffer : Babylon.Buffer) (byteStride : Z)
    (convertToRightHanded : bool) : M Z :=
  match Babylon.getData buffer with
  | None => throw "Buffer data is not available"
  | Some data =>
      e ← read;
      let byteOffset := Z.of_nat (length (_dataWriter e)) in
      let bytes := dataArrayToUint8Array data in
      modify (update_dataWriter (fun written => written ++ bytes));;
      modify (update_bufferViews (fun views =>
        views ++ [createBufferView 0 byteOffset (Z.of_nat (length bytes))
                    (Some byteStride) None]));;
      e ← read;
      mret (Z.of_nat (length (_bufferViews e)) - 1)
  end.

Definition _exportVertexBuffer (vertexBuffer : Babylon.VertexBuffer) (start count : Z)
    (bufferViewIndex : Z) : M Z :=
  let kind := Babylon.getKind vertexBuffer in
  '(min, max) ←
    (if String.eqb kind (PositionKind VertexBuffer) then
       match Babylon.getFloatData vertexBuffer with
       | None => throw "Missing position data"
       | Some positionsData =>
           let '(min, max) := calculateMinMaxPositions positionsData start count in
           mret (Some min, Some max)
       end
     else mret (None, None));
  let byteOffset := Babylon.byteOffset vertexBuffer + start * Babylon.byteStride vertexBuffer in
  accessorType ← lift (getAccessorType VertexBuffer kind);
  modify (update_accessors (fun accessors =>
    accessors ++ [createAccessor bufferViewIndex accessorType (Babylon.type vertexBuffer)
                    count (Some byteOffset) min max]));;
  e ← read;
  mret (Z.of_nat (length (_accessors e)) - 1).

(** The warning logged for an unsupported material class has no effect
    on the export. *)
Definition _exportMaterialAsync (babylonMaterial : Babylon.Material) (hasUVs : bool) : M Z :=
  match Babylon.material_class babylonMaterial with
  | Babylon.PBRMaterial => exportPBRMaterialAsync babylonMaterial hasUVs
  | Babylon.StandardMaterial => exportStandardMaterialAsync babylonMaterial hasUVs
  | _ => mret (-1)
  end.

(** [kind.startsWith("uv")] *)
Definition startsWithUV (kind : string) : bool := String.prefix "uv" kind.

(** The material of a primitive: the statements of [_exportMeshAsync]
    under [if (babylonMaterial)].  The result is [primitive.material]. *)
Definition exportPrimitiveMaterial (vertexBuffers : list (string * Babylon.VertexBuffer))
    (subMesh : Babylon.SubMesh) : M (option Z) :=
  match Babylon.getMaterial subMesh with
  | None => mret None
  | Some babylonMaterial =>
      e ← read;
      let cached := default (-1) (_materialMap e !! Babylon.material_id babylonMaterial) in
      materialIndex ←
        (if cached =? -1 then
           let hasUVs := existsb (fun entry => startsWithUV (fst entry)) vertexBuffers in
           match Babylon.material_class babylonMaterial with
           | Babylon.MultiMaterial =>
               let index := Babylon.materialIndex subMesh in
               match (if index <? 0 then None
                      else Babylon.subMaterials babylonMaterial !! Z.to_nat index) with
               | Some (Some subMaterial) => _exportMaterialAsync subMaterial hasUVs
               | _ => mret cached
               end
           | _ => _exportMaterialAsync babylonMaterial hasUVs
           end
         else mret cached);
      if materialIndex =? -1 then mret None
      else
        modify (update_materialMap
                  (fun map => <[Babylon.material_id babylonMaterial := materialIndex]> map));;
        mret (Some materialIndex)
  end.

(** The statements under [if (indices)]; the result is [primitive.indices]. *)
Definition exportPrimitiveIndices (state : StateField) (convertToRightHanded : bool)
    (indices : option Babylon.IndicesArray) (subMesh : Babylon.SubMesh) : M (option Z) :=
  match indices with
  | None => mret None
  | Some indices =>
      let id := Babylon.indices_id indices in
      let is32Bits := isIndicesArray32Bits (Babylon.indices_data indices) in
      e ← read;
      bufferViewIndex ←
        match ExporterState.getIndicesBufferView id (stateOf state e) with
        | Some index => mret index
        | None => _exportIndicesData (Babylon.indices_data indices) is32Bits
                    convertToRightHanded
        end;
      updateState state (ExporterState.setIndicesBufferView id bufferViewIndex);;
      e ← read;
      accessorIndex ←
        match ExporterState.getIndicesAccessor id (Babylon.indexStart subMesh)
                (Babylon.indexCount subMesh) (stateOf state e) with
        | Some index => mret index
        | None => _exportIndices bufferViewIndex is32Bits (Babylon.indexStart subMesh)
                    (Babylon.indexCount subMesh)
        end;
      updateState state
        (ExporterState.setIndicesAccessor id (Babylon.indexStart subMesh)
           (Babylon.indexCount subMesh) accessorIndex);;
      mret (Some accessorIndex)
  end.

(** The body of [for (const kind of Object.keys(vertexBuffers))]; the
    loop-carried variable is [primitive.attributes]. *)
Definition exportPrimitiveAttribute (state : StateField) (convertToRightHanded : bool)
    (subMesh : Babylon.SubMesh) (attributes : list (string * Z))
    (entry : string * Babylon.VertexBuffer) : M (list (string * Z)) :=
  let '(kind, vertexBuffer) := entry in
  e ← read;
  if startsWithUV kind && negb (default false (exportUnusedUVs _options))
     && match Babylon.getMaterial subMesh with
        | None => true
        | Some babylonMaterial =>
            negb (bool_decide (Babylon.material_id babylonMaterial ∈ _materialNeedsUVsSet e))
        end
  then mret attributes
  else
    let buffer := Babylon._buffer vertexBuffer in
    bufferViewIndex ←
      match ExporterState.getAttributeBufferView (Babylon.buffer_id buffer)
              (stateOf state e) with
      | Some index => mret index
      | None => _exportBuffer buffer (Babylon.byteStride vertexBuffer) convertToRightHanded
      end;
    updateState state
      (ExporterState.setAttributeBufferView (Babylon.buffer_id buffer) bufferViewIndex);;
    e ← read;
    accessorIndex ←
      match ExporterState.getAttributeAccessor (Babylon.vertexBuffer_id vertexBuffer)
              (Babylon.verticesStart subMesh) (Babylon.verticesCount subMesh)
              (stateOf state e) with
      | Some index => mret index
      | None => _exportVertexBuffer vertexBuffer (Babylon.verticesStart subMesh)
                  (Babylon.verticesCount subMesh) bufferViewIndex
      end;
    updateState state
      (ExporterState.setAttributeAccessor (Babylon.vertexBuffer_id vertexBuffer)
         (Babylon.verticesStart subMesh) (Babylon.verticesCount subMesh) accessorIndex);;
    semantic ← lift (getAttributeType VertexBuffer kind);
    mret (setProperty attributes semantic accessorIndex).

(** The body of the loop over the submeshes; the loop-carried variable
    is [mesh.primitives]. *)
Definition exportPrimitive (babylonMesh : Babylon.Mesh) (state : StateField)
    (convertToRightHanded : bool) (indices : option Babylon.IndicesArray)
    (vertexBuffers : list (string * Babylon.VertexBuffer))
    (primitives : list IMeshPrimitive.t) (subMesh : Babylon.SubMesh)
  : M (list IMeshPrimitive.t) :=
  material ← exportPrimitiveMaterial vertexBuffers subMesh;
  mode ← lift (getPrimitiveMode Material
                 match Babylon.overrideRenderingFillMode babylonMesh with
                 | Some fillMode => fillMode
                 | None =>
                     match Babylon.getMaterial subMesh with
                     | Some babylonMaterial => Babylon.fillMode babylonMaterial
                     | None => TriangleFillMode Material
                     end
                 end);
  let primitiveMode := match mode with TRIANGLES => None | _ => Some mode end in
  primitiveIndices ← exportPrimitiveIndices state convertToRightHanded indices subMesh;
  attributes ← forOf vertexBuffers
                 (exportPrimitiveAttribute state convertToRightHanded subMesh) [];
  mret (primitives ++ [IMeshPrimitive.mk attributes material primitiveMode primitiveIndices]).

Definition _exportMeshAsync (babylonMesh : Babylon.Mesh) : M Z :=
  e ← read;
  let state := _getState (Babylon.mesh_id babylonMesh) e in
  let convertToRightHanded := _shouldConvertToRightHanded (Babylon.mesh_id babylonMesh) e in
  let indices :=
    if Babylon.isUnIndexed babylonMesh then None else Babylon.getIndices babylonMesh in
  let vertexBuffers :=
    match Babylon.geometry babylonMesh with
    | Some geometry => Babylon.getVertexBuffers geometry
    | None => None
    end in
  primitives ←
    match vertexBuffers, Babylon.subMeshes babylonMesh with
    | Some vertexBuffers, Some (subMesh :: subMeshes) =>
        forOf (subMesh :: subMeshes)
          (exportPrimitive babylonMesh state convertToRightHanded indices vertexBuffers) []
    | _, _ => mret []
    end;
  modify (update_meshes (fun meshes => meshes ++ [IMesh.mk primitives]));;
  e ← read;
  mret (Z.of_nat (length (_meshes e)) - 1).

(** [a || b], where [a] is [number | undefined]: [b] is evaluated when
    [a] is [undefined] or zero. *)
Definition orElse (a : option Z) (b : M Z) : M Z :=
  match a with
  | Some v => if v =? 0 then b else mret v
  | None => b
  end.

(** [_setNodeTransformation] writes the translation, rotation and scale
    of the node, which the model leaves out; the rest of the method is
    as written. *)
Definition _exportNodeAsync (babylonNode : Babylon.Node) : M Z :=
  e ← read;
  let state := _getState (Babylon.uniqueId babylonNode) e in
  let name :=
    if String.eqb (Babylon.name babylonNode) EmptyString then None
    else Some (Babylon.name babylonNode) in
  mesh ←
    match Babylon.class babylonNode with
    | Babylon.IsMesh babylonMesh | Babylon.IsInstancedMesh babylonMesh =>
        meshIndex ← orElse (ExporterState.getMesh (Babylon.mesh_id babylonMesh)
                              (stateOf state e))
                      (_exportMeshAsync babylonMesh);
        updateState state (ExporterState.setMesh (Babylon.mesh_id babylonMesh) meshIndex);;
        mret (Some meshIndex)
    | _ => mret None
    end;
  modify (update_nodes (fun nodes => nodes ++ [INode.mk name mesh None]));;
  e ← read;
  mret (Z.of_nat (length (_nodes e)) - 1).

Definition _exportNodesAsync (babylonNodes : list Babylon.Node) : M unit :=
  forOf babylonNodes
    (fun _ babylonNode =>
       e ← read;
       nodeIndex ← orElse (_nodeMap e !! Babylon.uniqueId babylonNode)
                     (_exportNodeAsync babylonNode);
       modify (update_nodeMap (fun map => <[Babylon.uniqueId babylonNode := nodeIndex]> map)))
    tt.

(** The first part of [_exportSceneAsync], up to the removal of the no-op
    root nodes: the list of the nodes to export is returned and the
    nodes to convert are recorded in the exporter.  (The set
    [removedRootNodes] is only written, and the scene metadata is not
    modelled.) *)
Definition pruneRootNode (nodes : list Babylon.Node) (rootNode : Babylon.Node)
  : M (list Babylon.Node) :=
  if isNoopNode rootNode (Babylon.useRightHandedSystem _babylonScene) then
    let nodes := splice nodes (indexOf nodes rootNode) 1 in
    (if negb (Babylon.useRightHandedSystem _babylonScene) then
       modify (update_nodesToConvertToRightHanded
                 (fun set => set ∖ {[Babylon.uniqueId rootNode]}));;
       forOf (Babylon.getDescendants _babylonScene rootNode)
         (fun _ descendant =>
            modify (update_nodesToConvertToRightHanded
                      (fun set => set ∖ {[Babylon.uniqueId descendant]})))
         tt
     else mret tt);;
    mret nodes
  else mret nodes.

Definition collectNodes : M (list Babylon.Node) :=
  let shouldExportNode := default (fun _ => true) (shouldExportNode _options) in
  let transformNodes := List.filter shouldExportNode (Babylon.transformNodes _babylonScene) in
  let meshes := List.filter shouldExportNode (Babylon.meshes _babylonScene) in
  let lights := List.filter shouldExportNode (Babylon.lights _babylonScene) in
  let cameras := List.filter shouldExportNode (Babylon.cameras _babylonScene) in
  let nodes := transformNodes ++ meshes ++ lights ++ cameras in
  (if negb (Babylon.useRightHandedSystem _babylonScene) then
     forOf nodes
       (fun _ node =>
          modify (update_nodesToConvertToRightHanded
                    (fun set => set ∪ {[Babylon.uniqueId node]})))
       tt
   else mret tt);;
  if default true (removeNoopRootNodes _options)
     && negb (default false (includeCoordinateSystemConversionNodes _options))
  then forOf (Babylon.rootNodes _babylonScene) pruneRootNode nodes
  else mret nodes.

(** The loop that links the exported nodes; the loop-carried variable is
    [scene.nodes].  The [!] on the first lookup asserts an entry that
    [_exportNodesAsync] has just stored for every node of the list; the
    model stops where it would be missing. *)
Definition linkNode (sceneNodes : list Z) (babylonNode : Babylon.Node) : M (list Z) :=
  e ← read;
  match _nodeMap e !! Babylon.uniqueId babylonNode with
  | None => throw "node was not exported"
  | Some nodeIndex =>
      match Babylon.parent babylonNode ≫= (fun p => _nodeMap e !! p) with
      | Some parentNodeIndex =>
          match (if parentNodeIndex <? 0 then None
                 else _nodes e !! Z.to_nat parentNodeIndex) with
          | None => throw "TypeError: parentNode is undefined"
          | Some parentNode =>
              let children := default [] (INode.children parentNode) ++ [nodeIndex] in
              modify (update_nodes (fun nodes =>
                <[Z.to_nat parentNodeIndex :=
                    INode.mk (INode.name parentNode) (INode.mesh parentNode)
                      (Some children)]> nodes));;
              mret sceneNodes
          end
      | None => mret (sceneNodes ++ [nodeIndex])
      end
  end.

Definition _exportSceneAsync : M unit :=
  nodes ← collectNodes;
  _exportNodesAsync nodes;;
  sceneNodes ← forOf nodes linkNode [];
  modify (update_scenes (fun scenes => scenes ++ [IScene.mk sceneNodes])).

End Methods.

(** *** The binary container

    [generateGLBAsync] after the scene has been exported: [binaryBuffer] is
    the output of the data writer, [jsonText] the text that [_generateJSON]
    returns (a list of UTF-16 code units) and [_orderedImageData] the image
    payloads that [_generateJSON] has queued.  [TextEncoder] is the UTF-8
    encoder of the platform, when there is one.  The result is the list of
    the parts given to the [Blob]. *)
Section Container.
Context (TextEncoder : option (list Z -> list Z)).

(** The loop that copies the text when there is no encoder. *)
Fixpoint copyCodeUnits (jsonText : list Z) (jsonData : list Z) (offset : Z)
    (i : nat) (n : nat) : list Z :=
  match n with
  | O => jsonData
  | S n' =>
      let blankCharCode := 95 in
      let charCode := default 0 (charCodeAt jsonText i) in
      let jsonData :=
        if bool_decide (charCodeAt jsonText i = codePointAt jsonText i)
        then setUint8 jsonData (offset + Z.of_nat i) charCode
        else setUint8 jsonData (offset + Z.of_nat i) blankCharCode in
      copyCodeUnits jsonText jsonData offset (S i) n'
  end.

Definition glbData (jsonText : list Z) (binaryBuffer : list Z)
    (_orderedImageData : list (list Z)) : list (list Z) :=
  let headerLength := 12 in
  let chunkLengthPrefix := 8 in
  let encodedJsonText := (fun encode => encode jsonText) <$> TextEncoder in
  let jsonLength :=
    match encodedJsonText with
    | Some encoded => Z.of_nat (length encoded)
    | None => Z.of_nat (length jsonText)
    end in
  let imageByteLength :=
    fold_left (fun total data => total + Z.of_nat (length data)) _orderedImageData 0 in
  let binaryByteLength := Z.of_nat (length binaryBuffer) in
  let jsonPadding := _getPadding jsonLength in
  let binPadding := _getPadding binaryByteLength in
  let imagePadding := _getPadding imageByteLength in
  let byteLength :=
    headerLength + 2 * chunkLengthPrefix + jsonLength + jsonPadding
    + binaryByteLength + binPadding + imageByteLength + imagePadding in
  (* header *)
  let headerBuffer := ArrayBuffer headerLength in
  let headerBuffer := setUint32 headerBuffer 0 0x46546c67 in
  let headerBuffer := setUint32 headerBuffer 4 2 in
  let headerBuffer := setUint32 headerBuffer 8 byteLength in
  (* json chunk *)
  let jsonChunkBuffer := ArrayBuffer (chunkLengthPrefix + jsonLength + jsonPadding) in
  let jsonChunkBuffer := setUint32 jsonChunkBuffer 0 (jsonLength + jsonPadding) in
  let jsonChunkBuffer := setUint32 jsonChunkBuffer 4 0x4e4f534a in
  (* json chunk bytes *)
  let jsonChunkBuffer :=
    match encodedJsonText with
    | Some encoded => typedArraySet jsonChunkBuffer chunkLengthPrefix encoded
    | None => copyCodeUnits jsonText jsonChunkBuffer chunkLengthPrefix 0
                (Z.to_nat jsonLength)
    end in
  (* json padding *)
  let jsonChunkBuffer :=
    fillView jsonChunkBuffer (chunkLengthPrefix + jsonLength) 0 (Z.to_nat jsonPadding)
      0x20 in
  (* binary chunk *)
  let binaryChunkBuffer := ArrayBuffer chunkLengthPrefix in
  let binaryChunkBuffer :=
    setUint32 binaryChunkBuffer 0 (binaryByteLength + imageByteLength + imagePadding) in
  let binaryChunkBuffer := setUint32 binaryChunkBuffer 4 0x004e4942 in
  (* binary padding *)
  let binPaddingBuffer :=
    fillView (ArrayBuffer binPadding) 0 0 (Z.to_nat binPadding) 0 in
  let imagePaddingBuffer :=
    fillView (ArrayBuffer imagePadding) 0 0 (Z.to_nat imagePadding) 0 in
  [headerBuffer; jsonChunkBuffer; binaryChunkBuffer; binaryBuffer]
    ++ _orderedImageData
    ++ [binPaddingBuffer; imagePaddingBuffer].

(** The file: [new Blob(glbData)]. *)
Definition generateGLBAsync (jsonText : list Z) (binaryBuffer : list Z)
    (_orderedImageData : list (list Z)) : list Z :=
  Blob (glbData jsonText binaryBuffer _orderedImageData).

End Container.

(** *** The extension hooks

    [_applyExtension(node, extensions, index, actionAsync)].  An action
    returns a promise or [undefined] ([None]), and like any call it may
    throw instead. *)
Section Extensions.
Context {Extension T : Type}.
Context (actionAsync : Extension -> option T -> Completion (option (Promise (option T)))).

Equations? _applyExtension (node : option T) (extensions : list Extension) (index : nat)
  : Completion (Promise (option T)) by wf (length extensions - index)%nat Nat.lt :=
  _applyExtension node extensions index with inspect (extensions !! index) => {
    | exist _ None _ => Normal (Fulfilled node)
    | exist _ (Some extension) inRange with actionAsync extension node => {
        | Throw message => Throw message
        | Normal None => _applyExtension node extensions (S index)
        | Normal (Some currentPromise) =>
            Normal (then_ currentPromise
                      (fun newNode => _applyExtension newNode extensions (S index)))
      }
  }.
Proof.
  all: apply lookup_lt_Some in inRange; lia.
Defined.
End Extensions.

(** [_applyExtensions(node, actionAsync)]: the array of the extension
    objects is built from the registered names; [this._extensions[name]] is
    [undefined] for a name without an object, and an action that is given
    [undefined] throws a TypeError when it reads the hook from it. *)
Section ApplyExtensions.
Context {Extension T : Type}.
Context (_ExtensionNames : list string) (_extensions : gmap string Extension).
Context (actionAsync : Extension -> option T -> Completion (option (Promise (option T)))).

Definition callAction (extension : option Extension) (node : option T)
  : Completion (option (Promise (option T))) :=
  match extension with
  | Some extension => actionAsync extension node
  | None => Throw "TypeError: cannot read properties of undefined"
  end.

Definition _applyExtensions (node : option T) : Completion (Promise (option T)) :=
  let extensions := List.map (fun name => _extensions !! name) _ExtensionNames in
  _applyExtension callAction node extensions 0.
End ApplyExtensions.

End GLTFExporter.

(** ** Definitions that follow the words of the specification

    They are what the exporter is compared with in Part II. *)

Module Spec.
Import JS.

(** The padding rule: [(4 - length mod 4) mod 4]. *)
Definition padding (length : Z) : Z := (4 - length mod 4) mod 4.

(** The hook chain as an ordered fold.  The carried value is the artifact,
    or the error that ended the chain. *)
Inductive Carried (T : Type) : Type :=
| Artifact (node : option T)
| Failed (message : string).
Arguments Artifact {T} node.
Arguments Failed {T} message.

Section Fold.
Context {Extension T : Type}.
Context (actionAsync : Extension -> option T -> Completion (option (Promise (option T)))).

(** One step: the hook replaces the carried artifact, or declines and
    leaves it unchanged. *)
Definition hookStep (carried : Carried T) (extension : Extension) : Carried T :=
  match carried with
  | Failed message => Failed message
  | Artifact node =>
      match actionAsync extension node with
      | Normal None => Artifact node
      | Normal (Some (Fulfilled newNode)) => Artifact newNode
      | Normal (Some (Rejected reason)) => Failed reason
      | Throw message => Failed message
      end
  end.

Definition hookFold (extensions : list Extension) (node : option T) : Carried T :=
  fold_left hookStep extensions (Artifact node).
End Fold.

(** What a caller that awaits the result of the pipeline observes. *)
Definition await {T : Type} (result : Completion (Promise (option T))) : Carried T :=
  match result with
  | Normal (Fulfilled node) => Artifact node
  | Normal (Rejected reason) => Failed reason
  | Throw message => Failed message
  end.

(** A reader of a binary container: the declared length of the JSON chunk
    (at offset 12) locates the binary chunk; the result is the declared
    length of the binary chunk and the number of bytes of the file that
    follow its 8-byte prefix. *)
Definition binaryChunk (file : list Z) : option (Z * Z) :=
  jsonChunkLength ← getUint32 file 12;
  let binaryChunkStart := 12 + 8 + jsonChunkLength in
  declared ← getUint32 file (Z.to_nat binaryChunkStart);
  Some (declared, Z.of_nat (length file) - (binaryChunkStart + 8)).

(** The byte length of the JSON text of a container: of its UTF-8 encoding
    when the platform has an encoder, of its code units otherwise. *)
Definition jsonByteLength (TextEncoder : option (list Z -> list Z)) (jsonText : list Z) : Z :=
  Z.of_nat (length (match TextEncoder with
                    | Some encode => encode jsonText
                    | None => jsonText
                    end)).

(** The sum of the lengths of the segments of a container: the header, the
    two chunk prefixes, the JSON text and its padding, the geometry bytes
    and their padding, the image bytes and their padding. *)
Definition segmentsLength (TextEncoder : option (list Z -> list Z)) (jsonText : list Z)
    (binaryBuffer : list Z) (images : list (list Z)) : Z :=
  let jsonLength := jsonByteLength TextEncoder jsonText in
  let binaryByteLength := Z.of_nat (length binaryBuffer) in
  let imageByteLength := Z.of_nat (length (concat images)) in
  12 + 8 + 8
  + (jsonLength + padding jsonLength)
  + (binaryByteLength + padding binaryByteLength)
  + (imageByteLength + padding imageByteLength).

(** Component [j] of the vertex [i] of a tightly packed array of positions. *)
Definition component (positions : list Utilities.number) (i : Z) (j : nat)
  : option Utilities.number :=
  Utilities.element positions (3 * i + Z.of_nat j).

(** [m] is the exact minimum of component [j] over the vertices
    [start, start + count): it is the value of one of them and is below the
    value of each. *)
Definition isMinimum (positions : list Utilities.number) (start count : Z) (j : nat)
    (m : Utilities.number) : Prop :=
  exists q,
    m = Utilities.Finite q
    /\ (exists i, start <= i < start + count
                  /\ component positions i j = Some (Utilities.Finite q))
    /\ (forall i q', start <= i < start + count ->
                     component positions i j = Some (Utilities.Finite q') -> (q <= q')%Q).

Definition isMaximum (positions : list Utilities.number) (start count : Z) (j : nat)
    (m : Utilities.number) : Prop :=
  exists q,
    m = Utilities.Finite q
    /\ (exists i, start <= i < start + count
                  /\ component positions i j = Some (Utilities.Finite q))
    /\ (forall i q', start <= i < start + count ->
                     component positions i j = Some (Utilities.Finite q') -> (q' <= q)%Q).

(** The positions of the vertices [start, start + count) exist and are
    finite. *)
Definition finiteRange (positions : list Utilities.number) (start count : Z) : Prop :=
  forall i j, start <= i < start + count -> (j < 3)%nat ->
              exists q, component positions i j = Some (Utilities.Finite q).

End Spec.

(** ** The invariant of the loop of [calculateMinMaxPositions] *)

Module Invariant.
Import Utilities.

(** The two conditional stores of the inner loop. *)
Definition keepLower (num current : number) : number := if lt num current then num else current.
Definition keepUpper (num current : number) : number := if gt num current then num else current.

Section Loop.
Context (positions : list number) (start : Z).

(** What is known of a running minimum after [k] vertices. *)
Definition lowerAfter (k : Z) (j : nat) (a : number) : Prop :=
  (k = 0 /\ a = Infinity) \/ (0 < k /\ Spec.isMinimum positions start k j a).

Definition upperAfter (k : Z) (j : nat) (b : number) : Prop :=
  (k = 0 /\ b = NegInfinity) \/ (0 < k /\ Spec.isMaximum positions start k j b).

(** The invariant of the loop over the vertices. *)
Definition boundsAfter (k : Z) (mm : list number * list number) : Prop :=
  exists a0 a1 a2 b0 b1 b2,
    mm = ([a0; a1; a2], [b0; b1; b2])
    /\ lowerAfter k 0 a0 /\ lowerAfter k 1 a1 /\ lowerAfter k 2 a2
    /\ upperAfter k 0 b0 /\ upperAfter k 1 b1 /\ upperAfter k 2 b2.
End Loop.

End Invariant.

(** ** Concrete scenes and inputs *)

Module Examples.
Import JS Utilities.

(** The default options. *)
Definition options : GLTFExporter.IExportOptions :=
  {| GLTFExporter.shouldExportNode := None;
     GLTFExporter.exportUnusedUVs := None;
     GLTFExporter.removeNoopRootNodes := None;
     GLTFExporter.includeCoordinateSystemConversionNodes := None |}.

(** The examples have no material and keep their vertex data in typed
    arrays, so neither collaborator below is ever called. *)
Definition noMaterialExporter (material : Babylon.Material) (hasUVs : bool)
  : GLTFExporter.M Z := mret (-1).
Definition noFloat32Bytes (value : number) : list Z := [].

(** A triangle: three 16-bit indices, three positions held in a
    [Float32Array] ((0,0,0), (1,0,0), (0,1,0)). *)
Definition triangleIndices : Babylon.IndicesArray :=
  {| Babylon.indices_id := 10; Babylon.indices_data := Babylon.Uint16Array [0; 1; 2] |}.

Definition positionBytes : list Z :=
  [0; 0; 0; 0;  0; 0; 0; 0;  0; 0; 0; 0;
   0; 0; 128; 63;  0; 0; 0; 0;  0; 0; 0; 0;
   0; 0; 0; 0;  0; 0; 128; 63;  0; 0; 0; 0].

Definition positionBuffer : Babylon.Buffer :=
  {| Babylon.buffer_id := 11; Babylon.getData := Some (Babylon.Bytes positionBytes) |}.

Definition positionData : list number :=
  [Finite 0; Finite 0; Finite 0;
   Finite 1; Finite 0; Finite 0;
   Finite 0; Finite 1; Finite 0].

Definition positions : Babylon.VertexBuffer :=
  {| Babylon.vertexBuffer_id := 12;
     Babylon.getKind := "position";
     Babylon._buffer := positionBuffer;
     Babylon.byteOffset := 0;
     Babylon.byteStride := 12;
     Babylon.type := 5126;
     Babylon.getFloatData := Some positionData |}.

(** A submesh that covers the whole triangle. *)
Definition wholeTriangle : Babylon.SubMesh :=
  {| Babylon.indexStart := 0; Babylon.indexCount := 3;
     Babylon.verticesStart := 0; Babylon.verticesCount := 3;
     Babylon.materialIndex := 0; Babylon.getMaterial := None |}.

Definition triangle (subMeshes : list Babylon.SubMesh) : Babylon.Mesh :=
  {| Babylon.mesh_id := 1;
     Babylon.isUnIndexed := false;
     Babylon.getIndices := Some triangleIndices;
     Babylon.geometry :=
       Some {| Babylon.getVertexBuffers := Some [("position"%string, positions)] |};
     Babylon.subMeshes := Some subMeshes;
     Babylon.overrideRenderingFillMode := None |}.

Definition exportMesh (mesh : Babylon.Mesh) : GLTFExporter.M Z :=
  GLTFExporter._exportMeshAsync BabylonVertexBuffer BabylonMaterial noFloat32Bytes
    noMaterialExporter noMaterialExporter options mesh.

Definition exportNode (node : Babylon.Node) : GLTFExporter.M Z :=
  GLTFExporter._exportNodeAsync BabylonVertexBuffer BabylonMaterial noFloat32Bytes
    noMaterialExporter noMaterialExporter options node.

Definition exportScene (scene : Babylon.Scene) (options : GLTFExporter.IExportOptions)
  : GLTFExporter.M unit :=
  GLTFExporter._exportSceneAsync BabylonVertexBuffer BabylonMaterial noFloat32Bytes
    noMaterialExporter noMaterialExporter scene options.

(** A mesh and an instance of it. *)
Definition meshNode : Babylon.Node :=
  {| Babylon.uniqueId := 1; Babylon.name := "triangle"; Babylon.parent := None;
     Babylon.class := Babylon.IsMesh (triangle [wholeTriangle]);
     Babylon.getWorldMatrix := Babylon.Identity |}.

Definition instanceNode : Babylon.Node :=
  {| Babylon.uniqueId := 2; Babylon.name := "instance"; Babylon.parent := None;
     Babylon.class := Babylon.IsInstancedMesh (triangle [wholeTriangle]);
     Babylon.getWorldMatrix := Babylon.Identity |}.

Definition instancedScene : Babylon.Scene :=
  {| Babylon.transformNodes := [];
     Babylon.meshes := [meshNode; instanceNode];
     Babylon.lights := [];
     Babylon.cameras := [];
     Babylon.rootNodes := [meshNode; instanceNode];
     Babylon.useRightHandedSystem := false |}.

(** Two root transform nodes of a right-handed scene, the first one a no-op
    and the second one translated by (1, 0, 0), and a predicate that keeps
    the first one out of the export. *)
Definition noopRoot : Babylon.Node :=
  {| Babylon.uniqueId := 20; Babylon.name := "root"; Babylon.parent := None;
     Babylon.class := Babylon.TransformNode;
     Babylon.getWorldMatrix := Babylon.Identity |}.

Definition movedNode : Babylon.Node :=
  {| Babylon.uniqueId := 21; Babylon.name := "moved"; Babylon.parent := None;
     Babylon.class := Babylon.TransformNode;
     Babylon.getWorldMatrix :=
       [1; 0; 0; 0;  0; 1; 0; 0;  0; 0; 1; 0;  1; 0; 0; 1]%Q |}.

Definition twoRootsScene : Babylon.Scene :=
  {| Babylon.transformNodes := [noopRoot; movedNode];
     Babylon.meshes := [];
     Babylon.lights := [];
     Babylon.cameras := [];
     Babylon.rootNodes := [noopRoot; movedNode];
     Babylon.useRightHandedSystem := true |}.

Definition withoutNoopRoot : GLTFExporter.IExportOptions :=
  {| GLTFExporter.shouldExportNode :=
       Some (fun node => negb (Pos.eqb (Babylon.uniqueId node) 20));
     GLTFExporter.exportUnusedUVs := None;
     GLTFExporter.removeNoopRootNodes := None;
     GLTFExporter.includeCoordinateSystemConversionNodes := None |}.

(** A container: the text [{}], the six bytes of the indices 0, 1, 2, and
    one image of three bytes. *)
Definition smallContainer : list Z :=
  GLTFExporter.generateGLBAsync None [123; 125] [0; 0; 1; 0; 2; 0] [[137; 80; 78]].

(** Two extensions, of which only the second acts on a node. *)
Definition twoExtensions : gmap string nat := {[ "first" := 1%nat; "second" := 2%nat ]}.

Definition secondActs (extension : nat) (node : option Z)
  : Completion (option (Promise (option Z))) :=
  if (extension =? 2)%nat then Normal (Some (Fulfilled ((fun n => n + 1) <$> node)))
  else Normal None.

End Examples.

(* ===================================================================== *)
(** * Part I, continued: the rest of the exporter                         *)
(* ===================================================================== *)

(** ** The layout of a binary container

    The bytes of the file written segment by segment, as a reader of the
    format sees them. *)

Module Layout.
Import JS Utilities.
(** The byte stored for the code unit at index [i] when the platform has no
    encoder: the blank character for the first unit of a surrogate pair, the
    low eight bits of the unit otherwise. *)
Definition fallbackByte (jsonText : list Z) (i : nat) : Z :=
  if bool_decide (charCodeAt jsonText i = codePointAt jsonText i)
  then default 0 (charCodeAt jsonText i) mod 256
  else 95.

(** The bytes of the JSON text in the container. *)
Definition jsonPayload (TextEncoder : option (list Z -> list Z)) (jsonText : list Z) : list Z :=
  match TextEncoder with
  | Some encode => List.map (fun b => b mod 256) (encode jsonText)
  | None => List.map (fallbackByte jsonText) (seq 0 (length jsonText))
  end.

Definition container (TextEncoder : option (list Z -> list Z)) (jsonText : list Z)
    (binaryBuffer : list Z) (images : list (list Z)) : list Z :=
  let jsonLength := Z.of_nat (length (jsonPayload TextEncoder jsonText)) in
  let binaryByteLength := Z.of_nat (length binaryBuffer) in
  let imageByteLength := Z.of_nat (length (concat images)) in
  let jsonPadding := GLTFExporter._getPadding jsonLength in
  let binPadding := GLTFExporter._getPadding binaryByteLength in
  let imagePadding := GLTFExporter._getPadding imageByteLength in
  GLTFExporter.bytes32 0x46546C67
  ++ GLTFExporter.bytes32 2
  ++ GLTFExporter.bytes32 (12 + 2 * 8 + jsonLength + jsonPadding + binaryByteLength
                           + binPadding + imageByteLength + imagePadding)
  ++ GLTFExporter.bytes32 (jsonLength + jsonPadding)
  ++ GLTFExporter.bytes32 0x4E4F534A
  ++ jsonPayload TextEncoder jsonText
  ++ replicate (Z.to_nat jsonPadding) 0x20
  ++ GLTFExporter.bytes32 (binaryByteLength + imageByteLength + imagePadding)
  ++ GLTFExporter.bytes32 0x004E4942
  ++ binaryBuffer
  ++ concat images
  ++ replicate (Z.to_nat binPadding) 0
  ++ replicate (Z.to_nat imagePadding) 0.
End Layout.

(** ** The registry of the extensions

    [GLTFExporter._ExtensionNames] and [GLTFExporter._ExtensionFactories],
    [RegisterExtension], [UnregisterExtension] and [_loadExtensions]. *)

Module Registry.
Import JS Utilities.

(** [names.indexOf(name)] on an array of strings. *)
Fixpoint indexOfFrom (names : list string) (name : string) (i : Z) : Z :=
  match names with
  | [] => -1
  | n :: rest => if String.eqb n name then i else indexOfFrom rest name (i + 1)
  end.
Definition indexOf (names : list string) (name : string) : Z := indexOfFrom names name 0.

Section Registry.
(** A factory makes the extension object of an exporter; like any call it
    may throw. *)
Context {Exporter Extension : Type}.
Definition Factory : Type := Exporter -> Completion Extension.

(** [_ExtensionFactories] is a plain object used as a dictionary, so
    [_ExtensionFactories[name]] also finds what the object inherits:
    [inherited name] is the value that the prototype chain holds under
    [name], if any ([toString], [constructor], ...). *)
Context (inherited : string -> option Factory).

(** The two static fields: the names in registration order, and the own
    properties of [_ExtensionFactories]. *)
Record t : Type := mk {
  _ExtensionNames : list string;
  _ExtensionFactories : gmap string Factory
}.

Definition empty : t := {| _ExtensionNames := []; _ExtensionFactories := ∅ |}.

(** [GLTFExporter._ExtensionFactories[name]]. *)
Definition factoryOf (r : t) (name : string) : option Factory :=
  match _ExtensionFactories r !! name with
  | Some factory => Some factory
  | None => inherited name
  end.

(** [UnregisterExtension(name)]: the result and the registry afterwards.
    [delete] removes an own property only. *)
Definition UnregisterExtension (name : string) (r : t) : bool * t :=
  match factoryOf r name with
  | None => (false, r)
  | Some _ =>
      let factories := delete name (_ExtensionFactories r) in
      let index := indexOf (_ExtensionNames r) name in
      let names :=
        if negb (index =? -1) then GLTFExporter.splice (_ExtensionNames r) index 1
        else _ExtensionNames r in
      (true, {| _ExtensionNames := names; _ExtensionFactories := factories |})
  end.

(** [RegisterExtension(name, factory)]: the registry afterwards and whether
    the warning was issued.  The assignment makes [name] an own property;
    this holds for every name but [__proto__], whose assignment sets the
    prototype of the object instead. *)
Definition RegisterExtension (name : string) (factory : Factory) (r : t) : bool * t :=
  let '(warned, r) := UnregisterExtension name r in
  (warned,
   {| _ExtensionNames := _ExtensionNames r ++ [name];
      _ExtensionFactories := <[name := factory]> (_ExtensionFactories r) |}).

(** [_loadExtensions()], run by the constructor: the own properties of
    [this._extensions] afterwards.  Calling what is not there throws a
    TypeError. *)
Fixpoint loadFrom (r : t) (this : Exporter) (names : list string)
    (_extensions : gmap string Extension) : Completion (gmap string Extension) :=
  match names with
  | [] => Normal _extensions
  | name :: rest =>
      match factoryOf r name with
      | None => Throw "TypeError: GLTFExporter._ExtensionFactories[name] is not a function"
      | Some factory =>
          match factory this with
          | Throw message => Throw message
          | Normal extension => loadFrom r this rest (<[name := extension]> _extensions)
          end
      end
  end.
Definition _loadExtensions (r : t) (this : Exporter) : Completion (gmap string Extension) :=
  loadFrom r this (_ExtensionNames r) ∅.

(** The registry is consistent: no name is listed twice, and the listed
    names are those with a factory of their own. *)
Definition consistent (r : t) : Prop :=
  NoDup (_ExtensionNames r)
  /\ forall name, name ∈ _ExtensionNames r <-> is_Some (_ExtensionFactories r !! name).

End Registry.
End Registry.

(** ** The document and its assembly

    [_extensionsOnExporting] and [_generateJSON]: the lists of the exporter
    are attached to the document [_glTF], and in a binary export the images
    are relocated into the binary buffer. *)

Module Assembler.
Import JS Utilities.

(** An entry of [_imageData]. *)
Record ImageData : Type := {
  data : list Z;
  mimeType : string
}.

Module IImage.
Record t : Type := mk {
  uri : option string;
  bufferView : option Z;
  name : option string;
  mimeType : option string
}.
End IImage.

Module IBuffer.
Record t : Type := mk {
  byteLength : Z;
  uri : option string
}.
End IBuffer.

(** The character [.] (code 46). *)
Definition dot : Ascii.ascii := Ascii.ascii_of_nat 46.

(** [s.split(dot)[0]]: the part of the string before its first dot. *)
Fixpoint beforeFirstDot (s : string) : string :=
  match s with
  | EmptyString => EmptyString
  | String c rest => if Ascii.eqb c dot then EmptyString else String c (beforeFirstDot rest)
  end.

(** The elements of the lists that this part of the exporter only passes
    on. *)
Class ElementTypes : Type := {
  ICamera : Type;
  IAnimation : Type;
  IMaterial : Type;
  ITexture : Type;
  ISampler : Type;
  ISkin : Type
}.

Section Documents.
Context {elements : ElementTypes}.

(** The document as [JSON.stringify] sees it: a field that is not set is
    [None]. *)
Record IGLTF : Type := {
  extensionsUsed : option (list string);
  extensionsRequired : option (list string);
  buffers : option (list IBuffer.t);
  nodes : option (list GLTFExporter.INode.t);
  meshes : option (list GLTFExporter.IMesh.t);
  scenes : option (list GLTFExporter.IScene.t);
  scene : option Z;
  cameras : option (list ICamera);
  bufferViews : option (list IBufferView.t);
  accessors : option (list IAccessor.t);
  animations : option (list IAnimation);
  materials : option (list IMaterial);
  textures : option (list ITexture);
  samplers : option (list ISampler);
  skins : option (list ISkin);
  images : option (list IImage.t)
}.

(** The fields of the exporter that [_generateJSON] reads and writes. *)
Record t : Type := {
  _animations : list IAnimation;
  _accessors : list IAccessor.t;
  _bufferViews : list IBufferView.t;
  _cameras : list ICamera;
  _images : list IImage.t;
  _materials : list IMaterial;
  _meshes : list GLTFExporter.IMesh.t;
  _nodes : list GLTFExporter.INode.t;
  _samplers : list ISampler;
  _scenes : list GLTFExporter.IScene.t;
  _skins : list ISkin;
  _textures : list ITexture;
  _imageData : gmap string ImageData;
  _orderedImageData : list ImageData
}.

(** [if (list && list.length) document.field = list]: the field is set when
    the list is not empty, and keeps its former value otherwise. *)
Definition attach {A : Type} (items : list A) (field : option (list A)) : option (list A) :=
  match items with
  | [] => field
  | _ :: _ => Some items
  end.

(** The loop-carried variables of [this._images.forEach] in the GLB case:
    [byteOffset], [_orderedImageData], [_bufferViews], the images of
    [_images] as the loop has left them, and [_glTF.images]. *)
Record Relocation : Type := {
  byteOffset : Z;
  ordered : list ImageData;
  views : list IBufferView.t;
  visited : list IImage.t;
  relocated : list IImage.t
}.

(** The body of the loop.  An image whose [uri] has no entry in
    [_imageData] makes [imageData.data] throw a TypeError. *)
Definition relocateImage (imageData : gmap string ImageData) (r : Relocation)
    (image : IImage.t) : Completion Relocation :=
  match IImage.uri image with
  | None => Normal {| byteOffset := byteOffset r; ordered := ordered r; views := views r;
                      visited := visited r ++ [image]; relocated := relocated r |}
  | Some uri =>
      if String.eqb uri EmptyString then
        Normal {| byteOffset := byteOffset r; ordered := ordered r; views := views r;
                  visited := visited r ++ [image]; relocated := relocated r |}
      else
        match imageData !! uri with
        | None => Throw "TypeError: cannot read properties of undefined"
        | Some entry =>
            let imageName := (beforeFirstDot uri ++ " image")%string in
            let byteLength := Z.of_nat (length (data entry)) in
            let bufferView := createBufferView 0 (byteOffset r) byteLength None (Some imageName) in
            let views := views r ++ [bufferView] in
            let image :=
              IImage.mk None (Some (Z.of_nat (length views) - 1)) (Some imageName)
                (Some (mimeType entry)) in
            Normal {| byteOffset := byteOffset r + byteLength;
                      ordered := ordered r ++ [entry];
                      views := views;
                      visited := visited r ++ [image];
                      relocated := relocated r ++ [image] |}
        end
  end.

Fixpoint forEachImage (imageData : gmap string ImageData) (images : list IImage.t)
    (r : Relocation) : Completion Relocation :=
  match images with
  | [] => Normal r
  | image :: rest =>
      match relocateImage imageData r image with
      | Normal r' => forEachImage imageData rest r'
      | Throw message => Throw message
      end
  end.

(** [_generateJSON(shouldUseGlb, bufferByteLength, fileName, prettyPrint)].
    The result is the document that the method hands to [JSON.stringify]
    (the serialization itself is not modelled) and the fields of the
    exporter afterwards.  The document holds the lists of the exporter
    themselves, so a field that was set before the loop over the images
    shows the buffer views that the loop has added. *)
Definition _generateJSON (shouldUseGlb : bool) (bufferByteLength : Z)
    (fileName : option string) (e : t) (_glTF : IGLTF) : Completion (IGLTF * t) :=
  let attachBuffers := negb (bufferByteLength =? 0) in
  let attachBufferViews := match _bufferViews e with [] => false | _ => true end in
  let finish (r : Relocation) (images : option (list IImage.t)) :=
    let buffer :=
      {| IBuffer.byteLength := byteOffset r;
         IBuffer.uri := if shouldUseGlb then None
                        else Some (default "undefined"%string fileName ++ ".bin")%string |} in
    ({| extensionsUsed := extensionsUsed _glTF;
        extensionsRequired := extensionsRequired _glTF;
        buffers := if attachBuffers then Some [buffer] else buffers _glTF;
        nodes := attach (_nodes e) (nodes _glTF);
        meshes := attach (_meshes e) (meshes _glTF);
        scenes := attach (_scenes e) (scenes _glTF);
        scene := match _scenes e with [] => scene _glTF | _ => Some 0 end;
        cameras := attach (_cameras e) (cameras _glTF);
        bufferViews := if attachBufferViews then Some (views r) else bufferViews _glTF;
        accessors := attach (_accessors e) (accessors _glTF);
        animations := attach (_animations e) (animations _glTF);
        materials := attach (_materials e) (materials _glTF);
        textures := attach (_textures e) (textures _glTF);
        samplers := attach (_samplers e) (samplers _glTF);
        skins := attach (_skins e) (skins _glTF);
        images := images |},
     {| _animations := _animations e; _accessors := _accessors e;
        _bufferViews := views r; _cameras := _cameras e;
        _images := visited r; _materials := _materials e; _meshes := _meshes e;
        _nodes := _nodes e; _samplers := _samplers e; _scenes := _scenes e;
        _skins := _skins e; _textures := _textures e;
        _imageData := _imageData e; _orderedImageData := ordered r |}) in
  let start :=
    {| byteOffset := bufferByteLength; ordered := _orderedImageData e;
       views := _bufferViews e; visited := []; relocated := [] |} in
  match _images e with
  | [] =>
      Normal (finish {| byteOffset := bufferByteLength; ordered := _orderedImageData e;
                        views := _bufferViews e; visited := []; relocated := [] |}
                (images _glTF))
  | _ :: _ =>
      if negb shouldUseGlb then
        Normal (finish {| byteOffset := bufferByteLength; ordered := _orderedImageData e;
                          views := _bufferViews e; visited := _images e; relocated := [] |}
                  (Some (_images e)))
      else
        match forEachImage (_imageData e) (_images e) start with
        | Normal r => Normal (finish r (Some (relocated r)))
        | Throw message => Throw message
        end
  end.

(** *** [_extensionsOnExporting] *)

(** The properties of an extension object that [_extensionsOnExporting]
    reads; [onExporting] is optional and may change the document. *)
Record IGLTFExporterExtensionV2 : Type := {
  name : string;
  enabled : bool;
  required : bool;
  wasUsed : bool;
  onExporting : option (IGLTF -> IGLTF)
}.

Definition set_extensionsUsed (value : option (list string)) (doc : IGLTF) : IGLTF :=
  {| extensionsUsed := value;
     extensionsRequired := extensionsRequired doc;
     buffers := buffers doc; nodes := nodes doc;
     meshes := meshes doc; scenes := scenes doc;
     scene := scene doc; cameras := cameras doc;
     bufferViews := bufferViews doc;
     accessors := accessors doc;
     animations := animations doc;
     materials := materials doc;
     textures := textures doc; samplers := samplers doc;
     skins := skins doc; images := images doc |}.

Definition set_extensionsRequired (value : option (list string)) (doc : IGLTF) : IGLTF :=
  {| extensionsUsed := extensionsUsed doc;
     extensionsRequired := value;
     buffers := buffers doc; nodes := nodes doc;
     meshes := meshes doc; scenes := scenes doc;
     scene := scene doc; cameras := cameras doc;
     bufferViews := bufferViews doc;
     accessors := accessors doc;
     animations := animations doc;
     materials := materials doc;
     textures := textures doc; samplers := samplers doc;
     skins := skins doc; images := images doc |}.

(** [field ||= []; if (field.indexOf(name) === -1) field.push(name)]. *)
Definition pushOnce (name : string) (field : option (list string)) : option (list string) :=
  let array := default [] field in
  Some (if Registry.indexOf array name =? -1 then array ++ [name] else array).

(** The callback that [_extensionsOnExporting] gives to
    [_forEachExtensions], after the test of [extension.enabled]. *)
Definition exportingStep (doc : IGLTF) (extension : IGLTFExporterExtensionV2) : IGLTF :=
  if enabled extension then
    if wasUsed extension then
      let doc := set_extensionsUsed (pushOnce (name extension) (extensionsUsed doc)) doc in
      let doc :=
        if required extension
        then set_extensionsRequired
               (pushOnce (name extension) (extensionsRequired doc)) doc
        else doc in
      match onExporting extension with
      | Some hook => hook doc
      | None => doc
      end
    else doc
  else doc.

(** [_extensionsOnExporting()]: the document afterwards.  Reading
    [enabled] from [this._extensions[name]] throws a TypeError when the name
    has no object. *)
Fixpoint _extensionsOnExporting (_ExtensionNames : list string)
    (_extensions : gmap string IGLTFExporterExtensionV2) (doc : IGLTF) : Completion IGLTF :=
  match _ExtensionNames with
  | [] => Normal doc
  | extensionName :: rest =>
      match _extensions !! extensionName with
      | None => Throw "TypeError: cannot read properties of undefined"
      | Some extension => _extensionsOnExporting rest _extensions (exportingStep doc extension)
      end
  end.

(** A hook that leaves the two lists of extension names alone. *)
Definition keepsExtensionLists (extension : IGLTFExporterExtensionV2) : Prop :=
  forall hook doc,
    onExporting extension = Some hook ->
    extensionsUsed (hook doc) = extensionsUsed doc
    /\ extensionsRequired (hook doc) = extensionsRequired doc.

(** The two lists as sets of names, and what glTF asks of them: no name
    twice, and every required extension is a used one. *)
Definition used (doc : IGLTF) : list string := default [] (extensionsUsed doc).
Definition requiredNames (doc : IGLTF) : list string :=
  default [] (extensionsRequired doc).
Definition wellListed (doc : IGLTF) : Prop :=
  NoDup (used doc) /\ NoDup (requiredNames doc) /\ requiredNames doc ⊆ used doc.
End Documents.
End Assembler.

(** What the loop over the images adds. *)

Module RelocationFacts.
Import JS Utilities Assembler.
(** What a run of the loop over the images has added to its variables:
    [entries] to [_orderedImageData], as many buffer views and as many
    relocated images, the [k]-th view lying right after the bytes of the
    entries before it. *)
Definition extends (r0 r : Relocation) : Prop :=
  exists (entries : list ImageData) (newViews : list IBufferView.t) (newImages : list IImage.t),
    ordered r = ordered r0 ++ entries
    /\ views r = views r0 ++ newViews
    /\ relocated r = relocated r0 ++ newImages
    /\ byteOffset r = byteOffset r0 + Z.of_nat (length (concat (List.map data entries)))
    /\ length newViews = length entries
    /\ length newImages = length entries
    /\ forall (k : nat) (entry : ImageData),
         entries !! k = Some entry ->
         exists view image,
           newViews !! k = Some view
           /\ newImages !! k = Some image
           /\ IImage.bufferView image = Some (Z.of_nat (length (views r0) + k))
           /\ IImage.uri image = None
           /\ IImage.mimeType image = Some (mimeType entry)
           /\ IBufferView.buffer view = 0
           /\ IBufferView.byteLength view = Z.of_nat (length (data entry))
           /\ default 0 (IBufferView.byteOffset view)
              = byteOffset r0 + Z.of_nat (length (concat (List.map data (take k entries)))).
End RelocationFacts.

(** ** Readers of the produced bytes *)

Module Reader.
Import JS Utilities.

(** [DataView.prototype.getUint16(byteOffset, true)]. *)
Definition getUint16 (buffer : list Z) (byteOffset : nat) : option Z :=
  match buffer !! byteOffset, buffer !! S byteOffset with
  | Some b0, Some b1 => Some (b0 + 2 ^ 8 * b1)
  | _, _ => None
  end.

(** The [k]-th element of an index accessor, as a reader of the file gets
    it: an UNSIGNED_INT from four bytes, an UNSIGNED_SHORT from two. *)
Definition readIndex (bytes : list Z) (componentType : Z) (k : nat) : option Z :=
  if componentType =? 5125 then getUint32 bytes (4 * k)
  else getUint16 bytes (2 * k).

(** The numbers of an index array. *)
Definition values (indices : Babylon.IndicesData) : list Z :=
  match indices with
  | Babylon.NumberArray values | Babylon.Int32Array values
  | Babylon.Uint32Array values | Babylon.Uint16Array values => values
  end.

(** The numbers are indices: not negative, below [2 ^ 32], and within the
    element type of a typed array. *)
Definition areIndices (indices : Babylon.IndicesData) : Prop :=
  match indices with
  | Babylon.Uint16Array values => Forall (fun v => 0 <= v < 2 ^ 16) values
  | Babylon.Int32Array values => Forall (fun v => 0 <= v < 2 ^ 31) values
  | Babylon.NumberArray values | Babylon.Uint32Array values =>
      Forall (fun v => 0 <= v < 2 ^ 32) values
  end.

(** The bytes that a buffer view designates in the binary buffer. *)
Definition viewBytes (view : IBufferView.t) (buffer : list Z) : list Z :=
  take (Z.to_nat (IBufferView.byteLength view))
    (drop (Z.to_nat (default 0 (IBufferView.byteOffset view))) buffer).

End Reader.

(** ** What an export leaves alone *)

Module Frame.
Import JS Utilities GLTFExporter.

Definition otherState (field : StateField) : StateField :=
  match field with
  | OriginalState => ConvertToRightHandedState
  | ConvertToRightHandedState => OriginalState
  end.

(** What a material exporter is taken to leave alone: everything but the
    two material fields. *)
Definition keepsGeometry (e e' : t) : Prop :=
  _accessors e' = _accessors e
  /\ _bufferViews e' = _bufferViews e
  /\ _dataWriter e' = _dataWriter e
  /\ _meshes e' = _meshes e
  /\ _nodes e' = _nodes e
  /\ _scenes e' = _scenes e
  /\ _nodeMap e' = _nodeMap e
  /\ _nodesToConvertToRightHanded e' = _nodesToConvertToRightHanded e
  /\ _originalState e' = _originalState e
  /\ _convertToRightHandedState e' = _convertToRightHandedState e.

(** What the export of the geometry of a mesh under the state [field] does
    to the exporter: accessors, buffer views and bytes are appended, and
    the meshes, the nodes, the scenes, the node map, the set of the nodes to
    convert and the other state stay as they are. *)
Definition appends (field : StateField) (e e' : t) : Prop :=
  _accessors e `prefix_of` _accessors e'
  /\ _bufferViews e `prefix_of` _bufferViews e'
  /\ _dataWriter e `prefix_of` _dataWriter e'
  /\ _meshes e' = _meshes e
  /\ _nodes e' = _nodes e
  /\ _scenes e' = _scenes e
  /\ _nodeMap e' = _nodeMap e
  /\ _nodesToConvertToRightHanded e' = _nodesToConvertToRightHanded e
  /\ stateOf (otherState field) e' = stateOf (otherState field) e.

(** The number of primitives of the output mesh: one for each submesh of
    a mesh that has vertex buffers. *)
Definition primitiveCount (babylonMesh : Babylon.Mesh) : nat :=
  match Babylon.geometry babylonMesh ≫= Babylon.getVertexBuffers,
        Babylon.subMeshes babylonMesh with
  | Some _, Some subMeshes => length subMeshes
  | _, _ => 0%nat
  end.

(** Every run of the method that returns relates the exporter before and
    after by [R]. *)
Definition respects {A : Type} (R : t -> t -> Prop) (m : M A) : Prop :=
  forall e a e', m e = Normal (a, e') -> R e e'.

End Frame.

(** ** The hierarchy of the exported nodes *)

Module Hierarchy.
Import JS Utilities GLTFExporter.

(** Every index of the node map designates an exported node. *)
Definition nodeMapValid (e : t) : Prop :=
  forall id index, _nodeMap e !! id = Some index -> 0 <= index < Z.of_nat (length (_nodes e)).

(** The index of the exported parent of a node, if it has one. *)
Definition parentIndex (nodeMap : gmap positive Z) (babylonNode : Babylon.Node) : option Z :=
  Babylon.parent babylonNode ≫= (fun p => nodeMap !! p).

(** The index under which a node was exported ([-1] if it was not). *)
Definition indexOfNode (nodeMap : gmap positive Z) (babylonNode : Babylon.Node) : Z :=
  default (-1) (nodeMap !! Babylon.uniqueId babylonNode).

(** The indices of the nodes of the list that have no exported parent, and
    of those whose exported parent has the index [k]. *)
Definition rootsOf (nodeMap : gmap positive Z) (babylonNodes : list Babylon.Node) : list Z :=
  List.map (indexOfNode nodeMap)
    (List.filter (fun node => bool_decide (parentIndex nodeMap node = None)) babylonNodes).
Definition childrenOf (nodeMap : gmap positive Z) (babylonNodes : list Babylon.Node) (k : nat)
  : list Z :=
  List.map (indexOfNode nodeMap)
    (List.filter (fun node => bool_decide (parentIndex nodeMap node = Some (Z.of_nat k)))
       babylonNodes).

(** An output node with more children: [children] stays absent when there
    is none to add. *)
Definition withChildren (node : INode.t) (added : list Z) : INode.t :=
  match added with
  | [] => node
  | _ :: _ =>
      INode.mk (INode.name node) (INode.mesh node)
        (Some (default [] (INode.children node) ++ added))
  end.

(** What the export of a node or of a mesh keeps. *)
Definition keepsNodes (e e' : t) : Prop :=
  _nodes e' = _nodes e /\ _nodeMap e' = _nodeMap e /\ _scenes e' = _scenes e
  /\ _nodesToConvertToRightHanded e' = _nodesToConvertToRightHanded e.

End Hierarchy.

(** ** The nodes of a scene that are exported *)

Module Collect.
Import JS Utilities GLTFExporter.

(** The nodes of the scene that [shouldExportNode] lets through, in the
    order in which [_exportSceneAsync] lists them. *)
Definition candidates (scene : Babylon.Scene) (options : IExportOptions) : list Babylon.Node :=
  let shouldExportNode := default (fun _ => true) (shouldExportNode options) in
  List.filter shouldExportNode (Babylon.transformNodes scene)
  ++ List.filter shouldExportNode (Babylon.meshes scene)
  ++ List.filter shouldExportNode (Babylon.lights scene)
  ++ List.filter shouldExportNode (Babylon.cameras scene).

(** Whether the no-op root nodes are removed. *)
Definition prunes (options : IExportOptions) : bool :=
  default true (removeNoopRootNodes options)
  && negb (default false (includeCoordinateSystemConversionNodes options)).

Definition ids (babylonNodes : list Babylon.Node) : gset positive :=
  list_to_set (List.map Babylon.uniqueId babylonNodes).

End Collect.

(** ** Bounds of arbitrary position data *)

Module Enclosure.
Import JS Utilities.
(** The number that the loop reads for the component [j] of the vertex
    [i]: an element past the end of the array is [undefined], which the
    comparisons convert to [NaN]. *)
Definition coordinate (positions : list number) (i : Z) (j : nat) : number :=
  ToNumber (element positions (3 * i + Z.of_nat j)).

(** Neither comparison of the loop would replace the bounds [a] and [b]
    by [x]. *)
Definition within (x a b : number) : Prop := lt x a = false /\ gt x b = false.

(** The bounds after the vertices [start, start + k). *)
Definition enclose (positions : list number) (start k : Z) (mm : list number * list number)
  : Prop :=
  exists a0 a1 a2 b0 b1 b2,
    mm = ([a0; a1; a2], [b0; b1; b2])
    /\ forall i, start <= i < start + k ->
         within (coordinate positions i 0) a0 b0
         /\ within (coordinate positions i 1) a1 b1
         /\ within (coordinate positions i 2) a2 b2.
End Enclosure.

(** ** The number of components of an accessor type *)

Module AccessorElements.
Import JS Utilities.
(** [getAccessorElementCount(accessorType)]; the [switch] has no default
    case, so any other value gives [undefined]. *)
Definition getAccessorElementCount (accessorType : string) : option Z :=
  if String.eqb accessorType "MAT2" then Some 4
  else if String.eqb accessorType "MAT3" then Some 9
  else if String.eqb accessorType "MAT4" then Some 16
  else if String.eqb accessorType AccessorType.SCALAR then Some 1
  else if String.eqb accessorType AccessorType.VEC2 then Some 2
  else if String.eqb accessorType AccessorType.VEC3 then Some 3
  else if String.eqb accessorType AccessorType.VEC4 then Some 4
  else None.
End AccessorElements.

(** ** Conversion between the handednesses *)

Module Handedness.
Import JS Utilities.

(** [x * -1] on a number. *)
Definition timesMinusOne (x : number) : number :=
  match x with
  | NaN => NaN
  | NegInfinity => Infinity
  | Finite q => Finite (q * -1)
  | Infinity => NegInfinity
  end.

Record Vector3 : Type := { x : number; y : number; z : number }.

Module Quaternion.
Record t : Type := mk { x : number; y : number; z : number; w : number }.
End Quaternion.

(** [convertToRightHandedPosition(value)]: the vector is changed in place
    and returned; the result is the vector afterwards. *)
Definition convertToRightHandedPosition (value : Vector3) : Vector3 :=
  {| x := x value; y := y value; z := timesMinusOne (z value) |}.

(** [convertToRightHandedRotation(value)] *)
Definition convertToRightHandedRotation (value : Quaternion.t) : Quaternion.t :=
  {| Quaternion.x := timesMinusOne (Quaternion.x value);
     Quaternion.y := timesMinusOne (Quaternion.y value);
     Quaternion.z := Quaternion.z value;
     Quaternion.w := Quaternion.w value |}.

End Handedness.
(** ** Buffer utilities

    [getFloatValue] and [setFloatValue] of [bufferUtils.ts], the accessors
    of the components of a vertex buffer, over the bytes of the [DataView]. *)

From Stdlib Require Import Qround.

Module BufferUtils.
Import JS Utilities.

(** The component types are number constants of the engine's
    [VertexBuffer] class, which is not part of the file; the functions are
    stated over any values of these constants. *)
Record ComponentTypes : Type := {
  BYTE : Z;
  UNSIGNED_BYTE : Z;
  SHORT : Z;
  UNSIGNED_SHORT : Z;
  INT : Z;
  UNSIGNED_INT : Z;
  FLOAT : Z
}.

(** An integer as a number. *)
Definition ofZ (v : Z) : number := Finite (inject_Z v).

(** The conversion of the integer setters of a [DataView]: a number that
    is not finite becomes 0, any other is truncated toward zero and reduced
    modulo [2 ^ bits]. *)
Definition truncate (q : Q) : Z := if Qle_bool 0 q then Qfloor q else Qceiling q.
Definition ToUintN (bits : Z) (value : number) : Z :=
  match value with
  | Finite q => truncate q mod 2 ^ bits
  | _ => 0
  end.

(** The bytes of a [DataView] that an access of [size] bytes at
    [byteOffset] touches; an access outside of the view raises a
    RangeError. *)
Definition inView (dataView : list Z) (byteOffset : Z) (size : nat) : bool :=
  (0 <=? byteOffset) && (byteOffset + Z.of_nat size <=? Z.of_nat (length dataView)).

Fixpoint littleEndian (bytes : list Z) : Z :=
  match bytes with
  | [] => 0
  | b :: rest => b + 256 * littleEndian rest
  end.

Fixpoint bytesOf (size : nat) (v : Z) : list Z :=
  match size with
  | O => []
  | S size' => v mod 256 :: bytesOf size' (v / 256)
  end.

(** [getUint8], [getUint16(byteOffset, true)], [getUint32(byteOffset, true)] *)
Definition getUint (dataView : list Z) (byteOffset : Z) (size : nat) : Completion Z :=
  if inView dataView byteOffset size
  then Normal (littleEndian (take size (drop (Z.to_nat byteOffset) dataView)))
  else Throw "RangeError: Offset is outside the bounds of the DataView".

(** [getInt8], [getInt16(byteOffset, true)], [getInt32(byteOffset, true)] *)
Definition getInt (dataView : list Z) (byteOffset : Z) (size : nat) : Completion Z :=
  match getUint dataView byteOffset size with
  | Normal v =>
      Normal (if 2 ^ (8 * Z.of_nat size - 1) <=? v then v - 2 ^ (8 * Z.of_nat size) else v)
  | Throw message => Throw message
  end.

(** The integer setters, signed or not, store the same bytes. *)
Definition setInt (dataView : list Z) (byteOffset : Z) (size : nat) (value : number)
  : Completion (list Z) :=
  if inView dataView byteOffset size
  then Normal (take (Z.to_nat byteOffset) dataView
               ++ bytesOf size (ToUintN (8 * Z.of_nat size) value)
               ++ drop (Z.to_nat byteOffset + size) dataView)
  else Throw "RangeError: Offset is outside the bounds of the DataView".

(** [Math.max(a, b)] *)
Definition max (a b : number) : number :=
  match a, b with
  | NaN, _ | _, NaN => NaN
  | _, _ => if lt a b then b else a
  end.

Section BufferUtils.
Context (VertexBuffer : ComponentTypes).
(** The floating-point operations: the division and the product of two
    numbers, [Math.round], and the single-precision accessors of a
    [DataView]. *)
Context (divide multiply : number -> number -> number) (round : number -> number).
Context (getFloat32 : list Z -> number) (float32Bytes : number -> list Z).

Definition getFloatValue (dataView : list Z) (type : Z) (byteOffset : Z) (normalized : bool)
  : Completion number :=
  if type =? BYTE VertexBuffer then
    match getInt dataView byteOffset 1 with
    | Normal value =>
        Normal (if normalized then max (divide (ofZ value) (ofZ 127)) (ofZ (-1))
                else ofZ value)
    | Throw message => Throw message
    end
  else if type =? UNSIGNED_BYTE VertexBuffer then
    match getUint dataView byteOffset 1 with
    | Normal value =>
        Normal (if normalized then divide (ofZ value) (ofZ 255) else ofZ value)
    | Throw message => Throw message
    end
  else if type =? SHORT VertexBuffer then
    match getInt dataView byteOffset 2 with
    | Normal value =>
        Normal (if normalized then max (divide (ofZ value) (ofZ 32767)) (ofZ (-1))
                else ofZ value)
    | Throw message => Throw message
    end
  else if type =? UNSIGNED_SHORT VertexBuffer then
    match getUint dataView byteOffset 2 with
    | Normal value =>
        Normal (if normalized then divide (ofZ value) (ofZ 65535) else ofZ value)
    | Throw message => Throw message
    end
  else if type =? INT VertexBuffer then
    match getInt dataView byteOffset 4 with
    | Normal value => Normal (ofZ value)
    | Throw message => Throw message
    end
  else if type =? UNSIGNED_INT VertexBuffer then
    match getUint dataView byteOffset 4 with
    | Normal value => Normal (ofZ value)
    | Throw message => Throw message
    end
  else if type =? FLOAT VertexBuffer then
    if inView dataView byteOffset 4
    then Normal (getFloat32 (take 4 (drop (Z.to_nat byteOffset) dataView)))
    else Throw "RangeError: Offset is outside the bounds of the DataView"
  else Throw "Invalid component type".

(** [setFloatValue]: the bytes of the view afterwards. *)
Definition setFloatValue (dataView : list Z) (type : Z) (byteOffset : Z) (normalized : bool)
    (value : number) : Completion (list Z) :=
  if type =? BYTE VertexBuffer then
    setInt dataView byteOffset 1
      (if normalized then round (multiply value (ofZ 127)) else value)
  else if type =? UNSIGNED_BYTE VertexBuffer then
    setInt dataView byteOffset 1
      (if normalized then round (multiply value (ofZ 255)) else value)
  else if type =? SHORT VertexBuffer then
    setInt dataView byteOffset 2
      (if normalized then round (multiply value (ofZ 32767)) else value)
  else if type =? UNSIGNED_SHORT VertexBuffer then
    setInt dataView byteOffset 2
      (if normalized then round (multiply value (ofZ 65535)) else value)
  else if type =? INT VertexBuffer then setInt dataView byteOffset 4 value
  else if type =? UNSIGNED_INT VertexBuffer then setInt dataView byteOffset 4 value
  else if type =? FLOAT VertexBuffer then
    if inView dataView byteOffset 4
    then Normal (take (Z.to_nat byteOffset) dataView ++ take 4 (float32Bytes value)
                 ++ drop (Z.to_nat byteOffset + 4) dataView)
    else Throw "RangeError: Offset is outside the bounds of the DataView"
  else Throw "Invalid component type".

(** The integers that an integer component type holds, and the number of
    its bytes. *)
Definition integerRange (type : Z) : option (Z * Z * nat) :=
  if type =? BYTE VertexBuffer then Some (-128, 127, 1%nat)
  else if type =? UNSIGNED_BYTE VertexBuffer then Some (0, 255, 1%nat)
  else if type =? SHORT VertexBuffer then Some (-32768, 32767, 2%nat)
  else if type =? UNSIGNED_SHORT VertexBuffer then Some (0, 65535, 2%nat)
  else if type =? INT VertexBuffer then Some (-2147483648, 2147483647, 4%nat)
  else if type =? UNSIGNED_INT VertexBuffer then Some (0, 4294967295, 4%nat)
  else None.

End BufferUtils.
End BufferUtils.

(** ** More inputs for the examples *)

Module Scenarios.
Import JS Utilities.

(** A document without cameras, animations, materials, textures, samplers
    and skins. *)
Definition noElements : Assembler.ElementTypes :=
  {| Assembler.ICamera := Empty_set; Assembler.IAnimation := Empty_set;
     Assembler.IMaterial := Empty_set; Assembler.ITexture := Empty_set;
     Assembler.ISampler := Empty_set; Assembler.ISkin := Empty_set |}.

(** [_glTF] with no field set. *)
Definition emptyDocument : @Assembler.IGLTF noElements :=
  {| Assembler.extensionsUsed := None; Assembler.extensionsRequired := None;
     Assembler.buffers := None; Assembler.nodes := None; Assembler.meshes := None;
     Assembler.scenes := None; Assembler.scene := None; Assembler.cameras := None;
     Assembler.bufferViews := None; Assembler.accessors := None;
     Assembler.animations := None; Assembler.materials := None;
     Assembler.textures := None; Assembler.samplers := None; Assembler.skins := None;
     Assembler.images := None |}.

(** An exporter that holds one image of three bytes, and eight bytes of
    geometry. *)
Definition pngData : Assembler.ImageData :=
  {| Assembler.data := [137; 80; 78]; Assembler.mimeType := "image/png" |}.

Definition withImage : @Assembler.t noElements :=
  {| Assembler._animations := []; Assembler._accessors := []; Assembler._bufferViews := [];
     Assembler._cameras := [];
     Assembler._images := [Assembler.IImage.mk (Some "wood.png"%string) None None None];
     Assembler._materials := []; Assembler._meshes := []; Assembler._nodes := [];
     Assembler._samplers := []; Assembler._scenes := []; Assembler._skins := [];
     Assembler._textures := [];
     Assembler._imageData := {[ "wood.png"%string := pngData ]};
     Assembler._orderedImageData := [] |}.

Definition geometryBytes : list Z := [0; 0; 1; 0; 2; 0; 0; 0].

(** A registry over exporters without content and extensions that are
    numbers, on an object that inherits nothing. *)
Definition noInherited (name : string) : option (@Registry.Factory unit nat) := None.
Definition makes (n : nat) : @Registry.Factory unit nat := fun _ => Normal n.
Definition oneRegistered : Registry.t :=
  (Registry.RegisterExtension noInherited "first" (makes 1) Registry.empty).2.
Definition twoRegistered : Registry.t :=
  (Registry.RegisterExtension noInherited "second" (makes 2) oneRegistered).2.

(** An extension that was used and is required. *)
Definition basisu : @Assembler.IGLTFExporterExtensionV2 noElements :=
  {| Assembler.name := "KHR_texture_basisu"; Assembler.enabled := true;
     Assembler.required := true; Assembler.wasUsed := true;
     Assembler.onExporting := None |}.

(** Component types with pairwise different values, those of the component
    types of a glTF accessor. *)
Definition vertexBuffer : BufferUtils.ComponentTypes :=
  {| BufferUtils.BYTE := 5120; BufferUtils.UNSIGNED_BYTE := 5121;
     BufferUtils.SHORT := 5122; BufferUtils.UNSIGNED_SHORT := 5123;
     BufferUtils.INT := 5124; BufferUtils.UNSIGNED_INT := 5125;
     BufferUtils.FLOAT := 5126 |}.

End Scenarios.


(* ===================================================================== *)
(** * Part II: properties                                                 *)
(* ===================================================================== *)

Import JS Utilities Invariant.

(** ** Padding *)

Lemma getPadding_cases (num : Z) :
  0 <= num ->
  (num mod 4 = 0 /\ GLTFExporter._getPadding num = 0)
  \/ (num mod 4 <> 0 /\ GLTFExporter._getPadding num = 4 - num mod 4).
Proof.
  intros Hnum. unfold GLTFExporter._getPadding.
  rewrite Z.rem_mod_nonneg by lia.
  destruct (Z.eqb_spec (num mod 4) 0) as [Heq | Hne]; [left | right]; auto.
Qed.

Lemma getPadding_range (num : Z) : 0 <= num -> 0 <= GLTFExporter._getPadding num <= 3.
Proof.
  intros Hnum. pose proof (Z.mod_pos_bound num 4 ltac:(lia)) as Hmod.
  destruct (getPadding_cases num Hnum) as [[_ ->] | [Hne ->]]; lia.
Qed.

(** The padding computed by the exporter is the one of the padding rule. *)
Lemma getPadding_is_padding (L : Z) : 0 <= L -> GLTFExporter._getPadding L = Spec.padding L.
Proof.
  intros HL. unfold Spec.padding.
  pose proof (Z.mod_pos_bound L 4 ltac:(lia)) as Hmod.
  destruct (getPadding_cases L HL) as [[Hz ->] | [Hnz ->]].
  - now rewrite Hz.
  - symmetry. apply Z.mod_small. lia.
Qed.

(** C5.  For a length [L >= 0] the padding [P = _getPadding L] makes [L + P]
    a multiple of 4, lies between 0 and 3, and is [(4 - L mod 4) mod 4]. *)
Theorem getPadding_pads_to_multiple_of_4 (L : Z) :
  0 <= L ->
  (L + GLTFExporter._getPadding L) mod 4 = 0
  /\ 0 <= GLTFExporter._getPadding L <= 3
  /\ GLTFExporter._getPadding L = Spec.padding L.
Proof.
  intros HL.
  split; [| split; [apply getPadding_range, HL | apply getPadding_is_padding, HL]].
  pose proof (Z.mod_pos_bound L 4 ltac:(lia)) as Hmod.
  destruct (getPadding_cases L HL) as [[Hz ->] | [Hnz ->]].
  - now rewrite Z.add_0_r.
  - replace (L + (4 - L mod 4)) with (L - L mod 4 + 1 * 4) by lia.
    rewrite Z.mod_add by lia.
    rewrite Zminus_mod, Zmod_mod, Z.sub_diag. reflexivity.
Qed.

Lemma getPadding_pads_to_multiple_of_4_witness :
  (6 + GLTFExporter._getPadding 6) mod 4 = 0
  /\ 0 <= GLTFExporter._getPadding 6 <= 3
  /\ GLTFExporter._getPadding 6 = Spec.padding 6.
Proof. apply (getPadding_pads_to_multiple_of_4 6). lia. Defined.

(** ** Byte buffers *)

Lemma length_ArrayBuffer (n : Z) : 0 <= n -> Z.of_nat (length (ArrayBuffer n)) = n.
Proof. intros Hn. unfold ArrayBuffer. rewrite length_replicate. lia. Qed.

Lemma length_setUint8 buffer index value :
  length (setUint8 buffer index value) = length buffer.
Proof. unfold setUint8. destruct (index <? 0); [reflexivity | apply length_insert]. Qed.

Lemma length_setUint32 buffer byteOffset value :
  length (setUint32 buffer byteOffset value) = length buffer.
Proof. unfold setUint32. cbv zeta. now rewrite !length_setUint8. Qed.

Lemma length_fillView n : forall buffer byteOffset i value,
  length (fillView buffer byteOffset i n value) = length buffer.
Proof.
  induction n as [| n IH]; intros; simpl; [reflexivity |].
  now rewrite IH, length_setUint8.
Qed.

Lemma length_typedArraySet source : forall buffer byteOffset,
  length (typedArraySet buffer byteOffset source) = length buffer.
Proof.
  induction source as [| x rest IH]; intros; simpl; [reflexivity |].
  now rewrite IH, length_setUint8.
Qed.

Lemma length_copyCodeUnits jsonText offset n : forall jsonData i,
  length (GLTFExporter.copyCodeUnits jsonText jsonData offset i n) = length jsonData.
Proof.
  induction n as [| n IH]; intros; simpl; [reflexivity |].
  rewrite IH. case_bool_decide; apply length_setUint8.
Qed.

Lemma lookup_setUint8_eq buffer (i : nat) value :
  (i < length buffer)%nat ->
  setUint8 buffer (Z.of_nat i) value !! i = Some (value mod 256).
Proof.
  intros Hi. unfold setUint8.
  destruct (Z.ltb_spec (Z.of_nat i) 0); [lia |].
  rewrite Nat2Z.id. now apply list_lookup_insert_eq.
Qed.

Lemma lookup_setUint8_ne buffer index (j : nat) value :
  index <> Z.of_nat j ->
  setUint8 buffer index value !! j = buffer !! j.
Proof.
  intros Hne. unfold setUint8.
  destruct (Z.ltb_spec index 0); [reflexivity |].
  apply list_lookup_insert_ne. lia.
Qed.

Lemma lookup_setUint32_ne buffer byteOffset (j : nat) value :
  (Z.of_nat j < byteOffset \/ byteOffset + 4 <= Z.of_nat j) ->
  setUint32 buffer byteOffset value !! j = buffer !! j.
Proof.
  intros Hj. unfold setUint32. cbv zeta.
  rewrite !lookup_setUint8_ne by lia. reflexivity.
Qed.

(** Four bytes written by [setUint32] are read back by [getUint32] as the
    value modulo [2 ^ 32]. *)
Lemma getUint32_setUint32 buffer (byteOffset : nat) value :
  (byteOffset + 4 <= length buffer)%nat ->
  getUint32 (setUint32 buffer (Z.of_nat byteOffset) value) byteOffset
  = Some (value mod 2 ^ 32).
Proof.
  intros Hfit. unfold getUint32, setUint32. cbv zeta.
  set (v := value mod 2 ^ 32).
  assert (Hv : 0 <= v < 2 ^ 32) by (apply Z.mod_pos_bound; lia).
  replace (Z.of_nat byteOffset + 1) with (Z.of_nat (S byteOffset)) by lia.
  replace (Z.of_nat byteOffset + 2) with (Z.of_nat (S (S byteOffset))) by lia.
  replace (Z.of_nat byteOffset + 3) with (Z.of_nat (S (S (S byteOffset)))) by lia.
  rewrite !lookup_setUint8_ne by lia.
  rewrite lookup_setUint8_eq by lia.
  rewrite lookup_setUint8_ne by lia.
  rewrite !lookup_setUint8_ne by lia.
  rewrite lookup_setUint8_eq by (rewrite length_setUint8; lia).
  rewrite lookup_setUint8_ne by lia.
  rewrite lookup_setUint8_eq by (rewrite !length_setUint8; lia).
  rewrite lookup_setUint8_eq by (rewrite !length_setUint8; lia).
  f_equal.
  change (2 ^ 8) with 256 in *. change (2 ^ 16) with 65536 in *.
  change (2 ^ 24) with 16777216 in *. change (2 ^ 32) with 4294967296 in *.
  Z.div_mod_to_equations. lia.
Qed.

Lemma getUint32_setUint32_other buffer byteOffset (j : nat) value :
  (Z.of_nat j + 4 <= byteOffset \/ byteOffset + 4 <= Z.of_nat j) ->
  getUint32 (setUint32 buffer byteOffset value) j = getUint32 buffer j.
Proof.
  intros Hj. unfold getUint32.
  rewrite !lookup_setUint32_ne by lia. reflexivity.
Qed.

Lemma getUint32_app_l (a b : list Z) (j : nat) :
  (j + 4 <= length a)%nat -> getUint32 (a ++ b) j = getUint32 a j.
Proof.
  intros Hj. unfold getUint32. rewrite !lookup_app_l by lia. reflexivity.
Qed.

Lemma getUint32_app_r (a b : list Z) (j : nat) :
  (length a <= j)%nat -> getUint32 (a ++ b) j = getUint32 b (j - length a).
Proof.
  intros Hj. unfold getUint32. rewrite !lookup_app_r by lia.
  replace (S j - length a)%nat with (S (j - length a)) by lia.
  replace (S (S j) - length a)%nat with (S (S (j - length a))) by lia.
  replace (S (S (S j)) - length a)%nat with (S (S (S (j - length a)))) by lia.
  reflexivity.
Qed.

Lemma lookup_fillView_before n (j : nat) : forall buffer byteOffset i value,
  Z.of_nat j < byteOffset + i ->
  fillView buffer byteOffset i n value !! j = buffer !! j.
Proof.
  induction n as [| n IH]; intros buffer byteOffset i value Hj; simpl; [reflexivity |].
  rewrite IH by lia. apply lookup_setUint8_ne. lia.
Qed.

Lemma lookup_typedArraySet_before source (j : nat) : forall buffer byteOffset,
  Z.of_nat j < byteOffset ->
  typedArraySet buffer byteOffset source !! j = buffer !! j.
Proof.
  induction source as [| x rest IH]; intros buffer byteOffset Hj; simpl; [reflexivity |].
  rewrite IH by lia. apply lookup_setUint8_ne. lia.
Qed.

Lemma lookup_copyCodeUnits_before jsonText offset n (j : nat) : forall jsonData i,
  Z.of_nat j < offset + Z.of_nat i ->
  GLTFExporter.copyCodeUnits jsonText jsonData offset i n !! j = jsonData !! j.
Proof.
  induction n as [| n IH]; intros jsonData i Hj; simpl; [reflexivity |].
  rewrite IH by lia. case_bool_decide; apply lookup_setUint8_ne; lia.
Qed.

(** ** The binary container *)

Lemma imageByteLength_loop (l : list (list Z)) (total : Z) :
  fold_left (fun total data => total + Z.of_nat (length data)) l total
  = total + Z.of_nat (length (concat l)).
Proof.
  revert total. induction l as [| data rest IH]; intros total; simpl.
  - lia.
  - rewrite IH, length_app. lia.
Qed.

(** The parts handed to the [Blob], with the length and the fields of
    each buffer the exporter allocates. *)
Lemma glbData_parts TextEncoder jsonText binaryBuffer images :
  let jsonLength :=
    Z.of_nat (length (match TextEncoder with
                      | Some encode => encode jsonText
                      | None => jsonText
                      end)) in
  let binaryByteLength := Z.of_nat (length binaryBuffer) in
  let imageByteLength := Z.of_nat (length (concat images)) in
  let jsonPadding := GLTFExporter._getPadding jsonLength in
  let binPadding := GLTFExporter._getPadding binaryByteLength in
  let imagePadding := GLTFExporter._getPadding imageByteLength in
  exists header jsonChunk binaryChunk binPad imagePad,
    GLTFExporter.glbData TextEncoder jsonText binaryBuffer images
    = [header; jsonChunk; binaryChunk; binaryBuffer] ++ images ++ [binPad; imagePad]
    /\ length header = 12%nat
    /\ getUint32 header 0 = Some 0x46546C67
    /\ getUint32 header 4 = Some 2
    /\ getUint32 header 8
       = Some ((12 + 2 * 8 + jsonLength + jsonPadding + binaryByteLength + binPadding
                + imageByteLength + imagePadding) mod 2 ^ 32)
    /\ Z.of_nat (length jsonChunk) = 8 + jsonLength + jsonPadding
    /\ getUint32 jsonChunk 0 = Some ((jsonLength + jsonPadding) mod 2 ^ 32)
    /\ length binaryChunk = 8%nat
    /\ getUint32 binaryChunk 0
       = Some ((binaryByteLength + imageByteLength + imagePadding) mod 2 ^ 32)
    /\ Z.of_nat (length binPad) = binPadding
    /\ Z.of_nat (length imagePad) = imagePadding.
Proof.
  intros jsonLength binaryByteLength imageByteLength jsonPadding binPadding imagePadding.
  assert (HjsonLength : 0 <= jsonLength) by (subst jsonLength; lia).
  assert (Hbin : 0 <= binaryByteLength) by (subst binaryByteLength; lia).
  assert (Himage : 0 <= imageByteLength) by (subst imageByteLength; lia).
  pose proof (getPadding_range _ HjsonLength) as HjsonPadding.
  pose proof (getPadding_range _ Hbin) as HbinPadding.
  pose proof (getPadding_range _ Himage) as HimagePadding.
  fold jsonPadding in HjsonPadding. fold binPadding in HbinPadding.
  fold imagePadding in HimagePadding.
  unfold GLTFExporter.glbData. cbv zeta.
  rewrite imageByteLength_loop, Z.add_0_l.
  assert (HjsonEq :
    match (fun encode : list Z -> list Z => encode jsonText) <$> TextEncoder with
    | Some encoded => Z.of_nat (length encoded)
    | None => Z.of_nat (length jsonText)
    end = jsonLength).
  { subst jsonLength. destruct TextEncoder; reflexivity. }
  rewrite HjsonEq.
  fold binaryByteLength imageByteLength jsonPadding binPadding imagePadding.
  do 5 eexists. split; [reflexivity |].
  repeat apply conj.
  - now rewrite !length_setUint32.
  - rewrite !getUint32_setUint32_other by (simpl; lia).
    apply (getUint32_setUint32 _ 0). simpl. lia.
  - rewrite getUint32_setUint32_other by (simpl; lia).
    apply (getUint32_setUint32 _ 4). rewrite length_setUint32. simpl. lia.
  - apply (getUint32_setUint32 _ 8). rewrite !length_setUint32. simpl. lia.
  - rewrite length_fillView.
    destruct TextEncoder; simpl;
      rewrite ?length_typedArraySet, ?length_copyCodeUnits, !length_setUint32;
      apply length_ArrayBuffer; lia.
  - assert (Hlen : (4 <= length (ArrayBuffer (8 + jsonLength + jsonPadding)))%nat).
    { pose proof (length_ArrayBuffer (8 + jsonLength + jsonPadding) ltac:(lia)). lia. }
    unfold getUint32.
    rewrite !lookup_fillView_before by lia.
    destruct TextEncoder; simpl;
      rewrite ?lookup_typedArraySet_before, ?lookup_copyCodeUnits_before by lia;
      (rewrite !(lookup_setUint32_ne _ 4) by lia);
      apply (getUint32_setUint32 _ 0); lia.
  - now rewrite !length_setUint32.
  - rewrite getUint32_setUint32_other by (simpl; lia).
    apply (getUint32_setUint32 _ 0). simpl. lia.
  - rewrite length_fillView. apply length_ArrayBuffer. lia.
  - rewrite length_fillView. apply length_ArrayBuffer. lia.
Qed.

Lemma length_generateGLBAsync TextEncoder jsonText binaryBuffer images :
  let jsonLength :=
    Z.of_nat (length (match TextEncoder with
                      | Some encode => encode jsonText
                      | None => jsonText
                      end)) in
  let binaryByteLength := Z.of_nat (length binaryBuffer) in
  let imageByteLength := Z.of_nat (length (concat images)) in
  Z.of_nat (length (GLTFExporter.generateGLBAsync TextEncoder jsonText binaryBuffer images))
  = 12 + 8 + 8
    + (jsonLength + GLTFExporter._getPadding jsonLength)
    + (binaryByteLength + GLTFExporter._getPadding binaryByteLength)
    + (imageByteLength + GLTFExporter._getPadding imageByteLength).
Proof.
  cbv zeta. unfold GLTFExporter.generateGLBAsync, Blob.
  destruct (glbData_parts TextEncoder jsonText binaryBuffer images)
    as (header & jsonChunk & binaryChunk & binPad & imagePad & -> & Hh & _ & _ & _
        & Hj & _ & Hb & _ & Hbp & Hip).
  rewrite concat_app, length_app. simpl. rewrite concat_app, !length_app. simpl.
  rewrite !length_app. simpl. lia.
Qed.

(** C4.  In every container, bytes 0-3 read little-endian are [0x46546C67]
    and bytes 4-7 are [2]; the byte length of the whole file is the sum of
    the lengths of the segments written (the header, the two chunk prefixes,
    the JSON text and its padding, the geometry bytes and their padding, the
    image bytes and their padding); bytes 8-11 hold that length as a 32-bit
    number, so they read as the length of the file whenever it fits the
    field. *)
Theorem glb_header_fields TextEncoder jsonText binaryBuffer images :
  getUint32 (GLTFExporter.generateGLBAsync TextEncoder jsonText binaryBuffer images) 0
  = Some 0x46546C67
  /\ getUint32 (GLTFExporter.generateGLBAsync TextEncoder jsonText binaryBuffer images) 4
     = Some 2
  /\ Z.of_nat (length (GLTFExporter.generateGLBAsync TextEncoder jsonText binaryBuffer images))
     = Spec.segmentsLength TextEncoder jsonText binaryBuffer images
  /\ getUint32 (GLTFExporter.generateGLBAsync TextEncoder jsonText binaryBuffer images) 8
     = Some (Z.of_nat
               (length (GLTFExporter.generateGLBAsync TextEncoder jsonText binaryBuffer images))
             mod 2 ^ 32)
  /\ (Z.of_nat (length (GLTFExporter.generateGLBAsync TextEncoder jsonText binaryBuffer images))
      < 2 ^ 32 ->
      getUint32 (GLTFExporter.generateGLBAsync TextEncoder jsonText binaryBuffer images) 8
      = Some (Z.of_nat
                (length (GLTFExporter.generateGLBAsync TextEncoder jsonText binaryBuffer
                           images)))).
Proof.
  pose proof (length_generateGLBAsync TextEncoder jsonText binaryBuffer images) as Hlen.
  cbv zeta in Hlen.
  assert (Hsegments :
    Z.of_nat (length (GLTFExporter.generateGLBAsync TextEncoder jsonText binaryBuffer images))
    = Spec.segmentsLength TextEncoder jsonText binaryBuffer images).
  { rewrite Hlen. unfold Spec.segmentsLength, Spec.jsonByteLength. cbv zeta.
    rewrite <- !getPadding_is_padding by lia.
    reflexivity. }
  assert (Hfield :
    getUint32 (GLTFExporter.generateGLBAsync TextEncoder jsonText binaryBuffer images) 8
    = Some (Z.of_nat
              (length (GLTFExporter.generateGLBAsync TextEncoder jsonText binaryBuffer images))
            mod 2 ^ 32)).
  { clear Hsegments. revert Hlen. unfold GLTFExporter.generateGLBAsync, Blob.
    destruct (glbData_parts TextEncoder jsonText binaryBuffer images)
      as (header & jsonChunk & binaryChunk & binPad & imagePad & -> & Hh & _ & _ & Htotal & _).
    cbn [app concat]. intros Hlen.
    rewrite getUint32_app_l by lia.
    rewrite Htotal, Hlen. do 2 f_equal. lia. }
  split; [| split; [| split; [exact Hsegments | split; [exact Hfield |]]]].
  3:{ intros Hfits. rewrite Hfield. f_equal. apply Z.mod_small. lia. }
  all: clear Hsegments Hfield Hlen; unfold GLTFExporter.generateGLBAsync, Blob.
  all: destruct (glbData_parts TextEncoder jsonText binaryBuffer images)
    as (header & jsonChunk & binaryChunk & binPad & imagePad & -> & Hh & Hmagic
        & Hversion & _).
  all: cbn [app concat].
  all: rewrite !getUint32_app_l by lia.
  - exact Hmagic.
  - exact Hversion.
Qed.

Lemma glb_header_fields_witness :
  Z.of_nat (length Examples.smallContainer) < 2 ^ 32
  /\ getUint32 Examples.smallContainer 0 = Some 0x46546C67
  /\ getUint32 Examples.smallContainer 4 = Some 2
  /\ getUint32 Examples.smallContainer 8 = Some (Z.of_nat (length Examples.smallContainer))
  /\ Z.of_nat (length Examples.smallContainer)
     = Spec.segmentsLength None [123; 125] [0; 0; 1; 0; 2; 0] [[137; 80; 78]].
Proof.
  assert (Hfits : Z.of_nat (length Examples.smallContainer) < 2 ^ 32) by reflexivity.
  pose proof (glb_header_fields None [123; 125] [0; 0; 1; 0; 2; 0] [[137; 80; 78]])
    as (Hmagic & Hversion & Hsegments & _ & Hlength).
  split; [exact Hfits |].
  split; [exact Hmagic |]. split; [exact Hversion |].
  split; [exact (Hlength Hfits) | exact Hsegments].
Defined.

(** The binary chunk of every container that fits the 32-bit length fields:
    the declared length leaves out the padding of the geometry bytes, which
    the file nevertheless holds. *)
Lemma glb_binary_chunk_declared_and_actual TextEncoder jsonText binaryBuffer images :
  let file := GLTFExporter.generateGLBAsync TextEncoder jsonText binaryBuffer images in
  let binaryByteLength := Z.of_nat (length binaryBuffer) in
  let imageByteLength := Z.of_nat (length (concat images)) in
  let declared :=
    binaryByteLength + imageByteLength + GLTFExporter._getPadding imageByteLength in
  Z.of_nat (length file) < 2 ^ 32 ->
  Spec.binaryChunk file
  = Some (declared, declared + GLTFExporter._getPadding binaryByteLength).
Proof.
  cbv zeta. intros Hfits.
  pose proof (length_generateGLBAsync TextEncoder jsonText binaryBuffer images) as Hlen.
  cbv zeta in Hlen. unfold Spec.binaryChunk.
  revert Hfits Hlen; unfold GLTFExporter.generateGLBAsync, Blob.
  destruct (glbData_parts TextEncoder jsonText binaryBuffer images)
    as (header & jsonChunk & binaryChunk & binPad & imagePad & -> & Hh & _ & _ & _
        & Hj & HjsonField & Hb & HbinField & Hbp & Hip).
  cbn [app concat]. intros Hfits Hlen.
  set (rest := binaryChunk ++ binaryBuffer ++ concat (images ++ [binPad; imagePad])) in *.
  assert (Hpads : 0 <= GLTFExporter._getPadding (Z.of_nat (length binaryBuffer))
                  /\ 0 <= GLTFExporter._getPadding (Z.of_nat (length (concat images)))
                  /\ 0 <= GLTFExporter._getPadding
                            (Z.of_nat (length (match TextEncoder with
                                               | Some encode => encode jsonText
                                               | None => jsonText
                                               end)))).
  { repeat split; apply getPadding_range; lia. }
  rewrite (getUint32_app_r header) by lia.
  rewrite Hh. change (12 - 12)%nat with 0%nat.
  rewrite getUint32_app_l by lia.
  rewrite HjsonField. cbn [mbind option_bind].
  rewrite Z.mod_small by lia.
  rewrite (getUint32_app_r header) by lia.
  rewrite (getUint32_app_r jsonChunk) by lia.
  replace (Z.to_nat (12 + 8 + _) - length header - length jsonChunk)%nat with 0%nat by lia.
  subst rest. rewrite getUint32_app_l by lia.
  rewrite HbinField. cbn [mbind option_bind].
  rewrite Z.mod_small by lia.
  f_equal. f_equal. lia.
Qed.

(** C3.  The length prefix of the binary chunk counts the geometry bytes,
    the image bytes and the padding of the image bytes, while the bytes that
    follow the prefix also hold the padding of the geometry bytes.  At a
    geometry buffer of six bytes (three 16-bit indices) and no image, the
    chunk declares 6 bytes of content and 8 bytes follow its prefix. *)
Theorem glb_binary_chunk_length_omits_padding :
  (forall TextEncoder jsonText binaryBuffer images,
      Z.of_nat (length (GLTFExporter.generateGLBAsync TextEncoder jsonText binaryBuffer images))
      < 2 ^ 32 ->
      Spec.binaryChunk (GLTFExporter.generateGLBAsync TextEncoder jsonText binaryBuffer images)
      = Some (Z.of_nat (length binaryBuffer) + Z.of_nat (length (concat images))
              + GLTFExporter._getPadding (Z.of_nat (length (concat images))),
              Z.of_nat (length binaryBuffer) + Z.of_nat (length (concat images))
              + GLTFExporter._getPadding (Z.of_nat (length (concat images)))
              + GLTFExporter._getPadding (Z.of_nat (length binaryBuffer))))
  /\ GLTFExporter._getPadding 6 = 2
  /\ Spec.binaryChunk (GLTFExporter.generateGLBAsync None [123; 125] [0; 0; 1; 0; 2; 0] [])
     = Some (6, 8).
Proof.
  split; [| split; reflexivity].
  intros TextEncoder jsonText binaryBuffer images Hfits.
  exact (glb_binary_chunk_declared_and_actual TextEncoder jsonText binaryBuffer images Hfits).
Qed.

(** ** The extension hooks *)

Section HookChain.
Context {Extension T : Type}.
Context (actionAsync : Extension -> option T -> Completion (option (Promise (option T)))).

Lemma hookFold_failed (extensions : list Extension) (message : string) :
  fold_left (Spec.hookStep actionAsync) extensions (Spec.Failed message)
  = Spec.Failed message.
Proof. induction extensions as [| x rest IH]; simpl; auto. Qed.

(** From any index on, the chain is the fold over the extensions that are
    left. *)
Lemma applyExtension_from_index (extensions : list Extension) (index : nat) (node : option T) :
  Spec.await (GLTFExporter._applyExtension actionAsync node extensions index)
  = Spec.hookFold actionAsync (drop index extensions) node.
Proof.
  funelim (GLTFExporter._applyExtension actionAsync node extensions index).
  (* index >= extensions.length *)
  { rewrite drop_ge by (apply lookup_ge_None; assumption). reflexivity. }
  (* index < extensions.length: by what the action returns *)
  all: rewrite (drop_S _ _ _ inRange); unfold Spec.hookFold; simpl; rewrite Heq.
  - (* a promise *)
    destruct currentPromise as [newNode | reason]; simpl.
    + specialize (H newNode). unfold Spec.hookFold in H. rewrite <- H.
      destruct (GLTFExporter._applyExtension actionAsync newNode extensions (S index))
        as [[? | ?] | ?]; reflexivity.
    + apply eq_sym, hookFold_failed.
  - (* undefined *)
    apply H.
  - (* an error *)
    apply eq_sym, hookFold_failed.
Qed.

Lemma applyExtension_is_fold (extensions : list Extension) (node : option T) :
  Spec.await (GLTFExporter._applyExtension actionAsync node extensions 0)
  = Spec.hookFold actionAsync extensions node.
Proof. apply applyExtension_from_index. Qed.

End HookChain.

Section HookPipeline.
Context {Extension T : Type}.
Context (actionAsync : Extension -> option T -> Completion (option (Promise (option T)))).

Lemma hookFold_callAction (instances : list Extension) (carried : Spec.Carried T) :
  fold_left (Spec.hookStep (GLTFExporter.callAction actionAsync)) (List.map Some instances) carried
  = fold_left (Spec.hookStep actionAsync) instances carried.
Proof.
  revert carried. induction instances as [| x rest IH]; intros carried; simpl; [reflexivity |].
  rewrite IH. reflexivity.
Qed.

(** C10.  For every artifact and every array of extensions, what
    [_applyExtension] yields from index 0 is the fold, in the order of the
    array, of the step in which a hook either replaces the carried artifact
    or, returning no result, leaves it unchanged for the next hook; and
    [_applyExtensions] is that fold over the extension objects in
    registration order, every registered name having its object. *)
Theorem applyExtensions_is_ordered_fold :
  (forall (extensions : list Extension) (node : option T),
      Spec.await (GLTFExporter._applyExtension actionAsync node extensions 0)
      = Spec.hookFold actionAsync extensions node)
  /\ (forall (_ExtensionNames : list string) (_extensions : gmap string Extension)
             (instances : list Extension) (node : option T),
         List.map (fun name => _extensions !! name) _ExtensionNames = List.map Some instances ->
         Spec.await (GLTFExporter._applyExtensions _ExtensionNames _extensions actionAsync node)
         = Spec.hookFold actionAsync instances node).
Proof.
  split.
  - intros extensions node. apply applyExtension_from_index.
  - intros _ExtensionNames _extensions instances node Hloaded.
    unfold GLTFExporter._applyExtensions.
    rewrite applyExtension_is_fold, Hloaded.
    apply hookFold_callAction.
Qed.

End HookPipeline.

Lemma applyExtensions_is_ordered_fold_witness :
  List.map (fun name => Examples.twoExtensions !! name) ["first"%string; "second"%string]
  = List.map Some [1%nat; 2%nat]
  /\ Spec.await (GLTFExporter._applyExtensions ["first"%string; "second"%string]
                   Examples.twoExtensions Examples.secondActs (Some 7))
     = Spec.hookFold Examples.secondActs [1%nat; 2%nat] (Some 7).
Proof.
  assert (Hloaded :
    List.map (fun name => Examples.twoExtensions !! name) ["first"%string; "second"%string]
    = List.map Some [1%nat; 2%nat]) by reflexivity.
  split; [exact Hloaded |].
  exact (proj2 (applyExtensions_is_ordered_fold Examples.secondActs) _ _ _ (Some 7) Hloaded).
Defined.

(** The scenario of two extensions of which only the second acts: the node
    goes through the first one unchanged and is rewritten by the second. *)
Example second_extension_rewrites :
  Spec.await (GLTFExporter._applyExtensions ["first"%string; "second"%string]
                Examples.twoExtensions Examples.secondActs (Some 7))
  = Spec.Artifact (Some 8).
Proof. vm_compute. reflexivity. Qed.

(** ** Closed mappings *)

Section Switch.
Context {K A : Type} (eqb : K -> K -> bool).
Context (eqb_spec : forall x y, eqb x y = true <-> x = y).

Lemma switch_matches (scrutinee : K) (cases : list (K * A)) (after : Completion A) :
  In scrutinee (List.map fst cases) ->
  exists result, switch eqb scrutinee cases after = Normal result.
Proof.
  induction cases as [| [label result] rest IH]; simpl; [tauto |].
  intros [Heq | Hin].
  - exists result. subst label. now rewrite (proj2 (eqb_spec scrutinee scrutinee) eq_refl).
  - destruct (eqb scrutinee label); eauto.
Qed.

Lemma switch_falls_through (scrutinee : K) (cases : list (K * A)) (after : Completion A) :
  ~ In scrutinee (List.map fst cases) ->
  switch eqb scrutinee cases after = after.
Proof.
  induction cases as [| [label result] rest IH]; simpl; [reflexivity |].
  intros Hnot. destruct (eqb scrutinee label) eqn:Heq.
  - apply eqb_spec in Heq. exfalso. apply Hnot. left. congruence.
  - apply IH. tauto.
Qed.
End Switch.

Lemma string_eqb_spec (x y : string) : String.eqb x y = true <-> x = y.
Proof. apply String.eqb_eq. Qed.

Lemma Z_eqb_spec (x y : Z) : Z.eqb x y = true <-> x = y.
Proof. apply Z.eqb_eq. Qed.

(** C9.  [getAccessorType] and [getAttributeType] return a value for every
    kind of the enumerated set (position, normal, tangent, color, the six UV
    channels, the two joint-index and the two joint-weight kinds) and throw
    for every other kind; [getPrimitiveMode] returns a topology for every
    fill mode it has a case for and throws for every other fill mode. *)
Theorem kind_and_mode_mappings_closed
    (VertexBuffer : VertexBufferKinds) (Material : MaterialFillModes) :
  (forall kind : string,
      (In kind (attributeKinds VertexBuffer) ->
       exists accessorType semantic,
         getAccessorType VertexBuffer kind = Normal accessorType
         /\ getAttributeType VertexBuffer kind = Normal semantic)
      /\ (~ In kind (attributeKinds VertexBuffer) ->
          exists message1 message2,
            getAccessorType VertexBuffer kind = Throw message1
            /\ getAttributeType VertexBuffer kind = Throw message2))
  /\ (forall fillMode : Z,
         (In fillMode (mappedFillModes Material) ->
          exists mode, getPrimitiveMode Material fillMode = Normal mode)
         /\ (~ In fillMode (mappedFillModes Material) ->
             exists message, getPrimitiveMode Material fillMode = Throw message)).
Proof.
  split.
  - intros kind. split.
    + intros Hin.
      destruct (switch_matches String.eqb string_eqb_spec kind
                  [ (PositionKind VertexBuffer, AccessorType.VEC3);
                    (NormalKind VertexBuffer, AccessorType.VEC3);
                    (ColorKind VertexBuffer, AccessorType.VEC4);
                    (TangentKind VertexBuffer, AccessorType.VEC4);
                    (MatricesIndicesKind VertexBuffer, AccessorType.VEC4);
                    (MatricesIndicesExtraKind VertexBuffer, AccessorType.VEC4);
                    (MatricesWeightsKind VertexBuffer, AccessorType.VEC4);
                    (MatricesWeightsExtraKind VertexBuffer, AccessorType.VEC4);
                    (UVKind VertexBuffer, AccessorType.VEC2);
                    (UV2Kind VertexBuffer, AccessorType.VEC2);
                    (UV3Kind VertexBuffer, AccessorType.VEC2);
                    (UV4Kind VertexBuffer, AccessorType.VEC2);
                    (UV5Kind VertexBuffer, AccessorType.VEC2);
                    (UV6Kind VertexBuffer, AccessorType.VEC2) ]
                  (Throw ("Unknown kind " ++ kind))) as [accessorType Haccessor].
      { simpl in *. tauto. }
      destruct (switch_matches String.eqb string_eqb_spec kind
                  [ (PositionKind VertexBuffer, "POSITION"%string);
                    (NormalKind VertexBuffer, "NORMAL"%string);
                    (TangentKind VertexBuffer, "TANGENT"%string);
                    (ColorKind VertexBuffer, "COLOR_0"%string);
                    (UVKind VertexBuffer, "TEXCOORD_0"%string);
                    (UV2Kind VertexBuffer, "TEXCOORD_1"%string);
                    (UV3Kind VertexBuffer, "TEXCOORD_2"%string);
                    (UV4Kind VertexBuffer, "TEXCOORD_3"%string);
                    (UV5Kind VertexBuffer, "TEXCOORD_4"%string);
                    (UV6Kind VertexBuffer, "TEXCOORD_5"%string);
                    (MatricesIndicesKind VertexBuffer, "JOINTS_0"%string);
                    (MatricesIndicesExtraKind VertexBuffer, "JOINTS_1"%string);
                    (MatricesWeightsKind VertexBuffer, "WEIGHTS_0"%string);
                    (MatricesWeightsExtraKind VertexBuffer, "WEIGHTS_1"%string) ]
                  (Throw ("Unknown kind: " ++ kind))) as [semantic Hsemantic].
      { simpl in *. tauto. }
      exists accessorType, semantic. split; assumption.
    + intros Hnot.
      exists ("Unknown kind " ++ kind)%string, ("Unknown kind: " ++ kind)%string.
      split; apply (switch_falls_through String.eqb string_eqb_spec);
        simpl in *; tauto.
  - intros fillMode. split.
    + intros Hin. apply (switch_matches Z.eqb Z_eqb_spec). simpl in *. tauto.
    + intros Hnot. exists "Unknown fill mode: "%string.
      apply (switch_falls_through Z.eqb Z_eqb_spec). simpl in *. tauto.
Qed.

Lemma kind_and_mode_mappings_closed_witness :
  In "uv2"%string (attributeKinds BabylonVertexBuffer)
  /\ (exists accessorType semantic,
         getAccessorType BabylonVertexBuffer "uv2" = Normal accessorType
         /\ getAttributeType BabylonVertexBuffer "uv2" = Normal semantic)
  /\ ~ In 1 (mappedFillModes BabylonMaterial)
  /\ (exists message, getPrimitiveMode BabylonMaterial 1 = Throw message).
Proof.
  assert (Hin : In "uv2"%string (attributeKinds BabylonVertexBuffer)).
  { simpl. tauto. }
  assert (Hnot : ~ In 1 (mappedFillModes BabylonMaterial)).
  { simpl. intros H. repeat (destruct H as [H | H]; [discriminate H |]). exact H. }
  split; [exact Hin |]. split.
  - exact (proj1 (proj1 (kind_and_mode_mappings_closed BabylonVertexBuffer BabylonMaterial)
                    "uv2"%string) Hin).
  - split; [exact Hnot |].
    exact (proj2 (proj2 (kind_and_mode_mappings_closed BabylonVertexBuffer BabylonMaterial) 1)
             Hnot).
Defined.

(** ** Bounds of the positions *)

(** One vertex in the loop, written out component by component. *)
Lemma componentSteps_explicit (n0 n1 n2 a0 a1 a2 b0 b1 b2 : number) :
  fold_left (componentStep [Some n0; Some n1; Some n2]) (seq 0 positionStrideSize)
    ([a0; a1; a2], [b0; b1; b2])
  = ([keepLower n0 a0; keepLower n1 a1; keepLower n2 a2],
     [keepUpper n0 b0; keepUpper n1 b1; keepUpper n2 b2]).
Proof.
  unfold keepLower, keepUpper. simpl.
  destruct (lt n0 a0), (gt n0 b0); simpl;
    destruct (lt n1 a1), (gt n1 b1); simpl;
      destruct (lt n2 a2), (gt n2 b2); reflexivity.
Qed.

Section Bounds.
Context (positions : list number) (start : Z).

Lemma lowerAfter_step (k : Z) (j : nat) (a : number) (x : Q) :
  0 <= k ->
  Spec.component positions (start + k) j = Some (Finite x) ->
  lowerAfter positions start k j a ->
  lowerAfter positions start (k + 1) j (keepLower (Finite x) a).
Proof.
  intros Hk Hx [[-> ->] | [Hpos (q & -> & (i & Hi & Hattained) & Hbelow)]]; right.
  - split; [lia |]. exists x. simpl. repeat split.
    + exists start. rewrite Z.add_0_r in Hx. split; [lia | exact Hx].
    + intros i q' Hi Hq'. assert (i = start) as -> by lia.
      rewrite Z.add_0_r in Hx. rewrite Hx in Hq'. injection Hq' as <-. apply Qle_refl.
  - split; [lia |]. unfold keepLower. simpl.
    destruct (Qle_bool q x) eqn:Hle; simpl.
    + apply Qle_bool_iff in Hle. exists q. repeat split.
      * exists i. split; [lia | exact Hattained].
      * intros i' q' Hi' Hq'. destruct (Z.eq_dec i' (start + k)) as [-> | Hne].
        -- rewrite Hx in Hq'. injection Hq' as <-. exact Hle.
        -- apply (Hbelow i'); [lia | exact Hq'].
    + assert (Hlt : (x < q)%Q).
      { apply Qnot_le_lt. intros Hc. apply Qle_bool_iff in Hc. congruence. }
      exists x. repeat split.
      * exists (start + k). split; [lia | exact Hx].
      * intros i' q' Hi' Hq'. destruct (Z.eq_dec i' (start + k)) as [-> | Hne].
        -- rewrite Hx in Hq'. injection Hq' as <-. apply Qle_refl.
        -- apply Qle_trans with q; [apply Qlt_le_weak, Hlt |].
           apply (Hbelow i'); [lia | exact Hq'].
Qed.

Lemma upperAfter_step (k : Z) (j : nat) (b : number) (x : Q) :
  0 <= k ->
  Spec.component positions (start + k) j = Some (Finite x) ->
  upperAfter positions start k j b ->
  upperAfter positions start (k + 1) j (keepUpper (Finite x) b).
Proof.
  intros Hk Hx [[-> ->] | [Hpos (q & -> & (i & Hi & Hattained) & Habove)]]; right.
  - split; [lia |]. exists x. simpl. repeat split.
    + exists start. rewrite Z.add_0_r in Hx. split; [lia | exact Hx].
    + intros i q' Hi Hq'. assert (i = start) as -> by lia.
      rewrite Z.add_0_r in Hx. rewrite Hx in Hq'. injection Hq' as <-. apply Qle_refl.
  - split; [lia |]. unfold keepUpper, gt. simpl.
    destruct (Qle_bool x q) eqn:Hle; simpl.
    + apply Qle_bool_iff in Hle. exists q. repeat split.
      * exists i. split; [lia | exact Hattained].
      * intros i' q' Hi' Hq'. destruct (Z.eq_dec i' (start + k)) as [-> | Hne].
        -- rewrite Hx in Hq'. injection Hq' as <-. exact Hle.
        -- apply (Habove i'); [lia | exact Hq'].
    + assert (Hlt : (q < x)%Q).
      { apply Qnot_le_lt. intros Hc. apply Qle_bool_iff in Hc. congruence. }
      exists x. repeat split.
      * exists (start + k). split; [lia | exact Hx].
      * intros i' q' Hi' Hq'. destruct (Z.eq_dec i' (start + k)) as [-> | Hne].
        -- rewrite Hx in Hq'. injection Hq' as <-. apply Qle_refl.
        -- apply Qle_trans with q; [| apply Qlt_le_weak, Hlt].
           apply (Habove i'); [lia | exact Hq'].
Qed.

Lemma vertexLoop_invariant (n : nat) : forall (k : Z) (mm : list number * list number),
  0 <= k ->
  Spec.finiteRange positions start (k + Z.of_nat n) ->
  boundsAfter positions start k mm ->
  boundsAfter positions start (k + Z.of_nat n) (vertexLoop positions (start + k) n mm).
Proof.
  induction n as [| n IH]; intros k mm Hk Hfinite Hinv.
  - simpl. now rewrite Z.add_0_r.
  - destruct Hinv as (a0 & a1 & a2 & b0 & b1 & b2 & -> & Ha0 & Ha1 & Ha2 & Hb0 & Hb1 & Hb2).
    destruct (Hfinite (start + k) 0%nat ltac:(lia) ltac:(lia)) as [x0 Hx0].
    destruct (Hfinite (start + k) 1%nat ltac:(lia) ltac:(lia)) as [x1 Hx1].
    destruct (Hfinite (start + k) 2%nat ltac:(lia) ltac:(lia)) as [x2 Hx2].
    cbn [vertexLoop].
    change (Z.of_nat positionStrideSize) with 3.
    assert (E0 : element positions (3 * (start + k)) = Some (Finite x0)).
    { rewrite <- Hx0. unfold Spec.component. f_equal. simpl. lia. }
    assert (E1 : element positions (3 * (start + k) + 1) = Some (Finite x1)).
    { rewrite <- Hx1. unfold Spec.component. f_equal. }
    assert (E2 : element positions (3 * (start + k) + 2) = Some (Finite x2)).
    { rewrite <- Hx2. unfold Spec.component. f_equal. }
    unfold FromArray. rewrite E0, E1, E2.
    rewrite componentSteps_explicit.
    replace (k + Z.of_nat (S n)) with ((k + 1) + Z.of_nat n) in * by lia.
    replace (start + k + 1) with (start + (k + 1)) by lia.
    apply IH; [lia | exact Hfinite |].
    exists (keepLower (Finite x0) a0), (keepLower (Finite x1) a1), (keepLower (Finite x2) a2),
      (keepUpper (Finite x0) b0), (keepUpper (Finite x1) b1), (keepUpper (Finite x2) b2).
    split; [reflexivity |].
    repeat apply conj;
      first [ apply lowerAfter_step | apply upperAfter_step ]; assumption.
Qed.

End Bounds.

(** C7.  For a vertex range [start, start + count) whose positions exist and
    are finite, [calculateMinMaxPositions] returns two arrays of three
    numbers that are, component by component, the exact minimum and maximum
    of the positions at the indices [3 * start] to [3 * (start + count) - 1];
    and the result is the pair of the sentinels [+Inf, +Inf, +Inf] and
    [-Inf, -Inf, -Inf] if and only if [count] is 0. *)
Theorem calculateMinMaxPositions_exact (positions : list number) (start count : Z) :
  0 <= count ->
  Spec.finiteRange positions start count ->
  exists min0 min1 min2 max0 max1 max2,
    calculateMinMaxPositions positions start count
    = ([min0; min1; min2], [max0; max1; max2])
    /\ (0 < count ->
        Spec.isMinimum positions start count 0 min0
        /\ Spec.isMinimum positions start count 1 min1
        /\ Spec.isMinimum positions start count 2 min2
        /\ Spec.isMaximum positions start count 0 max0
        /\ Spec.isMaximum positions start count 1 max1
        /\ Spec.isMaximum positions start count 2 max2)
    /\ (([min0; min1; min2] = [Infinity; Infinity; Infinity]
         /\ [max0; max1; max2] = [NegInfinity; NegInfinity; NegInfinity])
        <-> count = 0).
Proof.
  intros Hcount Hfinite. unfold calculateMinMaxPositions.
  destruct (Z.eqb_spec count 0) as [-> | Hne].
  - exists Infinity, Infinity, Infinity, NegInfinity, NegInfinity, NegInfinity.
    split; [reflexivity |]. split; [lia | tauto].
  - pose proof (vertexLoop_invariant positions start (Z.to_nat count) 0
                  ([Infinity; Infinity; Infinity], [NegInfinity; NegInfinity; NegInfinity]))
      as Hloop.
    rewrite Z.add_0_r, Z.add_0_l, Z2Nat.id in Hloop by lia.
    destruct Hloop as (a0 & a1 & a2 & b0 & b1 & b2 & -> & Ha0 & Ha1 & Ha2 & Hb0 & Hb1 & Hb2).
    + lia.
    + exact Hfinite.
    + exists Infinity, Infinity, Infinity, NegInfinity, NegInfinity, NegInfinity.
      split; [reflexivity |]. repeat split; left; split; reflexivity.
    + exists a0, a1, a2, b0, b1, b2. split; [reflexivity |].
      destruct Ha0 as [[? _] | [_ Ha0]]; [lia |].
      destruct Ha1 as [[? _] | [_ Ha1]]; [lia |].
      destruct Ha2 as [[? _] | [_ Ha2]]; [lia |].
      destruct Hb0 as [[? _] | [_ Hb0]]; [lia |].
      destruct Hb1 as [[? _] | [_ Hb1]]; [lia |].
      destruct Hb2 as [[? _] | [_ Hb2]]; [lia |].
      split; [tauto |].
      split; [| lia].
      intros [Hmin _]. destruct Ha0 as (q & -> & _). discriminate Hmin.
Qed.

Lemma calculateMinMaxPositions_exact_witness :
  0 <= 3
  /\ Spec.finiteRange Examples.positionData 0 3
  /\ exists min0 min1 min2 max0 max1 max2,
       calculateMinMaxPositions Examples.positionData 0 3
       = ([min0; min1; min2], [max0; max1; max2])
       /\ (0 < 3 ->
           Spec.isMinimum Examples.positionData 0 3 0 min0
           /\ Spec.isMinimum Examples.positionData 0 3 1 min1
           /\ Spec.isMinimum Examples.positionData 0 3 2 min2
           /\ Spec.isMaximum Examples.positionData 0 3 0 max0
           /\ Spec.isMaximum Examples.positionData 0 3 1 max1
           /\ Spec.isMaximum Examples.positionData 0 3 2 max2)
       /\ (([min0; min1; min2] = [Infinity; Infinity; Infinity]
            /\ [max0; max1; max2] = [NegInfinity; NegInfinity; NegInfinity])
           <-> 3 = 0).
Proof.
  assert (Hfinite : Spec.finiteRange Examples.positionData 0 3).
  { intros i j Hi Hj.
    assert (Hcases : i = 0 \/ i = 1 \/ i = 2) by lia.
    destruct Hcases as [-> | [-> | ->]];
      (destruct j as [| [| [| j]]]; [| | | lia]); eexists; reflexivity. }
  split; [lia |]. split; [exact Hfinite |].
  apply (calculateMinMaxPositions_exact Examples.positionData 0 3); [lia | exact Hfinite].
Defined.

(** ** Descriptors *)

(** C8, as the code has it.  [createBufferView] leaves [byteOffset] out
    exactly when it is zero, [byteStride] exactly when it is zero or absent,
    and [name] exactly when it is absent or the empty string; a field that
    is kept holds the argument.  [createAccessor] keeps [byteOffset], [min]
    and [max] exactly when they are not null, so an explicit zero offset is
    kept. *)
Theorem descriptor_fields_omitted
    (bufferIndex byteOffset byteLength : Z) (byteStride : option Z) (name : option string)
    (bufferViewIndex componentType count : Z) (type : string)
    (accessorByteOffset : option Z) (min max : option (list number)) :
  (IBufferView.byteOffset
     (createBufferView bufferIndex byteOffset byteLength byteStride name) = None
   <-> byteOffset = 0)
  /\ (IBufferView.byteStride
        (createBufferView bufferIndex byteOffset byteLength byteStride name) = None
      <-> byteStride = None \/ byteStride = Some 0)
  /\ (IBufferView.name
        (createBufferView bufferIndex byteOffset byteLength byteStride name) = None
      <-> name = None \/ name = Some EmptyString)
  /\ (IBufferView.byteOffset
        (createBufferView bufferIndex byteOffset byteLength byteStride name) <> None ->
      IBufferView.byteOffset
        (createBufferView bufferIndex byteOffset byteLength byteStride name)
      = Some byteOffset)
  /\ (IBufferView.byteStride
        (createBufferView bufferIndex byteOffset byteLength byteStride name) <> None ->
      IBufferView.byteStride
        (createBufferView bufferIndex byteOffset byteLength byteStride name)
      = byteStride)
  /\ (IBufferView.name
        (createBufferView bufferIndex byteOffset byteLength byteStride name) <> None ->
      IBufferView.name
        (createBufferView bufferIndex byteOffset byteLength byteStride name)
      = name)
  /\ IAccessor.byteOffset
       (createAccessor bufferViewIndex type componentType count accessorByteOffset min max)
     = accessorByteOffset
  /\ IAccessor.min
       (createAccessor bufferViewIndex type componentType count accessorByteOffset min max)
     = min
  /\ IAccessor.max
       (createAccessor bufferViewIndex type componentType count accessorByteOffset min max)
     = max
  /\ IAccessor.byteOffset
       (createAccessor bufferViewIndex type componentType count (Some 0) min max)
     = Some 0.
Proof.
  cbv zeta. unfold createBufferView, createAccessor. simpl.
  repeat match goal with |- _ /\ _ => split end.
  - destruct (Z.eqb_spec byteOffset 0); split; intros H; congruence.
  - destruct byteStride as [n |]; [destruct (Z.eqb_spec n 0) |];
      (split; [intros H | intros [H | H]]);
      first [ congruence | left; congruence | right; congruence ].
  - destruct name as [s |]; [destruct (String.eqb_spec s EmptyString) |];
      (split; [intros H | intros [H | H]]);
      first [ congruence | left; congruence | right; congruence ].
  - destruct (Z.eqb_spec byteOffset 0); congruence.
  - destruct byteStride as [n |]; [destruct (Z.eqb_spec n 0) |]; congruence.
  - destruct name as [s |]; [destruct (String.eqb_spec s EmptyString) |]; congruence.
  - destruct accessorByteOffset; reflexivity.
  - destruct min; reflexivity.
  - destruct max; reflexivity.
  - reflexivity.
Qed.

Lemma descriptor_fields_omitted_witness :
  IBufferView.byteOffset (createBufferView 0 6 36 (Some 12) None) <> None
  /\ IBufferView.byteOffset (createBufferView 0 6 36 (Some 12) None) = Some 6
  /\ IBufferView.byteStride (createBufferView 0 6 36 (Some 12) None) = Some 12
  /\ IBufferView.name (createBufferView 0 6 36 (Some 12) None) = None.
Proof.
  pose proof (descriptor_fields_omitted 0 6 36 (Some 12) None 0 5126 3 "VEC3" (Some 0) None None)
    as (_ & _ & Hname & Hoffset & Hstride & _).
  assert (Hkept : IBufferView.byteOffset (createBufferView 0 6 36 (Some 12) None) <> None)
    by discriminate.
  split; [exact Hkept |].
  split; [exact (Hoffset Hkept) |].
  split; [apply Hstride; discriminate | apply Hname; left; reflexivity].
Defined.

(** C8 as it was stated fails for the name: an empty name is given, not
    absent, and the field is left out all the same. *)
Lemma createBufferView_omits_empty_name :
  ~ (IBufferView.name (createBufferView 0 0 4 None (Some EmptyString)) = None
     <-> Some EmptyString = (None : option string)).
Proof. simpl. intros [Hforward _]. discriminate (Hforward eq_refl). Qed.

(** ** The deduplication cache *)

Lemma accessor_setters_keep_outer_maps k a b v s :
  ExporterState._indicesAccessorMap (ExporterState.setIndicesAccessor k a b v s)
  = ExporterState._indicesAccessorMap s
  /\ ExporterState._attributeAccessorMap (ExporterState.setIndicesAccessor k a b v s)
     = ExporterState._attributeAccessorMap s
  /\ ExporterState._indicesAccessorMap (ExporterState.setAttributeAccessor k a b v s)
     = ExporterState._indicesAccessorMap s
  /\ ExporterState._attributeAccessorMap (ExporterState.setAttributeAccessor k a b v s)
     = ExporterState._attributeAccessorMap s.
Proof.
  unfold ExporterState.setIndicesAccessor, ExporterState.setAttributeAccessor.
  repeat split.
  - destruct (ExporterState._indicesAccessorMap s !! k) as [r |]; simpl;
      match goal with |- context [ExporterState.derefOuter ?s' ?r' !! a] =>
        destruct (ExporterState.derefOuter s' r' !! a) end; reflexivity.
  - destruct (ExporterState._indicesAccessorMap s !! k) as [r |]; simpl;
      match goal with |- context [ExporterState.derefOuter ?s' ?r' !! a] =>
        destruct (ExporterState.derefOuter s' r' !! a) end; reflexivity.
  - destruct (ExporterState._attributeAccessorMap s !! k) as [r |]; simpl;
      match goal with |- context [ExporterState.derefOuter ?s' ?r' !! a] =>
        destruct (ExporterState.derefOuter s' r' !! a) end; reflexivity.
  - destruct (ExporterState._attributeAccessorMap s !! k) as [r |]; simpl;
      match goal with |- context [ExporterState.derefOuter ?s' ?r' !! a] =>
        destruct (ExporterState.derefOuter s' r' !! a) end; reflexivity.
Qed.

(** No setter ever stores into the two accessor maps: in every state of an
    exporter they are empty. *)
Lemma reachable_accessor_maps_empty (s : ExporterState.t) :
  ExporterState.reachable s ->
  ExporterState._indicesAccessorMap s = ∅ /\ ExporterState._attributeAccessorMap s = ∅.
Proof.
  induction 1 as [| s k v _ IH | s k a b v _ IH | s k v _ IH | s k a b v _ IH | s k v _ IH];
    try exact IH; try (split; reflexivity).
  - destruct (accessor_setters_keep_outer_maps k a b v s) as (-> & -> & _). exact IH.
  - destruct (accessor_setters_keep_outer_maps k a b v s) as (_ & _ & -> & ->). exact IH.
Qed.

(** Hence a lookup of an accessor misses in every state, also right after
    the accessor has been stored under the same key. *)
Lemma accessor_lookup_misses (s : ExporterState.t) k a b :
  ExporterState.reachable s ->
  ExporterState.getIndicesAccessor k a b s = None
  /\ ExporterState.getAttributeAccessor k a b s = None.
Proof.
  intros Hreach. destruct (reachable_accessor_maps_empty s Hreach) as [Hi Ha].
  unfold ExporterState.getIndicesAccessor, ExporterState.getAttributeAccessor.
  rewrite Hi, Ha, !lookup_empty. split; reflexivity.
Qed.

Lemma accessor_lookup_misses_after_set (s : ExporterState.t) k a b v :
  ExporterState.reachable s ->
  ExporterState.getIndicesAccessor k a b (ExporterState.setIndicesAccessor k a b v s) = None
  /\ ExporterState.getAttributeAccessor k a b (ExporterState.setAttributeAccessor k a b v s)
     = None.
Proof.
  intros Hreach. split.
  - apply accessor_lookup_misses. now constructor.
  - apply accessor_lookup_misses. now constructor.
Qed.

(** The buffer-view caches and the mesh cache do return what was stored. *)
Lemma plain_caches_hit (s : ExporterState.t) k v :
  ExporterState.getIndicesBufferView k (ExporterState.setIndicesBufferView k v s) = Some v
  /\ ExporterState.getAttributeBufferView k (ExporterState.setAttributeBufferView k v s)
     = Some v
  /\ ExporterState.getMesh k (ExporterState.setMesh k v s) = Some v.
Proof.
  unfold ExporterState.getIndicesBufferView, ExporterState.getAttributeBufferView,
    ExporterState.getMesh. simpl. rewrite !lookup_insert_eq. repeat split.
Qed.

(** C1.  In every state of an exporter, an accessor index that has just
    been stored for a key is not found under that key.  At a triangle with
    two submeshes over the same range, the second submesh gets the accessors
    2 and 3 where the first one got 0 and 1, so four accessors are emitted.
    The bytes are written once: two buffer views, 6 + 36 bytes. *)
Theorem accessor_cache_never_hits :
  (forall (s : ExporterState.t) (key : positive) (start count accessorIndex : Z),
      ExporterState.reachable s ->
      ExporterState.getIndicesAccessor key start count
        (ExporterState.setIndicesAccessor key start count accessorIndex s) = None
      /\ ExporterState.getAttributeAccessor key start count
           (ExporterState.setAttributeAccessor key start count accessorIndex s) = None)
  /\ exists e,
       Examples.exportMesh
         (Examples.triangle [Examples.wholeTriangle; Examples.wholeTriangle])
         GLTFExporter.new
       = Normal (0, e)
       /\ GLTFExporter._meshes e
          = [GLTFExporter.IMesh.mk
               [GLTFExporter.IMeshPrimitive.mk [("POSITION"%string, 1)] None None (Some 0);
                GLTFExporter.IMeshPrimitive.mk [("POSITION"%string, 3)] None None (Some 2)]]
       /\ length (GLTFExporter._accessors e) = 4%nat
       /\ length (GLTFExporter._bufferViews e) = 2%nat
       /\ length (GLTFExporter._dataWriter e) = 42%nat.
Proof.
  split.
  - intros s key start count accessorIndex Hreach.
    exact (accessor_lookup_misses_after_set s key start count accessorIndex Hreach).
  - eexists. split; [vm_compute; reflexivity |].
    repeat split.
Qed.

(** ** Nodes and meshes *)

(** [a || b] does not keep a cached index that is zero. *)
Lemma orElse_zero (b : GLTFExporter.M Z) : GLTFExporter.orElse (Some 0) b = b.
Proof. reflexivity. Qed.

Lemma orElse_nonzero (v : Z) (b : GLTFExporter.M Z) :
  v <> 0 -> GLTFExporter.orElse (Some v) b = mret v.
Proof. intros Hv. unfold GLTFExporter.orElse. destruct (Z.eqb_spec v 0); congruence. Qed.

(** C2.  [state.getMesh(mesh) || ...] evaluates its right operand when the
    cached index is 0.  At the first mesh of an export and an instance of
    it: the mesh node is exported first and its mesh gets index 0, which the
    state records; the export of the instance finds 0, exports the mesh
    again and assigns the new index 1 to the instance: two output meshes
    for one source mesh. *)
Theorem instance_of_mesh_zero_exported_again :
  (forall exportMesh : GLTFExporter.M Z, GLTFExporter.orElse (Some 0) exportMesh = exportMesh)
  /\ exists e1 e2,
       Examples.exportNode Examples.meshNode GLTFExporter.new = Normal (0, e1)
       /\ ExporterState.getMesh 1 (GLTFExporter._originalState e1) = Some 0
       /\ length (GLTFExporter._meshes e1) = 1%nat
       /\ Examples.exportNode Examples.instanceNode e1 = Normal (1, e2)
       /\ GLTFExporter._nodes e2
          = [GLTFExporter.INode.mk (Some "triangle"%string) (Some 0) None;
             GLTFExporter.INode.mk (Some "instance"%string) (Some 1) None]
       /\ length (GLTFExporter._meshes e2) = 2%nat.
Proof.
  split; [exact orElse_zero |].
  eexists. eexists.
  split; [vm_compute; reflexivity |].
  split; [reflexivity |]. split; [reflexivity |].
  split; [vm_compute; reflexivity |].
  split; reflexivity.
Qed.

(** The same through the export of the whole scene. *)
Example instanced_scene_has_two_meshes :
  exists e,
    Examples.exportScene Examples.instancedScene Examples.options GLTFExporter.new
    = Normal (tt, e)
    /\ GLTFExporter._nodes e
       = [GLTFExporter.INode.mk (Some "triangle"%string) (Some 0) None;
          GLTFExporter.INode.mk (Some "instance"%string) (Some 1) None]
    /\ length (GLTFExporter._meshes e) = 2%nat
    /\ GLTFExporter._scenes e = [GLTFExporter.IScene.mk [0; 1]].
Proof.
  eexists. split; [vm_compute; reflexivity |]. repeat split.
Qed.

(** ** Removal of the no-op root nodes *)

Lemma indexOfFrom_absent (nodes : list Babylon.Node) (node : Babylon.Node) (i : Z) :
  Forall (fun n => Babylon.uniqueId n <> Babylon.uniqueId node) nodes ->
  GLTFExporter.indexOfFrom nodes node i = -1.
Proof.
  intros Habsent. revert i. induction Habsent as [| n rest Hn _ IH]; intros i; simpl.
  - reflexivity.
  - destruct (Pos.eqb_spec (Babylon.uniqueId n) (Babylon.uniqueId node)); [contradiction |].
    apply IH.
Qed.

(** [splice(-1, 1)] removes the last element. *)
Lemma splice_minus_one {A : Type} (array : list A) (last : A) :
  GLTFExporter.splice (array ++ [last]) (-1) 1 = array.
Proof.
  unfold GLTFExporter.splice. rewrite length_app. simpl.
  replace (Z.of_nat (length array + 1) + -1) with (Z.of_nat (length array)) by lia.
  rewrite Z.max_l by lia.
  replace (Z.min (Z.max 1 0) (Z.of_nat (length array + 1) - Z.of_nat (length array)))
    with 1 by lia.
  rewrite Nat2Z.id.
  replace (Z.to_nat (Z.of_nat (length array) + 1)) with (length array + 1)%nat by lia.
  rewrite take_app_length.
  rewrite drop_ge by (rewrite length_app; simpl; lia).
  apply app_nil_r.
Qed.

Lemma indexOfFrom_present (before after : list Babylon.Node) (found node : Babylon.Node)
    (i : Z) :
  Forall (fun n => Babylon.uniqueId n <> Babylon.uniqueId node) before ->
  Babylon.uniqueId found = Babylon.uniqueId node ->
  GLTFExporter.indexOfFrom (before ++ found :: after) node i = i + Z.of_nat (length before).
Proof.
  intros Hbefore Hfound. revert i.
  induction Hbefore as [| n rest Hn _ IH]; intros i; simpl.
  - rewrite Hfound, Pos.eqb_refl. lia.
  - destruct (Pos.eqb_spec (Babylon.uniqueId n) (Babylon.uniqueId node)); [contradiction |].
    rewrite IH. lia.
Qed.

(** A no-op root that is in the list is the node that is taken out of it. *)
Lemma splice_indexOf_present (before after : list Babylon.Node) (found node : Babylon.Node) :
  Forall (fun n => Babylon.uniqueId n <> Babylon.uniqueId node) before ->
  Babylon.uniqueId found = Babylon.uniqueId node ->
  GLTFExporter.splice (before ++ found :: after)
    (GLTFExporter.indexOf (before ++ found :: after) node) 1
  = before ++ after.
Proof.
  intros Hbefore Hfound. unfold GLTFExporter.indexOf.
  rewrite (indexOfFrom_present before after found node 0 Hbefore Hfound).
  unfold GLTFExporter.splice. rewrite length_app. simpl length.
  destruct (Z.ltb_spec (0 + Z.of_nat (length before)) 0) as [Hneg | _]; [lia |].
  rewrite Z.min_l by lia.
  replace (Z.min (Z.max 1 0) _) with 1 by lia.
  replace (Z.to_nat (0 + Z.of_nat (length before))) with (length before) by lia.
  replace (Z.to_nat (0 + Z.of_nat (length before) + 1)) with (S (length before)) by lia.
  rewrite take_app_length, drop_app_ge by lia.
  replace (S (length before) - length before)%nat with 1%nat by lia.
  reflexivity.
Qed.

Lemma forOf_modify {A : Type} (l : list A) (f : A -> GLTFExporter.t -> GLTFExporter.t)
    (e : GLTFExporter.t) :
  exists e', GLTFExporter.forOf l (fun _ x => GLTFExporter.modify (f x)) tt e = Normal (tt, e').
Proof.
  revert e. induction l as [| x rest IH]; intros e; simpl.
  - now exists e.
  - unfold mbind, GLTFExporter.M_bind, GLTFExporter.modify at 1. apply IH.
Qed.

(** When a no-op root is not in the list of the nodes to export, the node
    that the removal takes out of the list is the last one. *)
Lemma pruneRootNode_absent_root scene (nodes : list Babylon.Node) (last rootNode : Babylon.Node)
    (e : GLTFExporter.t) :
  GLTFExporter.isNoopNode rootNode (Babylon.useRightHandedSystem scene) = true ->
  Forall (fun n => Babylon.uniqueId n <> Babylon.uniqueId rootNode) (nodes ++ [last]) ->
  exists e', GLTFExporter.pruneRootNode scene (nodes ++ [last]) rootNode e = Normal (nodes, e').
Proof.
  intros Hnoop Habsent. unfold GLTFExporter.pruneRootNode.
  rewrite Hnoop. unfold GLTFExporter.indexOf.
  rewrite (indexOfFrom_absent _ _ _ Habsent), splice_minus_one.
  destruct (Babylon.useRightHandedSystem scene); simpl.
  - now exists e.
  - unfold mbind, GLTFExporter.M_bind, GLTFExporter.modify at 1.
    destruct (forOf_modify (Babylon.getDescendants scene rootNode)
                (fun descendant =>
                   GLTFExporter.update_nodesToConvertToRightHanded
                     (fun set => set ∖ {[Babylon.uniqueId descendant]}))
                (GLTFExporter.update_nodesToConvertToRightHanded
                   (fun set => set ∖ {[Babylon.uniqueId rootNode]}) e)) as [e' He'].
    exists e'. rewrite He'. reflexivity.
Qed.

(** C6.  When a no-op root is not in the list of the nodes to export, its
    removal takes the last node out of the list, whatever that node is.  At
    a right-handed scene with the root nodes [root] (a no-op) and [moved]
    (translated, hence not a no-op) and a node predicate that rejects
    [root]: the list of the nodes to export is [moved] alone, and the
    removal of the no-op roots takes [moved] out of it. *)
Theorem noop_root_removal_drops_other_node :
  (forall scene (nodes : list Babylon.Node) (last rootNode : Babylon.Node) (e : GLTFExporter.t),
      GLTFExporter.isNoopNode rootNode (Babylon.useRightHandedSystem scene) = true ->
      Forall (fun n => Babylon.uniqueId n <> Babylon.uniqueId rootNode) (nodes ++ [last]) ->
      exists e',
        GLTFExporter.pruneRootNode scene (nodes ++ [last]) rootNode e = Normal (nodes, e'))
  /\ GLTFExporter.isNoopNode Examples.noopRoot true = true
  /\ GLTFExporter.isNoopNode Examples.movedNode true = false
  /\ default (fun _ => true) (GLTFExporter.shouldExportNode Examples.withoutNoopRoot)
       Examples.movedNode = true
  /\ GLTFExporter.collectNodes Examples.twoRootsScene Examples.withoutNoopRoot
       GLTFExporter.new
     = Normal ([], GLTFExporter.new).
Proof.
  split; [exact pruneRootNode_absent_root |].
  repeat split.
Qed.

(* ===================================================================== *)
(** * Part II, continued: properties of the rest of the exporter          *)
(* ===================================================================== *)

(** ** Writes into the middle of a buffer *)

Lemma setUint8_middle (before after : list Z) (old value : Z) :
  setUint8 (before ++ old :: after) (Z.of_nat (length before)) value
  = before ++ (value mod 256) :: after.
Proof.
  unfold setUint8. destruct (Z.ltb_spec (Z.of_nat (length before)) 0); [lia |].
  rewrite Nat2Z.id.
  replace (length before) with (length before + 0)%nat at 1 by lia.
  now rewrite insert_app_r.
Qed.

Lemma typedArraySet_middle (source : list Z) : forall (before old after : list Z),
  length old = length source ->
  typedArraySet (before ++ old ++ after) (Z.of_nat (length before)) source
  = before ++ List.map (fun b => b mod 256) source ++ after.
Proof.
  induction source as [| x rest IH]; intros before old after Hlen.
  - destruct old; [reflexivity | discriminate].
  - destruct old as [| o old]; [discriminate |]. simpl.
    rewrite setUint8_middle.
    replace (Z.of_nat (length before) + 1) with (Z.of_nat (length (before ++ [x mod 256])))
      by (rewrite length_app; simpl; lia).
    replace (before ++ x mod 256 :: old ++ after) with ((before ++ [x mod 256]) ++ old ++ after)
      by (now rewrite <- app_assoc).
    rewrite IH by (simpl in Hlen; lia).
    now rewrite <- app_assoc.
Qed.

Lemma fillView_middle (n : nat) : forall (before old after : list Z) (i value : Z),
  length old = n ->
  fillView (before ++ old ++ after) (Z.of_nat (length before) - i) i n value
  = before ++ replicate n (value mod 256) ++ after.
Proof.
  induction n as [| n IH]; intros before old after i value Hlen.
  - destruct old; [reflexivity | discriminate].
  - destruct old as [| o old]; [discriminate |]. simpl.
    replace (Z.of_nat (length before) - i + i) with (Z.of_nat (length before)) by lia.
    rewrite setUint8_middle.
    replace (before ++ value mod 256 :: old ++ after)
      with ((before ++ [value mod 256]) ++ old ++ after) by (now rewrite <- app_assoc).
    replace (Z.of_nat (length before) - i)
      with (Z.of_nat (length (before ++ [value mod 256])) - (i + 1))
      by (rewrite length_app; simpl; lia).
    rewrite IH by (simpl in Hlen; lia).
    now rewrite <- app_assoc.
Qed.

Lemma setUint32_middle (before after : list Z) (b0 b1 b2 b3 value : Z) :
  setUint32 (before ++ [b0; b1; b2; b3] ++ after) (Z.of_nat (length before)) value
  = before ++ GLTFExporter.bytes32 value ++ after.
Proof.
  unfold setUint32, GLTFExporter.bytes32. cbv zeta.
  set (v := value mod 2 ^ 32).
  assert (Hv : 0 <= v < 2 ^ 32) by (apply Z.mod_pos_bound; lia).
  simpl app.
  rewrite setUint8_middle.
  replace (Z.of_nat (length before) + 1) with (Z.of_nat (length (before ++ [v mod 256])))
    by (rewrite length_app; simpl; lia).
  replace (before ++ v mod 256 :: b1 :: b2 :: b3 :: after)
    with ((before ++ [v mod 256]) ++ b1 :: b2 :: b3 :: after) by (now rewrite <- app_assoc).
  rewrite setUint8_middle.
  replace (Z.of_nat (length before) + 2)
    with (Z.of_nat (length ((before ++ [v mod 256]) ++ [(v / 2 ^ 8) mod 256])))
    by (rewrite !length_app; simpl; lia).
  replace ((before ++ [v mod 256]) ++ (v / 2 ^ 8) mod 256 :: b2 :: b3 :: after)
    with (((before ++ [v mod 256]) ++ [(v / 2 ^ 8) mod 256]) ++ b2 :: b3 :: after)
    by (now rewrite <- !app_assoc).
  rewrite setUint8_middle.
  replace (Z.of_nat (length before) + 3)
    with (Z.of_nat (length (((before ++ [v mod 256]) ++ [(v / 2 ^ 8) mod 256])
                               ++ [(v / 2 ^ 16) mod 256])))
    by (rewrite !length_app; simpl; lia).
  replace (((before ++ [v mod 256]) ++ [(v / 2 ^ 8) mod 256]) ++ (v / 2 ^ 16) mod 256 :: b3 :: after)
    with ((((before ++ [v mod 256]) ++ [(v / 2 ^ 8) mod 256]) ++ [(v / 2 ^ 16) mod 256])
            ++ b3 :: after)
    by (now rewrite <- !app_assoc).
  rewrite setUint8_middle.
  rewrite <- !app_assoc. simpl.
  do 5 f_equal. apply Z.mod_small.
  change (2 ^ 24) with 16777216. change (2 ^ 32) with 4294967296 in Hv.
  split; [apply Z.div_pos; lia | apply Z.div_lt_upper_bound; lia].
Qed.

(** ** The layout of the binary container *)

Lemma copyCodeUnits_middle jsonText (n : nat) : forall (before old after : list Z) (i : nat),
  length old = n ->
  GLTFExporter.copyCodeUnits jsonText (before ++ old ++ after)
    (Z.of_nat (length before) - Z.of_nat i) i n
  = before ++ List.map (Layout.fallbackByte jsonText) (seq i n) ++ after.
Proof.
  induction n as [| n IH]; intros before old after i Hlen.
  - destruct old; [reflexivity | discriminate].
  - destruct old as [| o old]; [discriminate |]. cbn [GLTFExporter.copyCodeUnits seq List.map].
    replace (Z.of_nat (length before) - Z.of_nat i + Z.of_nat i)
      with (Z.of_nat (length before)) by lia.
    assert (Hstore :
      (if bool_decide (charCodeAt jsonText i = codePointAt jsonText i)
       then setUint8 (before ++ (o :: old) ++ after) (Z.of_nat (length before))
              (default 0 (charCodeAt jsonText i))
       else setUint8 (before ++ (o :: old) ++ after) (Z.of_nat (length before)) 95)
      = (before ++ [Layout.fallbackByte jsonText i]) ++ old ++ after).
    { unfold Layout.fallbackByte. case_bool_decide; simpl app;
        rewrite setUint8_middle, <- app_assoc; reflexivity. }
    rewrite Hstore.
    replace (Z.of_nat (length before) - Z.of_nat i)
      with (Z.of_nat (length (before ++ [Layout.fallbackByte jsonText i])) - Z.of_nat (S i))
      by (rewrite length_app; simpl; lia).
    rewrite IH by (simpl in Hlen; lia).
    now rewrite <- app_assoc.
Qed.

Lemma setUint32_at (before after : list Z) (b0 b1 b2 b3 value offset : Z) :
  offset = Z.of_nat (length before) ->
  setUint32 (before ++ [b0; b1; b2; b3] ++ after) offset value
  = before ++ GLTFExporter.bytes32 value ++ after.
Proof. intros ->. apply setUint32_middle. Qed.

Lemma typedArraySet_at (source before old after : list Z) (offset : Z) :
  offset = Z.of_nat (length before) ->
  length old = length source ->
  typedArraySet (before ++ old ++ after) offset source
  = before ++ List.map (fun b => b mod 256) source ++ after.
Proof. intros ->. apply typedArraySet_middle. Qed.

Lemma copyCodeUnits_at jsonText (n : nat) (before old after : list Z) (offset : Z) :
  offset = Z.of_nat (length before) ->
  length old = n ->
  GLTFExporter.copyCodeUnits jsonText (before ++ old ++ after) offset 0 n
  = before ++ List.map (Layout.fallbackByte jsonText) (seq 0 n) ++ after.
Proof.
  intros -> Hlen.
  rewrite <- (copyCodeUnits_middle jsonText n before old after 0 Hlen).
  f_equal. simpl. lia.
Qed.

Lemma fillView_at (n : nat) (before old after : list Z) (offset value : Z) :
  offset = Z.of_nat (length before) ->
  length old = n ->
  fillView (before ++ old ++ after) offset 0 n value
  = before ++ replicate n (value mod 256) ++ after.
Proof.
  intros -> Hlen.
  rewrite <- (fillView_middle n before old after 0 value Hlen).
  f_equal. lia.
Qed.

Lemma ArrayBuffer_add (a b : Z) :
  0 <= a -> 0 <= b -> ArrayBuffer (a + b) = ArrayBuffer a ++ ArrayBuffer b.
Proof.
  intros Ha Hb. unfold ArrayBuffer. rewrite Z2Nat.inj_add by lia. apply replicate_add.
Qed.

Lemma length_jsonPayload TextEncoder jsonText :
  Z.of_nat (length (Layout.jsonPayload TextEncoder jsonText))
  = Spec.jsonByteLength TextEncoder jsonText.
Proof.
  unfold Layout.jsonPayload, Spec.jsonByteLength.
  destruct TextEncoder; now rewrite length_map, ?length_seq.
Qed.

(** The file is the concatenation of its segments. *)
Lemma generateGLBAsync_is_container TextEncoder jsonText binaryBuffer images :
  GLTFExporter.generateGLBAsync TextEncoder jsonText binaryBuffer images
  = Layout.container TextEncoder jsonText binaryBuffer images.
Proof.
  unfold GLTFExporter.generateGLBAsync, Blob, GLTFExporter.glbData, Layout.container.
  cbv zeta.
  rewrite imageByteLength_loop, Z.add_0_l.
  rewrite length_jsonPayload. unfold Spec.jsonByteLength.
  set (jsonLength := Z.of_nat (length (match TextEncoder with
                                       | Some encode => encode jsonText
                                       | None => jsonText end))).
  assert (HjsonEq :
    match (fun encode : list Z -> list Z => encode jsonText) <$> TextEncoder with
    | Some encoded => Z.of_nat (length encoded)
    | None => Z.of_nat (length jsonText)
    end = jsonLength).
  { subst jsonLength. destruct TextEncoder; reflexivity. }
  rewrite HjsonEq.
  set (binaryByteLength := Z.of_nat (length binaryBuffer)).
  set (imageByteLength := Z.of_nat (length (concat images))).
  assert (HjsonLength : 0 <= jsonLength) by (subst jsonLength; lia).
  assert (Hbin : 0 <= binaryByteLength) by (subst binaryByteLength; lia).
  assert (Himage : 0 <= imageByteLength) by (subst imageByteLength; lia).
  pose proof (getPadding_range _ HjsonLength) as HjsonPadding.
  pose proof (getPadding_range _ Hbin) as HbinPadding.
  pose proof (getPadding_range _ Himage) as HimagePadding.
  set (jsonPadding := GLTFExporter._getPadding jsonLength) in *.
  set (binPadding := GLTFExporter._getPadding binaryByteLength) in *.
  set (imagePadding := GLTFExporter._getPadding imageByteLength) in *.
  (* the header *)
  assert (Hheader : forall total,
    setUint32 (setUint32 (setUint32 (ArrayBuffer 12) 0 0x46546C67) 4 2) 8 total
    = GLTFExporter.bytes32 0x46546C67 ++ GLTFExporter.bytes32 2 ++ GLTFExporter.bytes32 total).
  { intros total.
    change (ArrayBuffer 12) with ([] ++ [0; 0; 0; 0] ++ [0; 0; 0; 0; 0; 0; 0; 0]).
    rewrite (setUint32_at [] _ 0 0 0 0) by reflexivity.
    change ([] ++ GLTFExporter.bytes32 0x46546C67 ++ [0; 0; 0; 0; 0; 0; 0; 0])
      with (GLTFExporter.bytes32 0x46546C67 ++ [0; 0; 0; 0] ++ [0; 0; 0; 0]).
    rewrite (setUint32_at (GLTFExporter.bytes32 0x46546C67) _ 0 0 0 0 2) by reflexivity.
    replace (GLTFExporter.bytes32 0x46546C67 ++ GLTFExporter.bytes32 2 ++ [0; 0; 0; 0])
      with ((GLTFExporter.bytes32 0x46546C67 ++ GLTFExporter.bytes32 2) ++ [0; 0; 0; 0] ++ [])
      by (rewrite <- app_assoc; reflexivity).
    rewrite (setUint32_at (GLTFExporter.bytes32 0x46546C67 ++ GLTFExporter.bytes32 2)
               [] 0 0 0 0 total) by reflexivity.
    now rewrite <- app_assoc, app_nil_r. }
  rewrite Hheader.
  (* the prefix of a chunk *)
  assert (Hprefix : forall (rest : list Z) size type,
    setUint32 (setUint32 ([0; 0; 0; 0; 0; 0; 0; 0] ++ rest) 0 size) 4 type
    = GLTFExporter.bytes32 size ++ GLTFExporter.bytes32 type ++ rest).
  { intros rest size type.
    change ([0; 0; 0; 0; 0; 0; 0; 0] ++ rest) with ([] ++ [0; 0; 0; 0] ++ [0; 0; 0; 0] ++ rest).
    rewrite (setUint32_at [] _ 0 0 0 0) by reflexivity. cbn [app].
    change (GLTFExporter.bytes32 size ++ 0 :: 0 :: 0 :: 0 :: rest)
      with (GLTFExporter.bytes32 size ++ [0; 0; 0; 0] ++ rest).
    apply (setUint32_at (GLTFExporter.bytes32 size) rest 0 0 0 0 type). reflexivity. }
  assert (Hbinary : setUint32 (setUint32 (ArrayBuffer 8) 0
                                 (binaryByteLength + imageByteLength + imagePadding)) 4 0x004e4942
                    = GLTFExporter.bytes32 (binaryByteLength + imageByteLength + imagePadding)
                      ++ GLTFExporter.bytes32 0x004E4942).
  { change (ArrayBuffer 8) with ([0; 0; 0; 0; 0; 0; 0; 0] ++ []).
    rewrite Hprefix. now rewrite app_nil_r. }
  rewrite Hbinary.
  (* the JSON chunk *)
  assert (Hjson :
    fillView
      match (fun encode : list Z -> list Z => encode jsonText) <$> TextEncoder with
      | Some encoded =>
          typedArraySet
            (setUint32 (setUint32 (ArrayBuffer (8 + jsonLength + jsonPadding)) 0
                          (jsonLength + jsonPadding)) 4 0x4e4f534a) 8 encoded
      | None =>
          GLTFExporter.copyCodeUnits jsonText
            (setUint32 (setUint32 (ArrayBuffer (8 + jsonLength + jsonPadding)) 0
                          (jsonLength + jsonPadding)) 4 0x4e4f534a) 8 0 (Z.to_nat jsonLength)
      end (8 + jsonLength) 0 (Z.to_nat jsonPadding) 0x20
    = GLTFExporter.bytes32 (jsonLength + jsonPadding) ++ GLTFExporter.bytes32 0x4E4F534A
      ++ Layout.jsonPayload TextEncoder jsonText ++ replicate (Z.to_nat jsonPadding) 0x20).
  { replace (8 + jsonLength + jsonPadding) with (8 + (jsonLength + jsonPadding)) by lia.
    rewrite (ArrayBuffer_add 8 (jsonLength + jsonPadding)) by lia.
    rewrite (ArrayBuffer_add jsonLength jsonPadding) by lia.
    change (ArrayBuffer 8) with [0; 0; 0; 0; 0; 0; 0; 0].
    rewrite Hprefix.
    set (prefix := GLTFExporter.bytes32 (jsonLength + jsonPadding)
                   ++ GLTFExporter.bytes32 0x4E4F534A).
    assert (Hplen : length prefix = 8%nat) by reflexivity.
    assert (Hwritten :
      match (fun encode : list Z -> list Z => encode jsonText) <$> TextEncoder with
      | Some encoded =>
          typedArraySet (GLTFExporter.bytes32 (jsonLength + jsonPadding)
                         ++ GLTFExporter.bytes32 0x4e4f534a
                         ++ ArrayBuffer jsonLength ++ ArrayBuffer jsonPadding) 8 encoded
      | None =>
          GLTFExporter.copyCodeUnits jsonText
            (GLTFExporter.bytes32 (jsonLength + jsonPadding)
             ++ GLTFExporter.bytes32 0x4e4f534a
             ++ ArrayBuffer jsonLength ++ ArrayBuffer jsonPadding) 8 0 (Z.to_nat jsonLength)
      end
      = (prefix ++ Layout.jsonPayload TextEncoder jsonText) ++ ArrayBuffer jsonPadding ++ []).
    { rewrite app_nil_r, <- app_assoc.
      replace (GLTFExporter.bytes32 (jsonLength + jsonPadding)
               ++ GLTFExporter.bytes32 0x4e4f534a
               ++ ArrayBuffer jsonLength ++ ArrayBuffer jsonPadding)
        with (prefix ++ ArrayBuffer jsonLength ++ ArrayBuffer jsonPadding)
        by (subst prefix; now rewrite <- app_assoc).
      subst jsonLength. destruct TextEncoder as [encode |]; cbn [fmap option_fmap option_map].
      - apply typedArraySet_at; [rewrite Hplen; reflexivity |].
        unfold ArrayBuffer. rewrite length_replicate. lia.
      - unfold Layout.jsonPayload.
        rewrite Nat2Z.id.
        apply copyCodeUnits_at; [rewrite Hplen; reflexivity |].
        unfold ArrayBuffer. rewrite length_replicate. lia. }
    rewrite Hwritten.
    rewrite fillView_at.
    2:{ rewrite length_app, Nat2Z.inj_add, length_jsonPayload, Hplen.
        unfold Spec.jsonByteLength. fold jsonLength. lia. }
    2:{ unfold ArrayBuffer; rewrite length_replicate; lia. }
    subst prefix. rewrite app_nil_r, <- !app_assoc. reflexivity. }
  rewrite Hjson.
  (* the paddings *)
  assert (Hpad : forall n, 0 <= n -> fillView (ArrayBuffer n) 0 0 (Z.to_nat n) 0
                                     = replicate (Z.to_nat n) 0).
  { intros n Hn.
    pose proof (fillView_at (Z.to_nat n) [] (ArrayBuffer n) [] 0 0 eq_refl) as Hfill.
    simpl in Hfill. rewrite !app_nil_r in Hfill. apply Hfill.
    unfold ArrayBuffer. now rewrite length_replicate. }
  rewrite !Hpad by lia.
  cbn [concat app]. rewrite concat_app. cbn [concat].
  rewrite <- !app_assoc, app_nil_r. reflexivity.
Qed.

(** X1.  The binary container is, byte for byte, the header (magic,
    version 2, total length), the JSON chunk (its length with the padding,
    its type, the bytes of the text, the padding of spaces), the prefix of
    the binary chunk (its declared length and its type), the geometry
    bytes, the images in their order, and the two runs of zero bytes that
    pad the geometry and the images. *)
Theorem generateGLBAsync_layout TextEncoder jsonText binaryBuffer images :
  GLTFExporter.generateGLBAsync TextEncoder jsonText binaryBuffer images
  = Layout.container TextEncoder jsonText binaryBuffer images.
Proof. apply generateGLBAsync_is_container. Qed.

(** ** Reading the indices back *)

Lemma getUint16_bytes16 (v : Z) (rest : list Z) :
  0 <= v < 2 ^ 16 -> Reader.getUint16 (GLTFExporter.bytes16 v ++ rest) 0 = Some v.
Proof.
  intros Hv. unfold Reader.getUint16, GLTFExporter.bytes16. cbn [app lookup list_lookup].
  f_equal. rewrite (Z.mod_small v) by lia.
  change (2 ^ 8) with 256. pose proof (Z.div_mod v 256). lia.
Qed.

Lemma getUint32_bytes32 (v : Z) (rest : list Z) :
  0 <= v < 2 ^ 32 -> getUint32 (GLTFExporter.bytes32 v ++ rest) 0 = Some v.
Proof.
  intros Hv. unfold getUint32, GLTFExporter.bytes32. cbn [app lookup list_lookup].
  f_equal. rewrite (Z.mod_small v) by lia.
  change (2 ^ 8) with 256. change (2 ^ 16) with 65536. change (2 ^ 24) with 16777216.
  Z.div_mod_to_equations. lia.
Qed.

Lemma getUint16_drop (bytes : list Z) (n j : nat) :
  Reader.getUint16 (drop n bytes) j = Reader.getUint16 bytes (n + j).
Proof.
  unfold Reader.getUint16. rewrite !lookup_drop.
  replace (n + S j)%nat with (S (n + j)) by lia. reflexivity.
Qed.

Lemma getUint32_drop (bytes : list Z) (n j : nat) :
  getUint32 (drop n bytes) j = getUint32 bytes (n + j).
Proof.
  unfold getUint32. rewrite !lookup_drop.
  replace (n + S j)%nat with (S (n + j)) by lia.
  replace (n + S (S j))%nat with (S (S (n + j))) by lia.
  replace (n + S (S (S j)))%nat with (S (S (S (n + j)))) by lia.
  reflexivity.
Qed.

Lemma length_flat_map_const {A B : Type} (f : A -> list B) (n : nat) (l : list A) :
  (forall x, length (f x) = n) -> length (flat_map f l) = (n * length l)%nat.
Proof.
  intros Hf. induction l as [| x rest IH]; simpl; [lia |].
  rewrite length_app, Hf, IH. lia.
Qed.

Lemma flat_map_bytes16_read (values : list Z) : forall (k : nat) (v : Z),
  values !! k = Some v -> 0 <= v < 2 ^ 16 ->
  Reader.getUint16 (flat_map GLTFExporter.bytes16 values) (2 * k) = Some v.
Proof.
  induction values as [| first rest IH]; intros k v Hk Hv; [rewrite lookup_nil in Hk; discriminate |].
  destruct k as [| k].
  - injection Hk as ->. simpl flat_map. now apply getUint16_bytes16.
  - simpl in Hk. simpl flat_map.
    replace (2 * S k)%nat with (2 + 2 * k)%nat by lia.
    rewrite <- getUint16_drop. apply IH; assumption.
Qed.

Lemma flat_map_bytes32_read (values : list Z) : forall (k : nat) (v : Z),
  values !! k = Some v -> 0 <= v < 2 ^ 32 ->
  getUint32 (flat_map GLTFExporter.bytes32 values) (4 * k) = Some v.
Proof.
  induction values as [| first rest IH]; intros k v Hk Hv; [rewrite lookup_nil in Hk; discriminate |].
  destruct k as [| k].
  - injection Hk as ->. simpl flat_map. now apply getUint32_bytes32.
  - simpl in Hk. simpl flat_map.
    replace (4 * S k)%nat with (4 + 4 * k)%nat by lia.
    rewrite <- getUint32_drop. apply IH; assumption.
Qed.

Lemma existsb_false_below (values : list Z) (k : nat) (v : Z) :
  existsb (fun value => 65536 <=? value) values = false ->
  values !! k = Some v -> v < 65536.
Proof.
  intros Hnone Hk.
  destruct (Z.leb_spec 65536 v) as [Hle | Hlt]; [| exact Hlt].
  exfalso. assert (Hsome : existsb (fun value => 65536 <=? value) values = true).
  { apply existsb_exists. exists v. split; [| now apply Z.leb_le].
    apply list_elem_of_In. eapply list_elem_of_lookup_2, Hk. }
  congruence.
Qed.

Lemma indices_round_trip (indices : Babylon.IndicesData) (k : nat) (v : Z) :
  Reader.areIndices indices ->
  Reader.values indices !! k = Some v ->
  let is32Bits := GLTFExporter.isIndicesArray32Bits indices in
  Reader.readIndex (GLTFExporter.indicesArrayToUint8Array indices is32Bits)
    (if is32Bits then GLTFExporter.UNSIGNED_INT else GLTFExporter.UNSIGNED_SHORT) k
  = Some v
  /\ length (GLTFExporter.indicesArrayToUint8Array indices is32Bits)
     = ((if is32Bits then 4 else 2) * length (Reader.values indices))%nat.
Proof.
  intros Hrange Hk. cbv zeta. unfold Reader.readIndex.
  destruct indices as [values | values | values | values]; cbn in Hk, Hrange |- *.
  - destruct (existsb _ values) eqn:Hwide; cbn.
    + split; [| first [rewrite (length_flat_map_const GLTFExporter.bytes32 4) by reflexivity | rewrite (length_flat_map_const GLTFExporter.bytes16 2) by reflexivity]; lia].
      apply flat_map_bytes32_read; [exact Hk |].
      eapply (proj1 (Forall_lookup _ _) Hrange), Hk.
    + split; [| first [rewrite (length_flat_map_const GLTFExporter.bytes32 4) by reflexivity | rewrite (length_flat_map_const GLTFExporter.bytes16 2) by reflexivity]; lia].
      apply flat_map_bytes16_read; [exact Hk |].
      pose proof (proj1 (Forall_lookup _ _) Hrange _ _ Hk) as Hv. cbv beta in Hv.
      pose proof (existsb_false_below _ _ _ Hwide Hk). lia.
  - split; [| first [rewrite (length_flat_map_const GLTFExporter.bytes32 4) by reflexivity | rewrite (length_flat_map_const GLTFExporter.bytes16 2) by reflexivity]; lia].
    apply flat_map_bytes32_read; [exact Hk |].
    pose proof (proj1 (Forall_lookup _ _) Hrange _ _ Hk) as Hv. cbv beta in Hv. lia.
  - split; [| first [rewrite (length_flat_map_const GLTFExporter.bytes32 4) by reflexivity | rewrite (length_flat_map_const GLTFExporter.bytes16 2) by reflexivity]; lia].
    apply flat_map_bytes32_read; [exact Hk |].
    eapply (proj1 (Forall_lookup _ _) Hrange), Hk.
  - split; [| first [rewrite (length_flat_map_const GLTFExporter.bytes32 4) by reflexivity | rewrite (length_flat_map_const GLTFExporter.bytes16 2) by reflexivity]; lia].
    apply flat_map_bytes16_read; [exact Hk |].
    eapply (proj1 (Forall_lookup _ _) Hrange), Hk.
Qed.

(** X11.  An array of indices is encoded without loss: with the width that
    [isIndicesArray32Bits] chooses and the component type that
    [_exportIndices] declares for it, a reader gets every index back from
    the bytes, and the bytes are 2 or 4 for each index. *)
Theorem indices_are_read_back (indices : Babylon.IndicesData) (k : nat) (v : Z) :
  Reader.areIndices indices ->
  Reader.values indices !! k = Some v ->
  let is32Bits := GLTFExporter.isIndicesArray32Bits indices in
  Reader.readIndex (GLTFExporter.indicesArrayToUint8Array indices is32Bits)
    (if is32Bits then GLTFExporter.UNSIGNED_INT else GLTFExporter.UNSIGNED_SHORT) k
  = Some v
  /\ length (GLTFExporter.indicesArrayToUint8Array indices is32Bits)
     = ((if is32Bits then 4 else 2) * length (Reader.values indices))%nat.
Proof. apply indices_round_trip. Qed.

Lemma indices_are_read_back_witness :
  Reader.areIndices (Babylon.NumberArray [0; 70000; 2])
  /\ Reader.readIndex
       (GLTFExporter.indicesArrayToUint8Array (Babylon.NumberArray [0; 70000; 2]) true)
       GLTFExporter.UNSIGNED_INT 1
     = Some 70000
  /\ length (GLTFExporter.indicesArrayToUint8Array (Babylon.NumberArray [0; 70000; 2]) true)
     = 12%nat.
Proof.
  assert (Hrange : Reader.areIndices (Babylon.NumberArray [0; 70000; 2])).
  { repeat constructor; lia. }
  split; [exact Hrange |].
  exact (indices_are_read_back (Babylon.NumberArray [0; 70000; 2]) 1 70000 Hrange eq_refl).
Defined.

Lemma getPadding_aligns (L : Z) : 0 <= L -> (L + GLTFExporter._getPadding L) mod 4 = 0.
Proof.
  intros HL. pose proof (Z.mod_pos_bound L 4 ltac:(lia)) as Hmod.
  destruct (getPadding_cases L HL) as [[Hz ->] | [Hnz ->]].
  - now rewrite Z.add_0_r.
  - replace (L + (4 - L mod 4)) with (L - L mod 4 + 1 * 4) by lia.
    rewrite Z.mod_add by lia. Z.div_mod_to_equations. lia.
Qed.

(** X2.  The length of the container and the offset at which its binary
    chunk starts are multiples of 4, and the type of the binary chunk is
    read four bytes after that offset. *)
Theorem glb_is_aligned TextEncoder jsonText binaryBuffer images :
  let payload := Layout.jsonPayload TextEncoder jsonText in
  let binaryChunkStart :=
    20 + Z.of_nat (length payload) + GLTFExporter._getPadding (Z.of_nat (length payload)) in
  Z.of_nat (length (GLTFExporter.generateGLBAsync TextEncoder jsonText binaryBuffer images))
    mod 4 = 0
  /\ binaryChunkStart mod 4 = 0
  /\ getUint32 (GLTFExporter.generateGLBAsync TextEncoder jsonText binaryBuffer images)
       (Z.to_nat binaryChunkStart + 4)
     = Some 0x004E4942.
Proof.
  cbv zeta. rewrite generateGLBAsync_is_container. unfold Layout.container. cbv zeta.
  set (payload := Layout.jsonPayload TextEncoder jsonText).
  set (jsonLength := Z.of_nat (length payload)).
  set (binaryByteLength := Z.of_nat (length binaryBuffer)).
  set (imageByteLength := Z.of_nat (length (concat images))).
  assert (HjsonLength : 0 <= jsonLength) by (subst jsonLength; lia).
  assert (Hbin : 0 <= binaryByteLength) by (subst binaryByteLength; lia).
  assert (Himage : 0 <= imageByteLength) by (subst imageByteLength; lia).
  pose proof (getPadding_range _ HjsonLength) as HjsonPadding.
  pose proof (getPadding_range _ Hbin) as HbinPadding.
  pose proof (getPadding_range _ Himage) as HimagePadding.
  pose proof (getPadding_aligns _ HjsonLength) as HjsonAligned.
  pose proof (getPadding_aligns _ Hbin) as HbinAligned.
  pose proof (getPadding_aligns _ Himage) as HimageAligned.
  set (jsonPadding := GLTFExporter._getPadding jsonLength) in *.
  set (binPadding := GLTFExporter._getPadding binaryByteLength) in *.
  set (imagePadding := GLTFExporter._getPadding imageByteLength) in *.
  assert (Hbytes32 : forall v, length (GLTFExporter.bytes32 v) = 4%nat) by reflexivity.
  split; [| split].
  - rewrite !length_app, !Hbytes32, !length_replicate.
    fold payload. 
    replace (Z.of_nat (4 + (4 + (4 + (4 + (4 + (length payload
               + (Z.to_nat jsonPadding
                  + (4 + (4 + (length binaryBuffer
                              + (length (concat images)
                                 + (Z.to_nat binPadding + Z.to_nat imagePadding)))))))))))))
      with ((jsonLength + jsonPadding) + (binaryByteLength + binPadding)
            + (imageByteLength + imagePadding) + 7 * 4)
      by (subst jsonLength binaryByteLength imageByteLength; lia).
    rewrite Z.mod_add by lia.
    rewrite Z.add_mod, (Z.add_mod (jsonLength + jsonPadding)) by lia.
    rewrite HjsonAligned, HbinAligned, HimageAligned. reflexivity.
  - replace (20 + jsonLength + jsonPadding) with (jsonLength + jsonPadding + 5 * 4) by lia.
    rewrite Z.mod_add by lia. exact HjsonAligned.
  - match goal with
    | |- getUint32 (?a ++ ?b ++ ?c ++ ?d ++ ?f ++ ?g ++ ?h ++ ?i ++ ?rest) _ = _ =>
        replace (a ++ b ++ c ++ d ++ f ++ g ++ h ++ i ++ rest)
          with ((a ++ b ++ c ++ d ++ f ++ g ++ h ++ i) ++ rest)
          by (now rewrite <- !app_assoc);
        assert (Hprefix : length (a ++ b ++ c ++ d ++ f ++ g ++ h ++ i)
                          = (Z.to_nat (20 + jsonLength + jsonPadding) + 4)%nat)
    end.
    { rewrite !length_app, !Hbytes32, length_replicate. fold payload.
      subst jsonLength. lia. }
    rewrite getUint32_app_r by lia. rewrite Hprefix, Nat.sub_diag.
    apply getUint32_bytes32. lia.
Qed.

(** X3.  Without a [TextEncoder], each code unit of the text gives one byte:
    the blank [_] for a lead surrogate that is followed by a trail
    surrogate, and the code unit modulo 256 for any other.  A text whose
    code units are all below 256 is copied as it is. *)
Theorem glb_text_without_encoder (jsonText binaryBuffer : list Z) (images : list (list Z)) :
  (forall (i : nat) (c : Z),
      jsonText !! i = Some c ->
      GLTFExporter.generateGLBAsync None jsonText binaryBuffer images !! (20 + i)%nat
      = Some (if isLeadSurrogate c
                 && default false (isTrailSurrogate <$> jsonText !! S i)
              then 95 else c mod 256))
  /\ (Forall (fun c => 0 <= c < 256) jsonText ->
      take (length jsonText)
        (drop 20 (GLTFExporter.generateGLBAsync None jsonText binaryBuffer images))
      = jsonText).
Proof.
  rewrite generateGLBAsync_is_container. unfold Layout.container. cbv zeta.
  assert (Hbytes32 : forall v, length (GLTFExporter.bytes32 v) = 4%nat) by reflexivity.
  assert (Hbyte : forall (i : nat) (c : Z),
    jsonText !! i = Some c ->
    Layout.fallbackByte jsonText i
    = (if isLeadSurrogate c && default false (isTrailSurrogate <$> jsonText !! S i)
       then 95 else c mod 256)).
  { intros i c Hc. unfold Layout.fallbackByte, charCodeAt, codePointAt. rewrite Hc.
    destruct (isLeadSurrogate c) eqn:Hlead; cbn [andb].
    - destruct (jsonText !! S i) as [second |]; cbn [fmap option_fmap option_map default].
      + destruct (isTrailSurrogate second) eqn:Htrail.
        * rewrite bool_decide_eq_false_2; [reflexivity |].
          unfold isLeadSurrogate, isTrailSurrogate in *. intros Heq. injection Heq as Heq. lia.
        * now rewrite bool_decide_eq_true_2.
      + now rewrite bool_decide_eq_true_2.
    - now rewrite bool_decide_eq_true_2. }
  assert (Hpayload : forall (i : nat) (c : Z),
    jsonText !! i = Some c ->
    Layout.jsonPayload None jsonText !! i = Some (Layout.fallbackByte jsonText i)).
  { intros i c Hc. unfold Layout.jsonPayload.
    rewrite list_lookup_fmap, lookup_seq_lt by (eapply lookup_lt_Some, Hc). reflexivity. }
  split.
  - intros i c Hc.
    do 5 (rewrite lookup_app_r by (rewrite Hbytes32; lia); rewrite Hbytes32).
    replace (20 + i - 4 - 4 - 4 - 4 - 4)%nat with i by lia.
    rewrite lookup_app_l.
    2:{ unfold Layout.jsonPayload. rewrite length_map, length_seq. eapply lookup_lt_Some, Hc. }
    rewrite (Hpayload i c Hc). f_equal. now apply Hbyte.
  - intros Hlatin.
    do 5 (rewrite drop_app_ge by (rewrite Hbytes32; lia); rewrite Hbytes32).
    replace (20 - 4 - 4 - 4 - 4 - 4)%nat with 0%nat by lia. rewrite drop_0.
    assert (Hsame : Layout.jsonPayload None jsonText = jsonText).
    { apply list_eq. intros i. destruct (jsonText !! i) as [c |] eqn:Hc.
      - rewrite (Hpayload i c Hc), (Hbyte i c Hc).
        pose proof (proj1 (Forall_lookup _ _) Hlatin i c Hc) as Hrange. cbv beta in Hrange.
        replace (isLeadSurrogate c) with false
          by (unfold isLeadSurrogate; lia).
        cbn [andb]. now rewrite Z.mod_small by lia.
      - apply lookup_ge_None. apply lookup_ge_None in Hc.
        unfold Layout.jsonPayload. now rewrite length_map, length_seq. }
    rewrite Hsame. apply take_app_length.
Qed.

(** ** The relocation of the images *)

Lemma createBufferView_offset (bufferIndex byteOffset byteLength : Z) byteStride name :
  default 0 (IBufferView.byteOffset
               (createBufferView bufferIndex byteOffset byteLength byteStride name))
  = byteOffset.
Proof. unfold createBufferView. simpl. destruct (Z.eqb_spec byteOffset 0); simpl; congruence. Qed.

Lemma concat_slice {A : Type} (parts : list (list A)) (k : nat) (part : list A) (before : list A) :
  parts !! k = Some part ->
  take (length part) (drop (length before + length (concat (take k parts)))
                        (before ++ concat parts))
  = part.
Proof.
  intros Hk.
  rewrite <- (take_drop_middle parts k part Hk) at 2.
  rewrite concat_app. cbn [concat].
  rewrite drop_app_ge by lia.
  replace (length before + length (concat (take k parts)) - length before)%nat
    with (length (concat (take k parts))) by lia.
  rewrite drop_app_length. apply take_app_length.
Qed.

Section Relocation.
Context {elements : Assembler.ElementTypes}.
Import Assembler RelocationFacts.

Lemma extends_refl (r : Relocation) : extends r r.
Proof.
  exists [], [], []. rewrite !app_nil_r. simpl. repeat split; try lia.
  intros k entry Hk. rewrite lookup_nil in Hk. discriminate.
Qed.

Lemma relocateImage_extends imageData (r r' : Relocation) (image : IImage.t) :
  relocateImage imageData r image = Normal r' -> extends r r'.
Proof.
  unfold relocateImage. intros Hstep.
  destruct (IImage.uri image) as [uri |].
  2:{ injection Hstep as <-. exists [], [], []. simpl. rewrite !app_nil_r.
      repeat split; try lia. intros k entry Hk. rewrite lookup_nil in Hk. discriminate. }
  destruct (String.eqb uri EmptyString).
  { injection Hstep as <-. exists [], [], []. simpl. rewrite !app_nil_r.
    repeat split; try lia. intros k entry Hk. rewrite lookup_nil in Hk. discriminate. }
  destruct (imageData !! uri) as [entry |]; [| discriminate].
  injection Hstep as <-. cbn [byteOffset ordered views relocated].
  eexists [entry], [_], [_]. cbn [byteOffset ordered views relocated].
  split; [reflexivity |]. split; [reflexivity |]. split; [reflexivity |].
  split; [simpl; rewrite app_nil_r; reflexivity |].
  split; [reflexivity |]. split; [reflexivity |].
  intros k entry' Hk. destruct k as [| k]; [| rewrite lookup_cons, lookup_nil in Hk; discriminate].
  injection Hk as <-. eexists _, _. split; [reflexivity |]. split; [reflexivity |].
  cbn [IImage.bufferView IImage.uri IImage.mimeType].
  split; [f_equal; rewrite length_app; simpl; lia |].
  split; [reflexivity |]. split; [reflexivity |].
  split; [reflexivity |]. split; [reflexivity |].
  rewrite createBufferView_offset. simpl. lia.
Qed.

Lemma extends_trans (r0 r1 r2 : Relocation) : extends r0 r1 -> extends r1 r2 -> extends r0 r2.
Proof.
  intros (entries1 & views1 & images1 & Ho1 & Hv1 & Hr1 & Hb1 & Hlv1 & Hli1 & Hk1)
         (entries2 & views2 & images2 & Ho2 & Hv2 & Hr2 & Hb2 & Hlv2 & Hli2 & Hk2).
  exists (entries1 ++ entries2), (views1 ++ views2), (images1 ++ images2).
  split; [rewrite Ho2, Ho1; now rewrite app_assoc |].
  split; [rewrite Hv2, Hv1; now rewrite app_assoc |].
  split; [rewrite Hr2, Hr1; now rewrite app_assoc |].
  split; [rewrite Hb2, Hb1, map_app, concat_app, length_app; lia |].
  split; [rewrite !length_app; lia |]. split; [rewrite !length_app; lia |].
  intros k entry Hk.
  destruct (Nat.lt_ge_cases k (length entries1)) as [Hlt | Hge].
  - rewrite lookup_app_l in Hk by lia.
    destruct (Hk1 k entry Hk) as (view & image & Hview & Himage & Hrest).
    exists view, image.
    rewrite lookup_app_l by lia. rewrite lookup_app_l by lia.
    split; [exact Hview |]. split; [exact Himage |].
    rewrite take_app_le by lia. exact Hrest.
  - rewrite lookup_app_r in Hk by lia.
    destruct (Hk2 _ entry Hk) as (view & image & Hview & Himage & Hbv & Huri & Hmime & Hbuf
                                  & Hlen & Hoff).
    exists view, image.
    rewrite lookup_app_r by lia. rewrite lookup_app_r by lia.
    rewrite Hlv1, Hli1.
    split; [exact Hview |]. split; [exact Himage |].
    split.
    { rewrite Hbv, Hv1, length_app. f_equal. lia. }
    split; [exact Huri |]. split; [exact Hmime |]. split; [exact Hbuf |]. split; [exact Hlen |].
    rewrite Hoff, Hb1.
    rewrite take_app_ge by lia.
    rewrite map_app, concat_app, length_app. lia.
Qed.

Lemma forEachImage_extends imageData (images : list IImage.t) : forall (r r' : Relocation),
  forEachImage imageData images r = Normal r' -> extends r r'.
Proof.
  induction images as [| image rest IH]; intros r r' Hrun; simpl in Hrun.
  - injection Hrun as <-. apply extends_refl.
  - destruct (relocateImage imageData r image) as [r1 |] eqn:Hstep; [| discriminate].
    eapply extends_trans; [eapply relocateImage_extends; exact Hstep | apply IH, Hrun].
Qed.

(** X4.  In a binary export every image of the document refers, by its
    index, to a buffer view of buffer 0 that designates exactly the bytes of
    that image in the binary payload of the container (the geometry bytes
    followed by the images in the order of [_orderedImageData]); the image
    has lost its [uri] and carries the MIME type of its data. *)

Theorem relocated_images_address_their_bytes
    (bufferByteLength : Z) (fileName : option string) (e e' : Assembler.t)
    (_glTF doc : Assembler.IGLTF)
    (binaryBuffer : list Z) :
  _generateJSON true bufferByteLength fileName e _glTF = Normal (doc, e') ->
  _images e <> [] ->
  _orderedImageData e = [] ->
  Z.of_nat (length binaryBuffer) = bufferByteLength ->
  exists images,
    Assembler.images doc = Some images
    /\ length images = length (_orderedImageData e')
    /\ forall (k : nat) (image : IImage.t),
         images !! k = Some image ->
         exists (v : nat) (view : IBufferView.t) (entry : ImageData),
           IImage.bufferView image = Some (Z.of_nat v)
           /\ IImage.uri image = None
           /\ IImage.mimeType image = Some (mimeType entry)
           /\ _bufferViews e' !! v = Some view
           /\ _orderedImageData e' !! k = Some entry
           /\ IBufferView.buffer view = 0
           /\ take (Z.to_nat (IBufferView.byteLength view))
                (drop (Z.to_nat (default 0 (IBufferView.byteOffset view)))
                   (binaryBuffer ++ concat (List.map data (_orderedImageData e'))))
              = data entry.
Proof.
  intros Hrun Himages Hfresh Hlength. unfold _generateJSON in Hrun.
  destruct (_images e) as [| image0 rest] eqn:Hlist; [contradiction |].
  cbn [negb] in Hrun.
  destruct (forEachImage (_imageData e) (image0 :: rest) _) as [r |] eqn:Hloop; [| discriminate].
  injection Hrun as <- <-. cbn [Assembler.images _bufferViews _orderedImageData].
  apply forEachImage_extends in Hloop.
  destruct Hloop as (entries & newViews & newImages & Ho & Hv & Hr & Hb & Hlv & Hli & Hk).
  cbn [ordered views relocated byteOffset] in *.
  rewrite Hfresh in Ho. cbn [app] in *. subst bufferByteLength.
  exists newImages. split; [now rewrite Hr |]. split; [rewrite Ho; lia |].
  intros k image Himage.
  assert (Hklt : (k < length entries)%nat).
  { rewrite <- Hli. eapply lookup_lt_Some, Himage. }
  destruct (lookup_lt_is_Some_2 entries k Hklt) as [entry Hentry].
  destruct (Hk k entry Hentry) as (view & image' & Hview & Himage' & Hbv & Huri & Hmime & Hbuf
                                   & Hlen & Hoff).
  rewrite Himage in Himage'. injection Himage' as <-.
  exists (length (_bufferViews e) + k)%nat, view, entry.
  split; [exact Hbv |]. split; [exact Huri |]. split; [exact Hmime |].
  split; [rewrite Hv, lookup_app_r by lia;
          replace (length (_bufferViews e) + k - length (_bufferViews e))%nat with k by lia;
          exact Hview |].
  split; [rewrite Ho; exact Hentry |]. split; [exact Hbuf |].
  rewrite Hlen, Hoff, Ho, Nat2Z.id.
  rewrite <- Nat2Z.inj_add, Nat2Z.id.
  pose proof (concat_slice (List.map data entries) k (data entry) binaryBuffer) as Hslice.
  rewrite list_lookup_fmap, Hentry in Hslice.
  rewrite <- fmap_take in Hslice. apply Hslice. reflexivity.
Qed.

(** X5.  In a binary export the one buffer of the document has the length of
    the geometry bytes and of all the relocated images together, which is
    the length of what the container holds before its padding.  The buffer
    is listed only when there are geometry bytes, and the buffer views only
    when there was one before the images were relocated. *)
Theorem generateJSON_buffer_counts_images
    (bufferByteLength : Z) (fileName : option string)
    (e e' : Assembler.t) (_glTF doc : Assembler.IGLTF) :
  _generateJSON true bufferByteLength fileName e _glTF = Normal (doc, e') ->
  _orderedImageData e = [] ->
  Assembler.buffers doc
  = (if bufferByteLength =? 0 then Assembler.buffers _glTF
     else Some [{| IBuffer.byteLength :=
                     bufferByteLength
                     + Z.of_nat (length (concat (List.map data (_orderedImageData e'))));
                   IBuffer.uri := None |}])
  /\ Assembler.bufferViews doc
     = match _bufferViews e with
       | [] => Assembler.bufferViews _glTF
       | _ :: _ => Some (_bufferViews e')
       end
  /\ _bufferViews e `prefix_of` _bufferViews e'
  /\ length (_bufferViews e')
     = (length (_bufferViews e) + length (_orderedImageData e'))%nat.
Proof.
  intros Hrun Hfresh. unfold _generateJSON in Hrun.
  destruct (_images e) as [| image0 rest] eqn:Hlist.
  - injection Hrun as <- <-. cbn. rewrite Hfresh. cbn. rewrite Z.add_0_r.
    destruct (bufferByteLength =? 0); cbn; destruct (_bufferViews e);
      repeat split; try reflexivity; lia.
  - cbn [negb] in Hrun.
    destruct (forEachImage (_imageData e) (image0 :: rest) _) as [r |] eqn:Hloop; [| discriminate].
    injection Hrun as <- <-. cbn.
    apply forEachImage_extends in Hloop.
    destruct Hloop as (entries & newViews & newImages & Ho & Hv & Hr & Hb & Hlv & Hli & Hk).
    cbn in Ho, Hv, Hr, Hb. rewrite Hfresh in Ho. cbn in Ho.
    rewrite Ho, Hv, Hb, length_app, Hlv.
    destruct (bufferByteLength =? 0); cbn; destruct (_bufferViews e);
      repeat split; try reflexivity; try (apply prefix_app_r; reflexivity);
      apply prefix_nil.
Qed.

End Relocation.

Lemma relocated_images_address_their_bytes_witness :
  match Assembler._generateJSON true 8 None Scenarios.withImage Scenarios.emptyDocument with
  | Normal (doc, e') =>
      exists images,
        Assembler.images doc = Some images
        /\ length images = length (Assembler._orderedImageData e')
        /\ forall (k : nat) (image : Assembler.IImage.t),
             images !! k = Some image ->
             exists (v : nat) (view : IBufferView.t) (entry : Assembler.ImageData),
               Assembler.IImage.bufferView image = Some (Z.of_nat v)
               /\ Assembler.IImage.uri image = None
               /\ Assembler.IImage.mimeType image = Some (Assembler.mimeType entry)
               /\ Assembler._bufferViews e' !! v = Some view
               /\ Assembler._orderedImageData e' !! k = Some entry
               /\ IBufferView.buffer view = 0
               /\ take (Z.to_nat (IBufferView.byteLength view))
                    (drop (Z.to_nat (default 0 (IBufferView.byteOffset view)))
                       (Scenarios.geometryBytes
                        ++ concat (List.map Assembler.data (Assembler._orderedImageData e'))))
                  = Assembler.data entry
  | Throw _ => False
  end.
Proof.
  destruct (Assembler._generateJSON true 8 None Scenarios.withImage Scenarios.emptyDocument)
    as [[doc e'] | message] eqn:Hrun; [| vm_compute in Hrun; discriminate Hrun].
  apply (relocated_images_address_their_bytes 8 None Scenarios.withImage e'
           Scenarios.emptyDocument doc Scenarios.geometryBytes Hrun);
    [discriminate | reflexivity | reflexivity].
Defined.

Lemma generateJSON_buffer_counts_images_witness :
  match Assembler._generateJSON true 8 None Scenarios.withImage Scenarios.emptyDocument with
  | Normal (doc, e') =>
      Assembler.buffers doc
      = Some [{| Assembler.IBuffer.byteLength :=
                   8 + Z.of_nat (length (concat (List.map Assembler.data
                                                   (Assembler._orderedImageData e'))));
                 Assembler.IBuffer.uri := None |}]
      /\ Assembler.bufferViews doc = Assembler.bufferViews Scenarios.emptyDocument
      /\ Assembler._bufferViews Scenarios.withImage `prefix_of` Assembler._bufferViews e'
      /\ length (Assembler._bufferViews e')
         = (length (Assembler._bufferViews Scenarios.withImage)
            + length (Assembler._orderedImageData e'))%nat
  | Throw _ => False
  end.
Proof.
  destruct (Assembler._generateJSON true 8 None Scenarios.withImage Scenarios.emptyDocument)
    as [[doc e'] | message] eqn:Hrun; [| vm_compute in Hrun; discriminate Hrun].
  exact (generateJSON_buffer_counts_images 8 None Scenarios.withImage e'
           Scenarios.emptyDocument doc Hrun eq_refl).
Defined.

(** ** The registry of the extensions *)

Lemma registry_indexOfFrom_absent (names : list string) (name : string) (i : Z) :
  name ∉ names -> Registry.indexOfFrom names name i = -1.
Proof.
  revert i. induction names as [| n rest IH]; intros i Habsent; simpl; [reflexivity |].
  destruct (String.eqb_spec n name) as [-> | _].
  - exfalso. apply Habsent. left.
  - apply IH. intros Hin. apply Habsent. now right.
Qed.

Lemma registry_indexOfFrom_present (before after : list string) (name : string) (i : Z) :
  name ∉ before ->
  Registry.indexOfFrom (before ++ name :: after) name i = i + Z.of_nat (length before).
Proof.
  revert i. induction before as [| n rest IH]; intros i Habsent; simpl.
  - rewrite String.eqb_refl. lia.
  - destruct (String.eqb_spec n name) as [-> | _].
    + exfalso. apply Habsent. left.
    + rewrite IH; [lia |]. intros Hin. apply Habsent. now right.
Qed.

Lemma splice_one {A : Type} (before after : list A) (x : A) :
  GLTFExporter.splice (before ++ x :: after) (Z.of_nat (length before)) 1 = before ++ after.
Proof.
  unfold GLTFExporter.splice. rewrite length_app. simpl length.
  destruct (Z.ltb_spec (Z.of_nat (length before)) 0) as [Hneg | _]; [lia |].
  rewrite Z.min_l by lia.
  replace (Z.min (Z.max 1 0) _) with 1 by lia.
  rewrite Nat2Z.id.
  replace (Z.to_nat (Z.of_nat (length before) + 1)) with (length before + 1)%nat by lia.
  rewrite take_app_length.
  rewrite drop_app_ge by lia.
  replace (length before + 1 - length before)%nat with 1%nat by lia.
  reflexivity.
Qed.

Lemma filter_keeps_all {A : Type} (P : A -> Prop) `{forall x, Decision (P x)} (l : list A) :
  Forall P l -> filter P l = l.
Proof.
  induction 1 as [| x rest Hx _ IH]; [reflexivity |].
  rewrite filter_cons_True by exact Hx. now rewrite IH.
Qed.

Section RegistryFacts.
Context {Exporter Extension : Type}.
Context (inherited : string -> option (@Registry.Factory Exporter Extension)).

(** What [UnregisterExtension] leaves of the names: the names without the
    first occurrence of [name]. *)
Lemma unregister_names (name : string) (r : Registry.t) :
  NoDup (Registry._ExtensionNames r) ->
  is_Some (Registry.factoryOf inherited r name) ->
  Registry._ExtensionNames (Registry.UnregisterExtension inherited name r).2
  = filter (fun n => n <> name) (Registry._ExtensionNames r).
Proof.
  intros Hnodup [factory Hfactory]. unfold Registry.UnregisterExtension. rewrite Hfactory.
  cbn [snd Registry._ExtensionNames].
  destruct (decide (name ∈ Registry._ExtensionNames r)) as [Hin | Hout].
  - apply list_elem_of_split in Hin. destruct Hin as (before & after & Hsplit).
    rewrite Hsplit in *. apply NoDup_app in Hnodup. destruct Hnodup as (_ & Hdisjoint & Hafter).
    apply NoDup_cons in Hafter. destruct Hafter as [Hafter _].
    assert (Hbefore : name ∉ before).
    { intros Hin. apply (Hdisjoint name Hin). left. }
    unfold Registry.indexOf. rewrite registry_indexOfFrom_present by exact Hbefore.
    destruct (Z.eqb_spec (0 + Z.of_nat (length before)) (-1)) as [Heq | _]; [lia |].
    cbn [negb]. rewrite Z.add_0_l, splice_one.
    rewrite filter_app, filter_cons_False by (intros Hne; now apply Hne).
    rewrite !filter_keeps_all; [reflexivity | |].
    + apply Forall_forall. intros n Hn ->. contradiction.
    + apply Forall_forall. intros n Hn ->. contradiction.
  - unfold Registry.indexOf. rewrite registry_indexOfFrom_absent by exact Hout.
    cbn [Z.eqb negb]. symmetry. apply filter_keeps_all.
    apply Forall_forall. intros n Hn ->. contradiction.
Qed.

Lemma unregister_consistent (name : string) (r : Registry.t) :
  Registry.consistent r ->
  Registry.consistent (Registry.UnregisterExtension inherited name r).2.
Proof.
  intros [Hnodup Hnames].
  destruct (Registry.factoryOf inherited r name) as [factory |] eqn:Hfactory.
  2:{ unfold Registry.UnregisterExtension. rewrite Hfactory. split; assumption. }
  split.
  - rewrite unregister_names by (try exact Hnodup; rewrite Hfactory; eauto).
    apply NoDup_filter, Hnodup.
  - intros n. rewrite unregister_names by (try exact Hnodup; rewrite Hfactory; eauto).
    unfold Registry.UnregisterExtension. rewrite Hfactory.
    cbn [snd Registry._ExtensionFactories].
    rewrite list_elem_of_filter, Hnames.
    destruct (decide (n = name)) as [-> | Hne].
    + rewrite lookup_delete_eq. split; [intros [Hne _]; contradiction | intros [? ?]; discriminate].
    + rewrite lookup_delete_ne by congruence. tauto.
Qed.

Lemma register_consistent (name : string)
    (factory : @Registry.Factory Exporter Extension) (r : Registry.t) :
  Registry.consistent r ->
  Registry.consistent (Registry.RegisterExtension inherited name factory r).2.
Proof.
  intros Hr. pose proof (unregister_consistent name r Hr) as Hu.
  unfold Registry.RegisterExtension.
  destruct (Registry.UnregisterExtension inherited name r) as [warned r'] eqn:Hun.
  cbn [snd] in *. destruct Hu as [Hnodup Hnames].
  assert (Hout : name ∉ Registry._ExtensionNames r').
  { replace r' with (Registry.UnregisterExtension inherited name r).2 by now rewrite Hun.
    destruct (Registry.factoryOf inherited r name) as [f |] eqn:Hfactory.
    - rewrite unregister_names by (try apply Hr; rewrite Hfactory; eauto).
      rewrite list_elem_of_filter. intros [Hne _]. now apply Hne.
    - unfold Registry.UnregisterExtension. rewrite Hfactory. cbn [snd].
      intros Hin. apply (proj2 Hr) in Hin. destruct Hin as [f Hf].
      unfold Registry.factoryOf in Hfactory. rewrite Hf in Hfactory. discriminate. }
  split; cbn [Registry._ExtensionNames Registry._ExtensionFactories].
  - apply NoDup_app. split; [exact Hnodup |]. split; [| apply NoDup_singleton].
    intros n Hn Hn'. apply list_elem_of_singleton in Hn'. subst n. contradiction.
  - intros n. rewrite elem_of_app, list_elem_of_singleton, Hnames.
    destruct (decide (n = name)) as [-> | Hne].
    + rewrite lookup_insert_eq. split; eauto.
    + rewrite lookup_insert_ne by congruence.
      split; [intros [? | ?]; [assumption | contradiction] | tauto].
Qed.

(** X6.  The registry stays consistent under both operations: no name is
    listed twice and the listed names are those with a factory of their own;
    after [UnregisterExtension] the name is not listed, and the call
    reports whether a factory was found under the name. *)
Theorem registry_stays_consistent (name : string)
    (factory : @Registry.Factory Exporter Extension) (r : Registry.t) :
  Registry.consistent r ->
  name <> "__proto__"%string ->
  Registry.consistent (Registry.UnregisterExtension inherited name r).2
  /\ (name ∉ Registry._ExtensionNames (Registry.UnregisterExtension inherited name r).2)
  /\ (Registry.UnregisterExtension inherited name r).1
     = bool_decide (is_Some (Registry.factoryOf inherited r name))
  /\ Registry.consistent (Registry.RegisterExtension inherited name factory r).2.
Proof.
  intros Hr _.
  split; [now apply unregister_consistent |].
  split; [| split; [| now apply register_consistent]].
  - destruct (Registry.factoryOf inherited r name) as [f |] eqn:Hfactory.
    + rewrite unregister_names by (try apply Hr; rewrite Hfactory; eauto).
      rewrite list_elem_of_filter. intros [Hne _]. now apply Hne.
    + unfold Registry.UnregisterExtension. rewrite Hfactory. cbn [snd].
      intros Hin. apply (proj2 Hr) in Hin. destruct Hin as [f Hf].
      unfold Registry.factoryOf in Hfactory. rewrite Hf in Hfactory. discriminate.
  - unfold Registry.UnregisterExtension.
    destruct (Registry.factoryOf inherited r name) as [f |]; cbn [fst].
    + symmetry. apply bool_decide_eq_true_2. eauto.
    + symmetry. apply bool_decide_eq_false_2. intros [? ?]. discriminate.
Qed.

(** X7.  Registering a name puts it last, whether or not it was registered
    before, keeps the order of the others, and makes the new factory the
    one of the name; the factories of the other names stay. *)
Theorem register_moves_name_last (name : string)
    (factory : @Registry.Factory Exporter Extension) (r : Registry.t) :
  Registry.consistent r ->
  name <> "__proto__"%string ->
  let r' := (Registry.RegisterExtension inherited name factory r).2 in
  Registry._ExtensionNames r'
  = filter (fun n => n <> name) (Registry._ExtensionNames r) ++ [name]
  /\ Registry.factoryOf inherited r' name = Some factory
  /\ forall other, other <> name ->
       Registry._ExtensionFactories r' !! other = Registry._ExtensionFactories r !! other.
Proof.
  intros [Hnodup Hnames] _. cbv zeta. unfold Registry.RegisterExtension.
  destruct (Registry.UnregisterExtension inherited name r) as [warned r'] eqn:Hun.
  cbn [snd Registry._ExtensionNames Registry._ExtensionFactories].
  assert (Hr' : r' = (Registry.UnregisterExtension inherited name r).2) by now rewrite Hun.
  split; [| split].
  - f_equal. rewrite Hr'.
    destruct (Registry.factoryOf inherited r name) as [f |] eqn:Hfactory.
    + apply unregister_names; [exact Hnodup | rewrite Hfactory; eauto].
    + unfold Registry.UnregisterExtension. rewrite Hfactory. cbn [snd].
      symmetry. apply filter_keeps_all, Forall_forall. intros n Hn ->.
      apply Hnames in Hn. destruct Hn as [f Hf].
      unfold Registry.factoryOf in Hfactory. rewrite Hf in Hfactory. discriminate.
  - unfold Registry.factoryOf. cbn [Registry._ExtensionFactories].
    now rewrite lookup_insert_eq.
  - intros other Hother. rewrite lookup_insert_ne by congruence.
    rewrite Hr'. unfold Registry.UnregisterExtension.
    destruct (Registry.factoryOf inherited r name); cbn [snd Registry._ExtensionFactories];
      [now rewrite lookup_delete_ne by congruence | reflexivity].
Qed.

End RegistryFacts.

Lemma registry_empty_consistent {Exporter Extension : Type} :
  Registry.consistent (@Registry.empty Exporter Extension).
Proof.
  split; [constructor |]. intros name. cbn. rewrite lookup_empty. split.
  - intros Hin. apply elem_of_nil in Hin. contradiction.
  - intros [factory Hfactory]. discriminate.
Qed.

Lemma registry_stays_consistent_witness :
  Registry.consistent
    (Registry.UnregisterExtension Scenarios.noInherited "first" Scenarios.oneRegistered).2
  /\ ("first"%string
      ∉ Registry._ExtensionNames
          (Registry.UnregisterExtension Scenarios.noInherited "first" Scenarios.oneRegistered).2)
  /\ (Registry.UnregisterExtension Scenarios.noInherited "first" Scenarios.oneRegistered).1
     = bool_decide (is_Some (Registry.factoryOf Scenarios.noInherited Scenarios.oneRegistered
                               "first"))
  /\ Registry.consistent
       (Registry.RegisterExtension Scenarios.noInherited "first" (Scenarios.makes 3)
          Scenarios.oneRegistered).2.
Proof.
  apply (registry_stays_consistent Scenarios.noInherited "first" (Scenarios.makes 3)
           Scenarios.oneRegistered).
  - apply register_consistent, registry_empty_consistent.
  - discriminate.
Defined.

Lemma register_moves_name_last_witness :
  Registry._ExtensionNames
    (Registry.RegisterExtension Scenarios.noInherited "first" (Scenarios.makes 3)
       Scenarios.twoRegistered).2
  = filter (fun n => n <> "first"%string) (Registry._ExtensionNames Scenarios.twoRegistered)
    ++ ["first"%string]
  /\ Registry.factoryOf Scenarios.noInherited
       (Registry.RegisterExtension Scenarios.noInherited "first" (Scenarios.makes 3)
          Scenarios.twoRegistered).2 "first"
     = Some (Scenarios.makes 3)
  /\ forall other, other <> "first"%string ->
       Registry._ExtensionFactories
         (Registry.RegisterExtension Scenarios.noInherited "first" (Scenarios.makes 3)
            Scenarios.twoRegistered).2 !! other
       = Registry._ExtensionFactories Scenarios.twoRegistered !! other.
Proof.
  apply (register_moves_name_last Scenarios.noInherited "first" (Scenarios.makes 3)
           Scenarios.twoRegistered).
  - apply register_consistent, register_consistent, registry_empty_consistent.
  - discriminate.
Defined.

(** ** The extensions of the document *)

Lemma registry_indexOfFrom_found (names : list string) (name : string) (i : Z) :
  name ∈ names -> i <= Registry.indexOfFrom names name i.
Proof.
  revert i. induction names as [| n rest IH]; intros i Hin; simpl.
  - apply elem_of_nil in Hin. contradiction.
  - destruct (String.eqb_spec n name) as [-> | Hne]; [lia |].
    apply elem_of_cons in Hin. destruct Hin as [-> | Hin]; [contradiction |].
    specialize (IH (i + 1) Hin). lia.
Qed.

Lemma pushOnce_default (name : string) (field : option (list string)) :
  default [] (Assembler.pushOnce name field)
  = if bool_decide (name ∈ default [] field) then default [] field
    else default [] field ++ [name].
Proof.
  unfold Assembler.pushOnce. cbn [default]. case_bool_decide as Hin.
  - pose proof (registry_indexOfFrom_found _ _ 0 Hin) as Hfound. unfold Registry.indexOf.
    destruct (Z.eqb_spec (Registry.indexOfFrom (default [] field) name 0) (-1)); [lia | reflexivity].
  - unfold Registry.indexOf. now rewrite registry_indexOfFrom_absent by exact Hin.
Qed.

Lemma pushOnce_NoDup (name : string) (field : option (list string)) :
  NoDup (default [] field) -> NoDup (default [] (Assembler.pushOnce name field)).
Proof.
  intros Hnodup. rewrite pushOnce_default. case_bool_decide as Hin; [exact Hnodup |].
  apply NoDup_app. split; [exact Hnodup |]. split; [| apply NoDup_singleton].
  intros n Hn Hn'. apply list_elem_of_singleton in Hn'. subst n. contradiction.
Qed.

Lemma pushOnce_elem (name other : string) (field : option (list string)) :
  other ∈ default [] (Assembler.pushOnce name field) <-> other ∈ default [] field \/ other = name.
Proof.
  rewrite pushOnce_default. case_bool_decide as Hin.
  - split; [tauto | intros [? | ->]; assumption].
  - rewrite elem_of_app, list_elem_of_singleton. tauto.
Qed.

Section ExportingFacts.
Context {elements : Assembler.ElementTypes}.

Lemma exportingStep_lists (doc : Assembler.IGLTF)
    (extension : Assembler.IGLTFExporterExtensionV2) :
  Assembler.keepsExtensionLists extension ->
  let listed := Assembler.enabled extension && Assembler.wasUsed extension in
  Assembler.used (Assembler.exportingStep doc extension)
  = (if listed
     then default [] (Assembler.pushOnce (Assembler.name extension) (Assembler.extensionsUsed doc))
     else Assembler.used doc)
  /\ Assembler.requiredNames (Assembler.exportingStep doc extension)
     = (if listed && Assembler.required extension
        then default [] (Assembler.pushOnce (Assembler.name extension)
                           (Assembler.extensionsRequired doc))
        else Assembler.requiredNames doc).
Proof.
  intros Hkeeps. cbv zeta. unfold Assembler.exportingStep, Assembler.used, Assembler.requiredNames.
  destruct (Assembler.enabled extension); [| split; reflexivity].
  destruct (Assembler.wasUsed extension); [| split; reflexivity].
  cbn [andb].
  destruct (Assembler.onExporting extension) as [hook |] eqn:Hhook.
  - match goal with |- context [hook ?d] => destruct (Hkeeps hook d Hhook) as [-> ->] end.
    destruct (Assembler.required extension); split; reflexivity.
  - destruct (Assembler.required extension); split; reflexivity.
Qed.

Lemma exportingStep_wellListed (doc : Assembler.IGLTF)
    (extension : Assembler.IGLTFExporterExtensionV2) :
  Assembler.keepsExtensionLists extension ->
  Assembler.wellListed doc ->
  Assembler.wellListed (Assembler.exportingStep doc extension)
  /\ Assembler.used doc ⊆ Assembler.used (Assembler.exportingStep doc extension)
  /\ Assembler.requiredNames doc ⊆ Assembler.requiredNames (Assembler.exportingStep doc extension)
  /\ (Assembler.enabled extension = true -> Assembler.wasUsed extension = true ->
      Assembler.name extension ∈ Assembler.used (Assembler.exportingStep doc extension)
      /\ (Assembler.required extension = true ->
          Assembler.name extension
            ∈ Assembler.requiredNames (Assembler.exportingStep doc extension))).
Proof.
  intros Hkeeps (Hused & Hrequired & Hsub). unfold Assembler.wellListed.
  destruct (exportingStep_lists doc extension Hkeeps) as [-> ->].
  unfold Assembler.used, Assembler.requiredNames in *.
  destruct (Assembler.enabled extension), (Assembler.wasUsed extension); cbn [andb];
    try (repeat split; try assumption; try reflexivity; intros; discriminate).
  destruct (Assembler.required extension); cbn [andb].
  - split; [split; [| split] |].
    + now apply pushOnce_NoDup.
    + now apply pushOnce_NoDup.
    + intros n Hn. apply pushOnce_elem in Hn. apply pushOnce_elem.
      destruct Hn as [Hn | ->]; [left; now apply Hsub | now right].
    + split; [intros n Hn; apply pushOnce_elem; now left |].
      split; [intros n Hn; apply pushOnce_elem; now left |].
      intros _ _. split; [apply pushOnce_elem; now right |].
      intros _. apply pushOnce_elem; now right.
  - split; [split; [| split] |].
    + now apply pushOnce_NoDup.
    + exact Hrequired.
    + intros n Hn. apply pushOnce_elem. left. now apply Hsub.
    + split; [intros n Hn; apply pushOnce_elem; now left |].
      split; [reflexivity |].
      intros _ _. split; [apply pushOnce_elem; now right | discriminate].
Qed.

(** X9.  [_extensionsOnExporting] keeps the two lists of the document free of
    duplicates and the required names among the used ones, and lists every
    enabled extension that was used (and, when it is required, lists it as
    required too), as long as the [onExporting] hooks leave the lists
    alone. *)
Theorem extensionsOnExporting_lists_used_extensions
    (_ExtensionNames : list string)
    (_extensions : gmap string Assembler.IGLTFExporterExtensionV2)
    (doc doc' : Assembler.IGLTF) :
  (forall extensionName extension,
      _extensions !! extensionName = Some extension ->
      Assembler.keepsExtensionLists extension) ->
  Assembler.wellListed doc ->
  Assembler._extensionsOnExporting _ExtensionNames _extensions doc = Normal doc' ->
  Assembler.wellListed doc'
  /\ forall extensionName extension,
       extensionName ∈ _ExtensionNames ->
       _extensions !! extensionName = Some extension ->
       Assembler.enabled extension = true ->
       Assembler.wasUsed extension = true ->
       Assembler.name extension ∈ Assembler.used doc'
       /\ (Assembler.required extension = true ->
           Assembler.name extension ∈ Assembler.requiredNames doc').
Proof.
  intros Hhooks. revert doc.
  assert (Hmono : forall names doc,
    Assembler.wellListed doc ->
    Assembler._extensionsOnExporting names _extensions doc = Normal doc' ->
    Assembler.wellListed doc'
    /\ Assembler.used doc ⊆ Assembler.used doc'
    /\ Assembler.requiredNames doc ⊆ Assembler.requiredNames doc'
    /\ forall extensionName extension,
         extensionName ∈ names ->
         _extensions !! extensionName = Some extension ->
         Assembler.enabled extension = true ->
         Assembler.wasUsed extension = true ->
         Assembler.name extension ∈ Assembler.used doc'
         /\ (Assembler.required extension = true ->
             Assembler.name extension ∈ Assembler.requiredNames doc')).
  { induction names as [| first rest IH]; intros doc Hwell Hrun; simpl in Hrun.
    - injection Hrun as <-. split; [exact Hwell |]. split; [reflexivity |].
      split; [reflexivity |]. intros n ext Hin. apply elem_of_nil in Hin. contradiction.
    - destruct (_extensions !! first) as [extension |] eqn:Hfirst; [| discriminate].
      destruct (exportingStep_wellListed doc extension (Hhooks _ _ Hfirst) Hwell)
        as (Hwell1 & Hused1 & Hrequired1 & Hlisted1).
      destruct (IH _ Hwell1 Hrun) as (Hwell' & Hused' & Hrequired' & Hlisted').
      split; [exact Hwell' |]. split; [etrans; eassumption |]. split; [etrans; eassumption |].
      intros n ext Hin Hext Henabled Hwas.
      apply elem_of_cons in Hin. destruct Hin as [-> | Hin].
      + rewrite Hfirst in Hext. injection Hext as <-.
        destruct (Hlisted1 Henabled Hwas) as [Hu Hr].
        split; [now apply Hused' | intros Hreq; now apply Hrequired', Hr].
      + now apply (Hlisted' n ext). }
  intros doc Hwell Hrun. destruct (Hmono _ _ Hwell Hrun) as (Hwell' & _ & _ & Hlisted).
  split; assumption.
Qed.

End ExportingFacts.

Lemma extensionsOnExporting_lists_used_extensions_witness :
  match Assembler._extensionsOnExporting ["KHR_texture_basisu"%string]
          {[ "KHR_texture_basisu"%string := Scenarios.basisu ]} Scenarios.emptyDocument with
  | Normal doc' =>
      Assembler.wellListed doc'
      /\ forall extensionName extension,
           extensionName ∈ ["KHR_texture_basisu"%string] ->
           ({[ "KHR_texture_basisu"%string := Scenarios.basisu ]}
              : gmap string Assembler.IGLTFExporterExtensionV2) !! extensionName
           = Some extension ->
           Assembler.enabled extension = true ->
           Assembler.wasUsed extension = true ->
           Assembler.name extension ∈ Assembler.used doc'
           /\ (Assembler.required extension = true ->
               Assembler.name extension ∈ Assembler.requiredNames doc')
  | Throw _ => False
  end.
Proof.
  destruct (Assembler._extensionsOnExporting ["KHR_texture_basisu"%string]
              {[ "KHR_texture_basisu"%string := Scenarios.basisu ]} Scenarios.emptyDocument)
    as [doc' | message] eqn:Hrun; [| vm_compute in Hrun; discriminate Hrun].
  apply (extensionsOnExporting_lists_used_extensions ["KHR_texture_basisu"%string]
           {[ "KHR_texture_basisu"%string := Scenarios.basisu ]} Scenarios.emptyDocument doc').
  - intros extensionName extension Hlookup.
    apply lookup_singleton_Some in Hlookup. destruct Hlookup as [_ <-].
    intros hook doc Hhook. discriminate Hhook.
  - split; [constructor |]. split; [constructor |]. intros name Hname.
    apply elem_of_nil in Hname. contradiction.
  - exact Hrun.
Defined.

(** ** The hooks of the loaded extensions *)

Section Chains.
Context {Extension T : Type}.
Context (actionAsync : Extension -> option T -> Completion (option (Promise (option T)))).

Lemma applyExtension_declined (extensions : list Extension) (index : nat) (node : option T) :
  (forall extension, extension ∈ extensions -> actionAsync extension node = Normal None) ->
  GLTFExporter._applyExtension actionAsync node extensions index = Normal (Fulfilled node).
Proof.
  intros Hdecline.
  funelim (GLTFExporter._applyExtension actionAsync node extensions index).
  - reflexivity.
  - rewrite (Hdecline extension) in Heq by (eapply list_elem_of_lookup_2, inRange).
    discriminate.
  - now apply H.
  - rewrite (Hdecline extension) in Heq by (eapply list_elem_of_lookup_2, inRange).
    discriminate.
Qed.

(** X10.  The chain over two arrays of extensions one after the other is the
    chain over the first followed, when it yields an artifact, by the chain
    over the second from that artifact; an error of the first chain is the
    result, and no extension of the second array is consulted.  A chain
    whose hooks all decline yields the artifact it was given. *)
Theorem hook_chain_composes :
  (forall (first second : list Extension) (node : option T),
      Spec.await (GLTFExporter._applyExtension actionAsync node (first ++ second) 0)
      = match Spec.await (GLTFExporter._applyExtension actionAsync node first 0) with
        | Spec.Artifact node' =>
            Spec.await (GLTFExporter._applyExtension actionAsync node' second 0)
        | Spec.Failed message => Spec.Failed message
        end)
  /\ (forall (extensions : list Extension) (node : option T),
        (forall extension, extension ∈ extensions -> actionAsync extension node = Normal None) ->
        GLTFExporter._applyExtension actionAsync node extensions 0 = Normal (Fulfilled node)).
Proof.
  split.
  - intros first second node. rewrite !applyExtension_is_fold.
    unfold Spec.hookFold. rewrite fold_left_app.
    destruct (fold_left (Spec.hookStep actionAsync) first (Spec.Artifact node)) as [node' | message].
    + now rewrite applyExtension_is_fold.
    + apply hookFold_failed.
  - intros extensions node. apply applyExtension_declined.
Qed.
End Chains.

Section Loading.
Context {Exporter Extension T : Type}.
Context (inherited : string -> option (@Registry.Factory Exporter Extension)).

(** What [_loadExtensions] stores for the names of a list without
    repetition, each of which has a factory of its own. *)
Lemma loadFrom_effect (r : Registry.t) (this : Exporter) (names : list string) :
  forall (_extensions loaded : gmap string Extension),
  NoDup names ->
  (forall name, name ∈ names -> is_Some (Registry._ExtensionFactories r !! name)) ->
  Registry.loadFrom inherited r this names _extensions = Normal loaded ->
  exists instances,
    Forall2 (fun name instance =>
               exists factory,
                 Registry._ExtensionFactories r !! name = Some factory
                 /\ factory this = Normal instance) names instances
    /\ List.map (fun name => loaded !! name) names = List.map Some instances
    /\ forall name, name ∉ names -> loaded !! name = _extensions !! name.
Proof.
  induction names as [| name rest IH]; intros _extensions loaded Hnodup Hown Hrun; simpl in Hrun.
  - injection Hrun as <-. exists []. split; [constructor |]. split; reflexivity.
  - apply NoDup_cons in Hnodup. destruct Hnodup as [Hfresh Hnodup].
    destruct (Hown name ltac:(left)) as [factory Hfactory].
    unfold Registry.factoryOf in Hrun. rewrite Hfactory in Hrun.
    destruct (factory this) as [instance | message] eqn:Hcall; [| discriminate].
    destruct (IH _ _ Hnodup ltac:(intros n Hn; apply Hown; now right) Hrun)
      as (instances & Hall & Hmap & Hother).
    exists (instance :: instances). split; [| split].
    + constructor; [exists factory; split; assumption | exact Hall].
    + cbn [List.map]. rewrite Hmap. f_equal.
      rewrite (Hother name Hfresh). apply lookup_insert_eq.
    + intros other Hother'. apply not_elem_of_cons in Hother'. destruct Hother' as [Hne Hout].
      rewrite (Hother other Hout). now apply lookup_insert_ne.
Qed.

(** X8.  An exporter built over a consistent registry runs its hooks on
    the products of the registered factories, in the order of registration:
    [_loadExtensions] stores for each registered name what its factory
    makes, and [_applyExtensions] is the chain over these objects. *)
Theorem loaded_extensions_run_in_registration_order (r : Registry.t) (this : Exporter)
    (_extensions : gmap string Extension)
    (actionAsync : Extension -> option T -> Completion (option (Promise (option T))))
    (node : option T) :
  Registry.consistent r ->
  Registry._loadExtensions inherited r this = Normal _extensions ->
  exists instances,
    Forall2 (fun name instance =>
               exists factory,
                 Registry._ExtensionFactories r !! name = Some factory
                 /\ factory this = Normal instance)
      (Registry._ExtensionNames r) instances
    /\ Spec.await (GLTFExporter._applyExtensions (Registry._ExtensionNames r) _extensions
                     actionAsync node)
       = Spec.hookFold actionAsync instances node.
Proof.
  intros [Hnodup Hnames] Hload.
  destruct (loadFrom_effect r this (Registry._ExtensionNames r) ∅ _extensions Hnodup
              ltac:(intros name Hname; now apply Hnames) Hload)
    as (instances & Hall & Hmap & _).
  exists instances. split; [exact Hall |].
  unfold GLTFExporter._applyExtensions.
  rewrite applyExtension_is_fold, Hmap. apply hookFold_callAction.
Qed.
End Loading.

Lemma loaded_extensions_run_in_registration_order_witness :
  match Registry._loadExtensions Scenarios.noInherited Scenarios.twoRegistered tt with
  | Normal _extensions =>
      exists instances,
        Forall2 (fun name instance =>
                   exists factory,
                     Registry._ExtensionFactories Scenarios.twoRegistered !! name = Some factory
                     /\ factory tt = Normal instance)
          (Registry._ExtensionNames Scenarios.twoRegistered) instances
        /\ Spec.await (GLTFExporter._applyExtensions
                         (Registry._ExtensionNames Scenarios.twoRegistered) _extensions
                         Examples.secondActs (Some 7))
           = Spec.hookFold Examples.secondActs instances (Some 7)
  | Throw _ => False
  end.
Proof.
  destruct (Registry._loadExtensions Scenarios.noInherited Scenarios.twoRegistered tt)
    as [_extensions | message] eqn:Hload; [| vm_compute in Hload; discriminate Hload].
  apply (loaded_extensions_run_in_registration_order Scenarios.noInherited
           Scenarios.twoRegistered tt _extensions Examples.secondActs (Some 7)).
  - apply register_consistent, register_consistent, registry_empty_consistent.
  - exact Hload.
Defined.

(** ** Running a method, and the bytes it writes *)

Lemma bind_Normal {A B : Type} (m : GLTFExporter.M A) (k : A -> GLTFExporter.M B)
    (e e'' : GLTFExporter.t) (b : B) :
  (m ≫= k) e = Normal (b, e'') ->
  exists a e', m e = Normal (a, e') /\ k a e' = Normal (b, e'').
Proof.
  unfold mbind, GLTFExporter.M_bind. destruct (m e) as [[a e'] | message]; [| discriminate].
  intros Hk. exists a, e'. split; [reflexivity | exact Hk].
Qed.

Lemma ret_Normal {A : Type} (a b : A) (e e' : GLTFExporter.t) :
  (mret a : GLTFExporter.M A) e = Normal (b, e') -> b = a /\ e' = e.
Proof. unfold mret, GLTFExporter.M_ret. intros H. injection H as <- <-. split; reflexivity. Qed.

Lemma read_Normal (a e e' : GLTFExporter.t) :
  GLTFExporter.read e = Normal (a, e') -> a = e /\ e' = e.
Proof. unfold GLTFExporter.read. intros H. injection H as <- <-. split; reflexivity. Qed.

Lemma modify_Normal (f : GLTFExporter.t -> GLTFExporter.t) (u : unit) (e e' : GLTFExporter.t) :
  GLTFExporter.modify f e = Normal (u, e') -> e' = f e.
Proof. unfold GLTFExporter.modify. intros H. injection H as _ <-. reflexivity. Qed.

Lemma lift_Normal {A : Type} (c : Completion A) (a : A) (e e' : GLTFExporter.t) :
  GLTFExporter.lift c e = Normal (a, e') -> c = Normal a /\ e' = e.
Proof.
  unfold GLTFExporter.lift. destruct c; [| discriminate].
  intros H. injection H as <- <-. split; reflexivity.
Qed.

Ltac run H :=
  repeat match type of H with
  | (_ ≫= _) _ = Normal _ =>
      let a := fresh "a" in let e := fresh "e" in
      let H1 := fresh "Hrun" in
      apply bind_Normal in H; destruct H as (a & e & H1 & H); run H1
  | mret _ _ = Normal _ => apply ret_Normal in H; destruct H as [-> ->]
  | GLTFExporter.read _ = Normal _ => apply read_Normal in H; destruct H as [-> ->]
  | GLTFExporter.modify _ _ = Normal _ => apply modify_Normal in H; subst
  | GLTFExporter.throw _ _ = Normal _ => discriminate H
  end.

Lemma viewBytes_appended (written bytes : list Z) (byteStride : option Z) :
  Reader.viewBytes
    (createBufferView 0 (Z.of_nat (length written)) (Z.of_nat (length bytes)) byteStride None)
    (written ++ bytes)
  = bytes.
Proof.
  unfold Reader.viewBytes. rewrite createBufferView_offset. cbn [IBufferView.byteLength createBufferView].
  rewrite !Nat2Z.id, drop_app_length. apply firstn_all.
Qed.

Section Buffers.
Context (float32Bytes : number -> list Z).

Lemma exportBuffer_effect (buffer : Babylon.Buffer) (byteStride : Z)
    (convertToRightHanded : bool) (e e' : GLTFExporter.t) (index : Z) :
  GLTFExporter._exportBuffer float32Bytes buffer byteStride convertToRightHanded e
  = Normal (index, e') ->
  exists data view,
    Babylon.getData buffer = Some data
    /\ index = Z.of_nat (length (GLTFExporter._bufferViews e))
    /\ GLTFExporter._bufferViews e' = GLTFExporter._bufferViews e ++ [view]
    /\ GLTFExporter._dataWriter e'
       = GLTFExporter._dataWriter e ++ GLTFExporter.dataArrayToUint8Array float32Bytes data
    /\ Reader.viewBytes view (GLTFExporter._dataWriter e')
       = GLTFExporter.dataArrayToUint8Array float32Bytes data
    /\ IBufferView.buffer view = 0.
Proof.
  unfold GLTFExporter._exportBuffer. intros Hrun.
  destruct (Babylon.getData buffer) as [data |]; [| discriminate].
  run Hrun. destruct e as [ac bv ms ns ss dw cs os rs nm mm us]. cbn.
  eexists data, _. split; [reflexivity |].
  split; [rewrite length_app; simpl; lia |].
  split; [reflexivity |]. split; [reflexivity |].
  split; [apply viewBytes_appended | reflexivity].
Qed.

Lemma exportIndicesData_effect (indices : Babylon.IndicesData)
    (is32Bits convertToRightHanded : bool) (e e' : GLTFExporter.t) (index : Z) :
  GLTFExporter._exportIndicesData indices is32Bits convertToRightHanded e
  = Normal (index, e') ->
  exists view,
    index = Z.of_nat (length (GLTFExporter._bufferViews e))
    /\ GLTFExporter._bufferViews e' = GLTFExporter._bufferViews e ++ [view]
    /\ GLTFExporter._dataWriter e'
       = GLTFExporter._dataWriter e ++ GLTFExporter.indicesArrayToUint8Array indices is32Bits
    /\ Reader.viewBytes view (GLTFExporter._dataWriter e')
       = GLTFExporter.indicesArrayToUint8Array indices is32Bits
    /\ IBufferView.buffer view = 0.
Proof.
  unfold GLTFExporter._exportIndicesData. intros Hrun.
  run Hrun. destruct e as [ac bv ms ns ss dw cs os rs nm mm us]. cbn.
  eexists. split; [rewrite length_app; simpl; lia |].
  split; [reflexivity |]. split; [reflexivity |].
  split; [apply viewBytes_appended | reflexivity].
Qed.
(** X12.  [_exportBuffer] and [_exportIndicesData] append the bytes of the
    buffer, or of the index array, to the binary data, and one buffer view
    of buffer 0 that designates exactly these bytes; the result is the index
    of this view.  What was written before stays where it was. *)
Theorem exported_bytes_are_designated :
  (forall (buffer : Babylon.Buffer) (byteStride : Z) (convertToRightHanded : bool)
          (e e' : GLTFExporter.t) (index : Z),
      GLTFExporter._exportBuffer float32Bytes buffer byteStride convertToRightHanded e
      = Normal (index, e') ->
      exists data view,
        Babylon.getData buffer = Some data
        /\ index = Z.of_nat (length (GLTFExporter._bufferViews e))
        /\ GLTFExporter._bufferViews e' = GLTFExporter._bufferViews e ++ [view]
        /\ GLTFExporter._dataWriter e'
           = GLTFExporter._dataWriter e
             ++ GLTFExporter.dataArrayToUint8Array float32Bytes data
        /\ Reader.viewBytes view (GLTFExporter._dataWriter e')
           = GLTFExporter.dataArrayToUint8Array float32Bytes data
        /\ IBufferView.buffer view = 0)
  /\ (forall (indices : Babylon.IndicesData) (is32Bits convertToRightHanded : bool)
             (e e' : GLTFExporter.t) (index : Z),
        GLTFExporter._exportIndicesData indices is32Bits convertToRightHanded e
        = Normal (index, e') ->
        exists view,
          index = Z.of_nat (length (GLTFExporter._bufferViews e))
          /\ GLTFExporter._bufferViews e' = GLTFExporter._bufferViews e ++ [view]
          /\ GLTFExporter._dataWriter e'
             = GLTFExporter._dataWriter e
               ++ GLTFExporter.indicesArrayToUint8Array indices is32Bits
          /\ Reader.viewBytes view (GLTFExporter._dataWriter e')
             = GLTFExporter.indicesArrayToUint8Array indices is32Bits
          /\ IBufferView.buffer view = 0).
Proof. split; [exact exportBuffer_effect | exact exportIndicesData_effect]. Qed.

End Buffers.

(** ** The indices of a primitive *)

Lemma stateOf_updateState (field : GLTFExporter.StateField)
    (f : ExporterState.t -> ExporterState.t) (u : unit) (e e' : GLTFExporter.t) :
  GLTFExporter.updateState field f e = Normal (u, e') ->
  GLTFExporter.stateOf field e' = f (GLTFExporter.stateOf field e)
  /\ GLTFExporter._accessors e' = GLTFExporter._accessors e
  /\ GLTFExporter._bufferViews e' = GLTFExporter._bufferViews e
  /\ GLTFExporter._dataWriter e' = GLTFExporter._dataWriter e.
Proof.
  unfold GLTFExporter.updateState. intros Hrun. apply modify_Normal in Hrun. subst e'.
  destruct e, field; repeat split.
Qed.

Lemma exportIndicesData_keeps_states (indices : Babylon.IndicesData)
    (is32Bits convertToRightHanded : bool) (e e' : GLTFExporter.t) (index : Z) :
  GLTFExporter._exportIndicesData indices is32Bits convertToRightHanded e
  = Normal (index, e') ->
  GLTFExporter._accessors e' = GLTFExporter._accessors e
  /\ forall field, GLTFExporter.stateOf field e' = GLTFExporter.stateOf field e.
Proof.
  unfold GLTFExporter._exportIndicesData. intros Hrun. run Hrun.
  split; [now destruct e |]. intros field. destruct e, field; reflexivity.
Qed.

(** X13.  The indices of a primitive can be read back from the file.  When
    the index array is exported for the first time in a state, the accessor
    that [primitive.indices] names has the count of the submesh and refers to
    a buffer view in whose bytes, from the byte offset of the accessor on, a
    reader finds the indices of the submesh, from [indexStart] on, in the
    component type of the accessor. *)
Theorem exported_indices_read_back (state : GLTFExporter.StateField)
    (convertToRightHanded : bool) (indices : Babylon.IndicesArray) (subMesh : Babylon.SubMesh)
    (e e' : GLTFExporter.t) (primitiveIndices : option Z) :
  GLTFExporter.exportPrimitiveIndices state convertToRightHanded (Some indices) subMesh e
  = Normal (primitiveIndices, e') ->
  ExporterState.reachable (GLTFExporter.stateOf state e) ->
  ExporterState.getIndicesBufferView (Babylon.indices_id indices) (GLTFExporter.stateOf state e)
  = None ->
  Reader.areIndices (Babylon.indices_data indices) ->
  0 <= Babylon.indexStart subMesh ->
  exists accessor view,
    primitiveIndices = Some (Z.of_nat (length (GLTFExporter._accessors e)))
    /\ GLTFExporter._accessors e' !! length (GLTFExporter._accessors e) = Some accessor
    /\ IAccessor.count accessor = Babylon.indexCount subMesh
    /\ GLTFExporter._bufferViews e' !! Z.to_nat (IAccessor.bufferView accessor) = Some view
    /\ forall (k : nat) (v : Z),
         Reader.values (Babylon.indices_data indices)
           !! (Z.to_nat (Babylon.indexStart subMesh) + k)%nat = Some v ->
         Reader.readIndex
           (drop (Z.to_nat (default 0 (IAccessor.byteOffset accessor)))
              (Reader.viewBytes view (GLTFExporter._dataWriter e')))
           (IAccessor.componentType accessor) k
         = Some v.
Proof.
  intros Hrun Hreach Hmiss Hrange Hstart.
  unfold GLTFExporter.exportPrimitiveIndices in Hrun.
  apply bind_Normal in Hrun. destruct Hrun as (e0 & e1 & Hread & Hrun).
  apply read_Normal in Hread. destruct Hread as [-> ->].
  rewrite Hmiss in Hrun.
  apply bind_Normal in Hrun. destruct Hrun as (bufferViewIndex & e1 & Hdata & Hrun).
  destruct (exportIndicesData_keeps_states _ _ _ _ _ _ Hdata) as [Hacc1 Hstate1].
  specialize (Hstate1 state).
  apply exportIndicesData_effect in Hdata.
  destruct Hdata as (view & -> & Hviews & Hbytes & Hview & _).
  apply bind_Normal in Hrun. destruct Hrun as (u1 & e2 & Hset & Hrun).
  apply stateOf_updateState in Hset. destruct Hset as (Hstate2 & Hacc2 & Hviews2 & Hbytes2).
  apply bind_Normal in Hrun. destruct Hrun as (e2' & e3 & Hread & Hrun).
  apply read_Normal in Hread. destruct Hread as [-> ->].
  assert (Hreach2 : ExporterState.reachable (GLTFExporter.stateOf state e2)).
  { rewrite Hstate2, Hstate1. now constructor. }
  rewrite (proj1 (accessor_lookup_misses _ (Babylon.indices_id indices)
                    (Babylon.indexStart subMesh) (Babylon.indexCount subMesh) Hreach2)) in Hrun.
  apply bind_Normal in Hrun. destruct Hrun as (accessorIndex & e3 & Hacc & Hrun).
  unfold GLTFExporter._exportIndices in Hacc. run Hacc.
  apply bind_Normal in Hrun. destruct Hrun as (u2 & e4 & Hset & Hrun).
  apply stateOf_updateState in Hset. destruct Hset as (_ & Hacc4 & Hviews4 & Hbytes4).
  apply ret_Normal in Hrun. destruct Hrun as [-> ->].
  rewrite Hacc4, Hviews4, Hbytes4.
  assert (Hacc3 : forall f, GLTFExporter._accessors (GLTFExporter.update_accessors f e2)
                            = f (GLTFExporter._accessors e2)) by (intros; now destruct e2).
  assert (Hviews3 : forall f, GLTFExporter._bufferViews (GLTFExporter.update_accessors f e2)
                              = GLTFExporter._bufferViews e2) by (intros; now destruct e2).
  assert (Hbytes3 : forall f, GLTFExporter._dataWriter (GLTFExporter.update_accessors f e2)
                              = GLTFExporter._dataWriter e2) by (intros; now destruct e2).
  rewrite Hacc3, Hviews3, Hbytes3, Hacc2, Hviews2, Hbytes2, Hviews, Hacc1.
  eexists _, view.
  split; [f_equal; rewrite length_app; simpl; lia |].
  split; [rewrite lookup_app_r by lia; rewrite Nat.sub_diag; reflexivity |].
  split; [reflexivity |].
  split.
  { cbn [IAccessor.bufferView createAccessor]. rewrite Nat2Z.id.
    rewrite lookup_app_r by lia. now rewrite Nat.sub_diag. }
  intros k v Hk. rewrite Hview.
  cbn [IAccessor.byteOffset IAccessor.componentType createAccessor default].
  set (data := Babylon.indices_data indices) in *.
  destruct (indices_round_trip data _ v Hrange Hk) as [Hread _]. cbv zeta in Hread.
  unfold Reader.readIndex in *.
  destruct (GLTFExporter.isIndicesArray32Bits data); cbn [Z.eqb GLTFExporter.UNSIGNED_INT
    GLTFExporter.UNSIGNED_SHORT Pos.eqb] in *.
  - rewrite getUint32_drop. rewrite <- Hread. f_equal. unfold id. lia.
  - rewrite getUint16_drop. rewrite <- Hread. f_equal. unfold id. lia.
Qed.

Lemma exported_indices_read_back_witness :
  match GLTFExporter.exportPrimitiveIndices GLTFExporter.OriginalState false
          (Some Examples.triangleIndices) Examples.wholeTriangle GLTFExporter.new with
  | Normal (primitiveIndices, e') =>
      exists accessor view,
        primitiveIndices = Some (Z.of_nat (length (GLTFExporter._accessors GLTFExporter.new)))
        /\ GLTFExporter._accessors e' !! length (GLTFExporter._accessors GLTFExporter.new)
           = Some accessor
        /\ IAccessor.count accessor = Babylon.indexCount Examples.wholeTriangle
        /\ GLTFExporter._bufferViews e' !! Z.to_nat (IAccessor.bufferView accessor) = Some view
        /\ forall (k : nat) (v : Z),
             Reader.values (Babylon.indices_data Examples.triangleIndices)
               !! (Z.to_nat (Babylon.indexStart Examples.wholeTriangle) + k)%nat = Some v ->
             Reader.readIndex
               (drop (Z.to_nat (default 0 (IAccessor.byteOffset accessor)))
                  (Reader.viewBytes view (GLTFExporter._dataWriter e')))
               (IAccessor.componentType accessor) k
             = Some v
  | Throw _ => False
  end.
Proof.
  destruct (GLTFExporter.exportPrimitiveIndices GLTFExporter.OriginalState false
              (Some Examples.triangleIndices) Examples.wholeTriangle GLTFExporter.new)
    as [[primitiveIndices e'] | message] eqn:Hrun; [| vm_compute in Hrun; discriminate Hrun].
  apply (exported_indices_read_back GLTFExporter.OriginalState false Examples.triangleIndices
           Examples.wholeTriangle GLTFExporter.new e' primitiveIndices Hrun).
  - apply ExporterState.reachable_new.
  - reflexivity.
  - repeat constructor; lia.
  - simpl. lia.
Defined.

(** ** Bounds of arbitrary position data *)

Lemma Qle_bool_false_lt (p q : Q) : Qle_bool q p = false -> (p < q)%Q.
Proof.
  intros Hle. apply Qnot_le_lt. intros Hc. apply Qle_bool_iff in Hc. congruence.
Qed.

(** A value that did not go below the bound does not go below a smaller
    bound's replacement. *)
Lemma lt_keepLower (x y a : number) : lt x a = false -> lt x (keepLower y a) = false.
Proof.
  unfold keepLower. destruct (lt y a) eqn:Hy; [| auto]. intros Hx.
  destruct x as [| | p |], y as [| | q |], a as [| | r |]; cbn in *; try congruence.
  apply negb_true_iff in Hy. apply negb_false_iff in Hx. apply negb_false_iff.
  apply Qle_bool_iff. apply Qle_bool_iff in Hx. apply Qle_bool_false_lt in Hy.
  apply Qlt_le_weak. eapply Qlt_le_trans; eassumption.
Qed.

Lemma gt_keepUpper (x y b : number) : gt x b = false -> gt x (keepUpper y b) = false.
Proof.
  unfold keepUpper, gt. destruct (lt b y) eqn:Hy; [| auto]. intros Hx.
  destruct x as [| | p |], y as [| | q |], b as [| | r |]; cbn in *; try congruence.
  apply negb_true_iff in Hy. apply negb_false_iff in Hx. apply negb_false_iff.
  apply Qle_bool_iff. apply Qle_bool_iff in Hx. apply Qle_bool_false_lt in Hy.
  apply Qlt_le_weak. eapply Qle_lt_trans; eassumption.
Qed.

Lemma lt_keepLower_self (x a : number) : lt x (keepLower x a) = false.
Proof.
  unfold keepLower. destruct (lt x a) eqn:Hx; [| exact Hx].
  destruct x as [| | p |]; cbn; try reflexivity.
  apply negb_false_iff, Qle_bool_iff, Qle_refl.
Qed.

Lemma gt_keepUpper_self (x b : number) : gt x (keepUpper x b) = false.
Proof.
  unfold keepUpper. destruct (gt x b) eqn:Hx; [| exact Hx].
  unfold gt. destruct x as [| | p |]; cbn; try reflexivity.
  apply negb_false_iff, Qle_bool_iff, Qle_refl.
Qed.

Lemma within_keep (x y a b : number) :
  Enclosure.within x a b -> Enclosure.within x (keepLower y a) (keepUpper y b).
Proof. intros [Hl Hu]. split; [now apply lt_keepLower | now apply gt_keepUpper]. Qed.

Lemma within_keep_self (x a b : number) : Enclosure.within x (keepLower x a) (keepUpper x b).
Proof. split; [apply lt_keepLower_self | apply gt_keepUpper_self]. Qed.

Lemma vertexLoop_encloses (positions : list number) (start : Z) (n : nat) :
  forall (k : Z) (mm : list number * list number),
  0 <= k ->
  Enclosure.enclose positions start k mm ->
  Enclosure.enclose positions start (k + Z.of_nat n) (vertexLoop positions (start + k) n mm).
Proof.
  induction n as [| n IH]; intros k mm Hk Hinv.
  - simpl. now rewrite Z.add_0_r.
  - destruct Hinv as (a0 & a1 & a2 & b0 & b1 & b2 & -> & Hbounds).
    cbn [vertexLoop]. change (Z.of_nat positionStrideSize) with 3.
    unfold FromArray.
    set (x0 := element positions (3 * (start + k))).
    set (x1 := element positions (3 * (start + k) + 1)).
    set (x2 := element positions (3 * (start + k) + 2)).
    assert (Hsteps : fold_left (componentStep [x0; x1; x2]) (seq 0 positionStrideSize)
                       ([a0; a1; a2], [b0; b1; b2])
                     = ([keepLower (ToNumber x0) a0; keepLower (ToNumber x1) a1;
                         keepLower (ToNumber x2) a2],
                        [keepUpper (ToNumber x0) b0; keepUpper (ToNumber x1) b1;
                         keepUpper (ToNumber x2) b2])).
    { unfold keepLower, keepUpper. simpl.
      generalize (ToNumber x0) (ToNumber x1) (ToNumber x2). intros n0 n1 n2.
      destruct (lt n0 a0), (gt n0 b0); simpl;
        destruct (lt n1 a1), (gt n1 b1); simpl;
          destruct (lt n2 a2), (gt n2 b2); reflexivity. }
    rewrite Hsteps.
    replace (k + Z.of_nat (S n)) with ((k + 1) + Z.of_nat n) by lia.
    replace (start + k + 1) with (start + (k + 1)) by lia.
    apply IH; [lia |].
    eexists _, _, _, _, _, _. split; [reflexivity |].
    intros i Hi. destruct (Z.eq_dec i (start + k)) as [-> | Hne].
    + unfold Enclosure.coordinate. cbn [Z.of_nat Pos.of_succ_nat Pos.succ].
      rewrite Z.add_0_r. fold x0 x1 x2.
      split; [| split]; apply within_keep_self.
    + destruct (Hbounds i ltac:(lia)) as (H0 & H1 & H2).
      split; [| split]; now apply within_keep.
Qed.

Lemma calculateMinMaxPositions_encloses (positions : list number)
    (vertexStart vertexCount : Z) :
  exists min0 min1 min2 max0 max1 max2,
    calculateMinMaxPositions positions vertexStart vertexCount
    = ([min0; min1; min2], [max0; max1; max2])
    /\ forall i, vertexStart <= i < vertexStart + vertexCount ->
         Enclosure.within (Enclosure.coordinate positions i 0) min0 max0
         /\ Enclosure.within (Enclosure.coordinate positions i 1) min1 max1
         /\ Enclosure.within (Enclosure.coordinate positions i 2) min2 max2.
Proof.
  unfold calculateMinMaxPositions.
  destruct (Z.eqb_spec vertexCount 0) as [-> | Hne].
  - eexists _, _, _, _, _, _. split; [reflexivity |]. intros i Hi. lia.
  - destruct (Z.le_gt_cases 0 vertexCount) as [Hpos | Hneg].
    + pose proof (vertexLoop_encloses positions vertexStart (Z.to_nat vertexCount) 0
                    ([Infinity; Infinity; Infinity], [NegInfinity; NegInfinity; NegInfinity])
                    ltac:(lia)) as Hloop.
      rewrite Z.add_0_r, Z.add_0_l, Z2Nat.id in Hloop by lia.
      apply Hloop. eexists _, _, _, _, _, _. split; [reflexivity |]. intros i Hi. lia.
    + replace (Z.to_nat vertexCount) with 0%nat by lia. cbn.
      eexists _, _, _, _, _, _. split; [reflexivity |]. intros i Hi. lia.
Qed.


(** ** The accessor of a vertex buffer *)

Lemma switch_Normal_In {K A : Type} (eqb : K -> K -> bool) (scrutinee : K)
    (cases : list (K * A)) (message : string) (result : A) :
  switch eqb scrutinee cases (Throw message) = Normal result ->
  In result (List.map snd cases).
Proof.
  induction cases as [| [label r] rest IH]; simpl; [discriminate |].
  destruct (eqb scrutinee label).
  - intros H. injection H as ->. now left.
  - intros H. right. now apply IH.
Qed.

Lemma length_calculateMinMaxPositions (positions : list number) (start count : Z) :
  length (calculateMinMaxPositions positions start count).1 = 3%nat
  /\ length (calculateMinMaxPositions positions start count).2 = 3%nat.
Proof.
  destruct (calculateMinMaxPositions_encloses positions start count)
    as (a0 & a1 & a2 & b0 & b1 & b2 & -> & _).
  split; reflexivity.
Qed.

Section Accessors.
Context (VertexBuffer : VertexBufferKinds).



(** X15.  [_exportVertexBuffer] appends one accessor and returns its index.  The
    accessor has 2, 3 or 4 components; the one of the positions has 3 and
    carries a minimum and a maximum of 3 numbers each, and no other
    accessor carries bounds. *)
Theorem exportVertexBuffer_accessor_shape (vertexBuffer : Babylon.VertexBuffer)
    (start count bufferViewIndex : Z) (e e' : GLTFExporter.t) (index : Z) :
  GLTFExporter._exportVertexBuffer VertexBuffer vertexBuffer start count bufferViewIndex e
  = Normal (index, e') ->
  exists accessor components,
    GLTFExporter._accessors e' = GLTFExporter._accessors e ++ [accessor]
    /\ index = Z.of_nat (length (GLTFExporter._accessors e))
    /\ IAccessor.bufferView accessor = bufferViewIndex
    /\ IAccessor.count accessor = count
    /\ AccessorElements.getAccessorElementCount (IAccessor.type accessor) = Some components
    /\ 2 <= components <= 4
    /\ if String.eqb (Babylon.getKind vertexBuffer) (PositionKind VertexBuffer)
       then components = 3
            /\ exists min max,
                 IAccessor.min accessor = Some min /\ IAccessor.max accessor = Some max
                 /\ length min = 3%nat /\ length max = 3%nat
       else IAccessor.min accessor = None /\ IAccessor.max accessor = None.
Proof.
  unfold GLTFExporter._exportVertexBuffer. intros Hrun.
  apply bind_Normal in Hrun. destruct Hrun as ([min max] & e1 & Hbounds & Hrun).
  apply bind_Normal in Hrun. destruct Hrun as (accessorType & e2 & Htype & Hrun).
  apply lift_Normal in Htype. destruct Htype as [Htype ->].
  run Hrun.
  assert (Hcomponents : exists components,
            AccessorElements.getAccessorElementCount accessorType = Some components
            /\ 2 <= components <= 4
            /\ (String.eqb (Babylon.getKind vertexBuffer) (PositionKind VertexBuffer) = true ->
                components = 3)).
  { destruct (String.eqb (Babylon.getKind vertexBuffer) (PositionKind VertexBuffer)) eqn:Hkind.
    - unfold getAccessorType in Htype. cbn [switch] in Htype. rewrite Hkind in Htype.
      injection Htype as <-. exists 3. repeat split; lia.
    - apply switch_Normal_In in Htype. cbn in Htype.
      repeat (destruct Htype as [<- | Htype]; [eexists; split; [reflexivity |]; split; [lia | discriminate] |]).
      contradiction. }
  destruct Hcomponents as (components & Hcount & Hrange & Hposition).
  destruct (String.eqb (Babylon.getKind vertexBuffer) (PositionKind VertexBuffer)) eqn:Hkind.
  - destruct (Babylon.getFloatData vertexBuffer) as [positionsData |]; [| discriminate].
    destruct (calculateMinMaxPositions positionsData start count) as [min' max'] eqn:Hcalc.
    apply ret_Normal in Hbounds. destruct Hbounds as [Hpair ->]. injection Hpair as -> ->.
    destruct (length_calculateMinMaxPositions positionsData start count) as [Hmin Hmax].
    rewrite Hcalc in Hmin, Hmax. cbn in Hmin, Hmax.
    destruct e as [ac bv ms ns ss dw cs os rs nm mm us]. cbn.
    eexists _, components. split; [reflexivity |].
    split; [rewrite length_app; cbn; lia |].
    cbn. repeat match goal with |- _ /\ _ => split end; try reflexivity; try lia; auto.
    eexists _, _. repeat split; assumption.
  - apply ret_Normal in Hbounds. destruct Hbounds as [Hpair ->]. injection Hpair as -> ->.
    destruct e as [ac bv ms ns ss dw cs os rs nm mm us]. cbn.
    eexists _, components. split; [reflexivity |].
    split; [rewrite length_app; cbn; lia |].
    cbn. repeat match goal with |- _ /\ _ => split end; try reflexivity; try lia; auto.
Qed.

End Accessors.

Lemma exportVertexBuffer_accessor_shape_witness :
  match GLTFExporter._exportVertexBuffer BabylonVertexBuffer Examples.positions 0 3 1
          GLTFExporter.new with
  | Normal (index, e') =>
      exists accessor components,
        GLTFExporter._accessors e' = GLTFExporter._accessors GLTFExporter.new ++ [accessor]
        /\ index = Z.of_nat (length (GLTFExporter._accessors GLTFExporter.new))
        /\ IAccessor.bufferView accessor = 1
        /\ IAccessor.count accessor = 3
        /\ AccessorElements.getAccessorElementCount (IAccessor.type accessor) = Some components
        /\ 2 <= components <= 4
        /\ components = 3
        /\ exists min max,
             IAccessor.min accessor = Some min /\ IAccessor.max accessor = Some max
             /\ length min = 3%nat /\ length max = 3%nat
  | Throw _ => False
  end.
Proof.
  destruct (GLTFExporter._exportVertexBuffer BabylonVertexBuffer Examples.positions 0 3 1
              GLTFExporter.new) as [[index e'] | message] eqn:Hrun;
    [| vm_compute in Hrun; discriminate Hrun].
  exact (exportVertexBuffer_accessor_shape BabylonVertexBuffer Examples.positions 0 3 1
           GLTFExporter.new e' index Hrun).
Defined.

(** ** The caches of the buffer views *)




Lemma stateOf_updateState_eq field f e :
  GLTFExporter.stateOf field
    (match field with
     | GLTFExporter.OriginalState => GLTFExporter.update_originalState f
     | GLTFExporter.ConvertToRightHandedState => GLTFExporter.update_convertToRightHandedState f
     end e)
  = f (GLTFExporter.stateOf field e).
Proof. now destruct e, field. Qed.

Section Caches.
Context (VertexBuffer : VertexBufferKinds) (float32Bytes : number -> list Z).
Context (_options : GLTFExporter.IExportOptions).




End Caches.

Section WrittenOnce.
Context (VertexBuffer : VertexBufferKinds) (float32Bytes : number -> list Z).
Context (_options : GLTFExporter.IExportOptions).



End WrittenOnce.

(** ** What the export of a mesh leaves alone *)

Section Respects.
Context (R : GLTFExporter.t -> GLTFExporter.t -> Prop) `{!PreOrder R}.

Lemma respects_ret {A : Type} (a : A) : Frame.respects R (mret a : GLTFExporter.M A).
Proof. intros e b e' Hrun. apply ret_Normal in Hrun. destruct Hrun as [_ ->]. reflexivity. Qed.

Lemma respects_read : Frame.respects R GLTFExporter.read.
Proof. intros e b e' Hrun. apply read_Normal in Hrun. destruct Hrun as [_ ->]. reflexivity. Qed.

Lemma respects_throw {A : Type} (message : string) :
  Frame.respects R (GLTFExporter.throw message : GLTFExporter.M A).
Proof. intros e b e' Hrun. discriminate. Qed.

Lemma respects_lift {A : Type} (c : Completion A) : Frame.respects R (GLTFExporter.lift c).
Proof. intros e b e' Hrun. apply lift_Normal in Hrun. destruct Hrun as [_ ->]. reflexivity. Qed.

Lemma respects_modify (f : GLTFExporter.t -> GLTFExporter.t) :
  (forall e, R e (f e)) -> Frame.respects R (GLTFExporter.modify f).
Proof. intros Hf e b e' Hrun. apply modify_Normal in Hrun. subst e'. apply Hf. Qed.

Lemma respects_bind {A B : Type} (m : GLTFExporter.M A) (k : A -> GLTFExporter.M B) :
  Frame.respects R m -> (forall a, Frame.respects R (k a)) -> Frame.respects R (m ≫= k).
Proof.
  intros Hm Hk e b e'' Hrun. apply bind_Normal in Hrun.
  destruct Hrun as (a & e' & Hrun1 & Hrun2).
  etrans; [eapply Hm, Hrun1 | eapply Hk, Hrun2].
Qed.

Lemma respects_forOf {A S : Type} (l : list A) (body : S -> A -> GLTFExporter.M S) :
  (forall s x, x ∈ l -> Frame.respects R (body s x)) ->
  forall s, Frame.respects R (GLTFExporter.forOf l body s).
Proof.
  induction l as [| x rest IH]; intros Hbody s; simpl.
  - apply respects_ret.
  - apply respects_bind; [apply Hbody; left |].
    intros s'. apply IH. intros s'' y Hy. apply Hbody. now right.
Qed.

End Respects.

#[local] Instance keepsGeometry_preorder : PreOrder Frame.keepsGeometry.
Proof.
  split.
  - intros e. unfold Frame.keepsGeometry. repeat split.
  - intros e1 e2 e3 H12 H23. unfold Frame.keepsGeometry in *.
    destruct H12 as (?&?&?&?&?&?&?&?&?&?), H23 as (?&?&?&?&?&?&?&?&?&?).
    repeat split; congruence.
Qed.

#[local] Instance appends_preorder (field : GLTFExporter.StateField) :
  PreOrder (Frame.appends field).
Proof.
  split.
  - intros e. unfold Frame.appends. repeat split; reflexivity.
  - intros e1 e2 e3 H12 H23. unfold Frame.appends in *.
    destruct H12 as (?&?&?&?&?&?&?&?&?), H23 as (?&?&?&?&?&?&?&?&?).
    repeat match goal with |- _ /\ _ => split end;
      first [etrans; eassumption | congruence].
Qed.

Lemma keepsGeometry_appends (field : GLTFExporter.StateField) (e e' : GLTFExporter.t) :
  Frame.keepsGeometry e e' -> Frame.appends field e e'.
Proof.
  intros (Ha & Hb & Hw & Hm & Hn & Hs & Hnm & Hc & Ho & Hr). unfold Frame.appends.
  rewrite Ha, Hb, Hw.
  repeat match goal with |- _ /\ _ => split end; try reflexivity; try assumption.
  destruct field; assumption.
Qed.

Lemma appends_updateState (field : GLTFExporter.StateField)
    (f : ExporterState.t -> ExporterState.t) :
  Frame.respects (Frame.appends field) (GLTFExporter.updateState field f).
Proof.
  apply respects_modify; try exact _. intros e. destruct e, field; cbn;
    unfold Frame.appends; cbn; repeat split; reflexivity.
Qed.

Lemma appends_update_accessors (field : GLTFExporter.StateField) (new : list IAccessor.t) :
  Frame.respects (Frame.appends field)
    (GLTFExporter.modify (GLTFExporter.update_accessors (fun l => l ++ new))).
Proof.
  apply respects_modify; try exact _. intros e. destruct e, field;
    unfold Frame.appends; cbn; repeat match goal with |- _ /\ _ => split end;
    first [reflexivity | apply prefix_app_r; reflexivity].
Qed.

Lemma appends_update_bufferViews (field : GLTFExporter.StateField) (new : list IBufferView.t) :
  Frame.respects (Frame.appends field)
    (GLTFExporter.modify (GLTFExporter.update_bufferViews (fun l => l ++ new))).
Proof.
  apply respects_modify; try exact _. intros e. destruct e, field;
    unfold Frame.appends; cbn; repeat match goal with |- _ /\ _ => split end;
    first [reflexivity | apply prefix_app_r; reflexivity].
Qed.

Lemma appends_update_dataWriter (field : GLTFExporter.StateField) (new : list Z) :
  Frame.respects (Frame.appends field)
    (GLTFExporter.modify (GLTFExporter.update_dataWriter (fun l => l ++ new))).
Proof.
  apply respects_modify; try exact _. intros e. destruct e, field;
    unfold Frame.appends; cbn; repeat match goal with |- _ /\ _ => split end;
    first [reflexivity | apply prefix_app_r; reflexivity].
Qed.

Lemma appends_update_materialMap (field : GLTFExporter.StateField)
    (f : gmap positive Z -> gmap positive Z) :
  Frame.respects (Frame.appends field) (GLTFExporter.modify (GLTFExporter.update_materialMap f)).
Proof.
  apply respects_modify; try exact _. intros e. destruct e, field;
    unfold Frame.appends; cbn; repeat match goal with |- _ /\ _ => split end; reflexivity.
Qed.

Create HintDb frame.
#[local] Hint Resolve appends_updateState appends_update_accessors appends_update_bufferViews
  appends_update_dataWriter appends_update_materialMap : frame.

Ltac frame_step :=
  first
    [ apply respects_ret; try exact _
    | apply respects_read; try exact _
    | apply respects_throw; try exact _
    | apply respects_lift; try exact _
    | solve [auto with frame]
    | apply respects_bind; try exact _; [| intros ?]
    | match goal with
      | |- Frame.respects _ (match ?x with _ => _ end) => destruct x eqn:?
      | |- Frame.respects _ (let '(_, _) := ?x in _) => destruct x eqn:?
      end ].
Ltac frame := repeat frame_step.

Section Geometry.
Context (VertexBuffer : VertexBufferKinds) (Material : MaterialFillModes).
Context (float32Bytes : number -> list Z).
Context (exportPBRMaterialAsync exportStandardMaterialAsync
           : Babylon.Material -> bool -> GLTFExporter.M Z).
Context (_options : GLTFExporter.IExportOptions).
Context (field : GLTFExporter.StateField).

Lemma exportIndicesData_appends indices is32Bits convertToRightHanded :
  Frame.respects (Frame.appends field)
    (GLTFExporter._exportIndicesData indices is32Bits convertToRightHanded).
Proof. unfold GLTFExporter._exportIndicesData. frame. Qed.

Lemma exportIndices_appends bufferViewIndex is32Bits start count :
  Frame.respects (Frame.appends field)
    (GLTFExporter._exportIndices bufferViewIndex is32Bits start count).
Proof. unfold GLTFExporter._exportIndices. frame. Qed.

Lemma exportBuffer_appends buffer byteStride convertToRightHanded :
  Frame.respects (Frame.appends field)
    (GLTFExporter._exportBuffer float32Bytes buffer byteStride convertToRightHanded).
Proof. unfold GLTFExporter._exportBuffer. frame. Qed.

Lemma exportVertexBuffer_appends vertexBuffer start count bufferViewIndex :
  Frame.respects (Frame.appends field)
    (GLTFExporter._exportVertexBuffer VertexBuffer vertexBuffer start count bufferViewIndex).
Proof. unfold GLTFExporter._exportVertexBuffer. frame. Qed.

#[local] Hint Resolve exportIndicesData_appends exportIndices_appends exportBuffer_appends
  exportVertexBuffer_appends : frame.

Lemma exportPrimitiveIndices_appends convertToRightHanded indices subMesh :
  Frame.respects (Frame.appends field)
    (GLTFExporter.exportPrimitiveIndices field convertToRightHanded indices subMesh).
Proof. unfold GLTFExporter.exportPrimitiveIndices. frame. Qed.

Lemma exportPrimitiveAttribute_appends convertToRightHanded subMesh attributes entry :
  Frame.respects (Frame.appends field)
    (GLTFExporter.exportPrimitiveAttribute VertexBuffer float32Bytes _options field
       convertToRightHanded subMesh attributes entry).
Proof. unfold GLTFExporter.exportPrimitiveAttribute. frame. Qed.

Hypothesis exportPBRMaterialAsync_keeps : forall material hasUVs,
  Frame.respects Frame.keepsGeometry (exportPBRMaterialAsync material hasUVs).
Hypothesis exportStandardMaterialAsync_keeps : forall material hasUVs,
  Frame.respects Frame.keepsGeometry (exportStandardMaterialAsync material hasUVs).

Lemma exportMaterialAsync_appends material hasUVs :
  Frame.respects (Frame.appends field)
    (GLTFExporter._exportMaterialAsync exportPBRMaterialAsync exportStandardMaterialAsync
       material hasUVs).
Proof.
  unfold GLTFExporter._exportMaterialAsync.
  destruct (Babylon.material_class material).
  all: try (apply respects_ret; exact _).
  all: intros e a e' Hrun; apply keepsGeometry_appends.
  - eapply exportPBRMaterialAsync_keeps, Hrun.
  - eapply exportStandardMaterialAsync_keeps, Hrun.
Qed.

#[local] Hint Resolve exportMaterialAsync_appends : frame.

Lemma exportPrimitiveMaterial_appends vertexBuffers subMesh :
  Frame.respects (Frame.appends field)
    (GLTFExporter.exportPrimitiveMaterial exportPBRMaterialAsync exportStandardMaterialAsync
       vertexBuffers subMesh).
Proof. unfold GLTFExporter.exportPrimitiveMaterial. frame. Qed.

#[local] Hint Resolve exportPrimitiveIndices_appends exportPrimitiveAttribute_appends
  exportPrimitiveMaterial_appends : frame.

Lemma exportPrimitive_appends babylonMesh convertToRightHanded indices vertexBuffers
    primitives subMesh :
  Frame.respects (Frame.appends field)
    (GLTFExporter.exportPrimitive VertexBuffer Material float32Bytes exportPBRMaterialAsync
       exportStandardMaterialAsync _options babylonMesh field convertToRightHanded indices
       vertexBuffers primitives subMesh).
Proof.
  unfold GLTFExporter.exportPrimitive. frame.
  apply respects_forOf; try exact _. intros s x _. auto with frame.
Qed.

End Geometry.

Section Meshes.
Context (VertexBuffer : VertexBufferKinds) (Material : MaterialFillModes).
Context (float32Bytes : number -> list Z).
Context (exportPBRMaterialAsync exportStandardMaterialAsync
           : Babylon.Material -> bool -> GLTFExporter.M Z).
Context (_options : GLTFExporter.IExportOptions).

Lemma exportPrimitive_pushes_one babylonMesh field convertToRightHanded indices vertexBuffers
    primitives subMesh e primitives' e' :
  GLTFExporter.exportPrimitive VertexBuffer Material float32Bytes exportPBRMaterialAsync
    exportStandardMaterialAsync _options babylonMesh field convertToRightHanded indices
    vertexBuffers primitives subMesh e = Normal (primitives', e') ->
  length primitives' = S (length primitives).
Proof.
  unfold GLTFExporter.exportPrimitive. intros Hrun.
  do 4 (apply bind_Normal in Hrun; destruct Hrun as (? & ? & _ & Hrun)).
  apply ret_Normal in Hrun. destruct Hrun as [-> _].
  rewrite length_app. simpl. lia.
Qed.

Lemma forOf_exportPrimitive_length babylonMesh field convertToRightHanded indices vertexBuffers
    (subMeshes : list Babylon.SubMesh) : forall primitives e primitives' e',
  GLTFExporter.forOf subMeshes
    (GLTFExporter.exportPrimitive VertexBuffer Material float32Bytes exportPBRMaterialAsync
       exportStandardMaterialAsync _options babylonMesh field convertToRightHanded indices
       vertexBuffers) primitives e = Normal (primitives', e') ->
  length primitives' = (length primitives + length subMeshes)%nat.
Proof.
  induction subMeshes as [| subMesh rest IH]; intros primitives e primitives' e' Hrun;
    simpl in Hrun.
  - apply ret_Normal in Hrun. destruct Hrun as [-> _]. simpl. lia.
  - apply bind_Normal in Hrun. destruct Hrun as (primitives1 & e1 & Hfirst & Hrest).
    apply exportPrimitive_pushes_one in Hfirst. apply IH in Hrest. simpl. lia.
Qed.

Lemma exportMesh_effect (babylonMesh : Babylon.Mesh) (e e' : GLTFExporter.t)
    (index : Z) :
  (forall material hasUVs,
      Frame.respects Frame.keepsGeometry (exportPBRMaterialAsync material hasUVs)) ->
  (forall material hasUVs,
      Frame.respects Frame.keepsGeometry (exportStandardMaterialAsync material hasUVs)) ->
  GLTFExporter._exportMeshAsync VertexBuffer Material float32Bytes exportPBRMaterialAsync
    exportStandardMaterialAsync _options babylonMesh e = Normal (index, e') ->
  index = Z.of_nat (length (GLTFExporter._meshes e))
  /\ (exists primitives,
        GLTFExporter._meshes e' = GLTFExporter._meshes e ++ [GLTFExporter.IMesh.mk primitives]
        /\ length primitives = Frame.primitiveCount babylonMesh)
  /\ GLTFExporter._accessors e `prefix_of` GLTFExporter._accessors e'
  /\ GLTFExporter._bufferViews e `prefix_of` GLTFExporter._bufferViews e'
  /\ GLTFExporter._dataWriter e `prefix_of` GLTFExporter._dataWriter e'
  /\ GLTFExporter._nodes e' = GLTFExporter._nodes e
  /\ GLTFExporter._scenes e' = GLTFExporter._scenes e
  /\ GLTFExporter._nodeMap e' = GLTFExporter._nodeMap e
  /\ GLTFExporter._nodesToConvertToRightHanded e' = GLTFExporter._nodesToConvertToRightHanded e
  /\ let field := GLTFExporter._getState (Babylon.mesh_id babylonMesh) e in
     GLTFExporter.stateOf (Frame.otherState field) e'
     = GLTFExporter.stateOf (Frame.otherState field) e.
Proof.
  intros Hpbr Hstandard Hrun. unfold GLTFExporter._exportMeshAsync in Hrun.
  apply bind_Normal in Hrun. destruct Hrun as (e0 & e1 & Hread & Hrun).
  apply read_Normal in Hread. destruct Hread as [-> ->].
  apply bind_Normal in Hrun. destruct Hrun as (primitives & e1 & Hprimitives & Hrun).
  run Hrun.
  set (field := GLTFExporter._getState (Babylon.mesh_id babylonMesh) e) in *.
  assert (Hframe : Frame.appends field e e1 /\ length primitives = Frame.primitiveCount babylonMesh).
  { unfold Frame.primitiveCount.
    destruct (Babylon.geometry babylonMesh) as [geometry |]; cbn [mbind option_bind] in *.
    2:{ apply ret_Normal in Hprimitives. destruct Hprimitives as [-> ->].
        split; [reflexivity |]. now destruct (Babylon.subMeshes babylonMesh). }
    destruct (Babylon.getVertexBuffers geometry) as [vertexBuffers |].
    2:{ apply ret_Normal in Hprimitives. destruct Hprimitives as [-> ->].
        split; [reflexivity |]. now destruct (Babylon.subMeshes babylonMesh). }
    destruct (Babylon.subMeshes babylonMesh) as [[| subMesh subMeshes] |].
    - apply ret_Normal in Hprimitives. destruct Hprimitives as [-> ->].
      split; reflexivity.
    - split.
      + eapply respects_forOf; [exact _ | | exact Hprimitives].
        intros s x _. now apply exportPrimitive_appends.
      + now apply forOf_exportPrimitive_length in Hprimitives.
    - apply ret_Normal in Hprimitives. destruct Hprimitives as [-> ->].
      split; reflexivity. }
  destruct Hframe as [(Ha & Hb & Hw & Hm & Hn & Hs & Hnm & Hc & Ho) Hlength].
  destruct e1 as [ac bv ms ns ss dw cs os rs nm mm us]. cbn in *.
  subst ms. rewrite length_app. cbn.
  repeat match goal with |- _ /\ _ => split end; try assumption; try lia.
  exists primitives. split; [reflexivity | exact Hlength].
Qed.

(** X16.  The export of a mesh appends one mesh, whose index it returns and
    which has one primitive for each submesh.  It appends to the accessors,
    the buffer views and the bytes, so that the indices handed out before
    stay valid, and it touches neither the nodes, the scenes and the node
    map nor the caches of the other handedness. *)
Theorem exportMesh_appends_one_mesh (babylonMesh : Babylon.Mesh) (e e' : GLTFExporter.t)
    (index : Z) :
  (forall material hasUVs,
      Frame.respects Frame.keepsGeometry (exportPBRMaterialAsync material hasUVs)) ->
  (forall material hasUVs,
      Frame.respects Frame.keepsGeometry (exportStandardMaterialAsync material hasUVs)) ->
  GLTFExporter._exportMeshAsync VertexBuffer Material float32Bytes exportPBRMaterialAsync
    exportStandardMaterialAsync _options babylonMesh e = Normal (index, e') ->
  index = Z.of_nat (length (GLTFExporter._meshes e))
  /\ (exists primitives,
        GLTFExporter._meshes e' = GLTFExporter._meshes e ++ [GLTFExporter.IMesh.mk primitives]
        /\ length primitives = Frame.primitiveCount babylonMesh)
  /\ GLTFExporter._accessors e `prefix_of` GLTFExporter._accessors e'
  /\ GLTFExporter._bufferViews e `prefix_of` GLTFExporter._bufferViews e'
  /\ GLTFExporter._dataWriter e `prefix_of` GLTFExporter._dataWriter e'
  /\ GLTFExporter._nodes e' = GLTFExporter._nodes e
  /\ GLTFExporter._scenes e' = GLTFExporter._scenes e
  /\ GLTFExporter._nodeMap e' = GLTFExporter._nodeMap e
  /\ GLTFExporter._nodesToConvertToRightHanded e' = GLTFExporter._nodesToConvertToRightHanded e
  /\ let field := GLTFExporter._getState (Babylon.mesh_id babylonMesh) e in
     GLTFExporter.stateOf (Frame.otherState field) e'
     = GLTFExporter.stateOf (Frame.otherState field) e.
Proof. apply exportMesh_effect. Qed.

End Meshes.

Lemma noMaterialExporter_keepsGeometry (material : Babylon.Material) (hasUVs : bool) :
  Frame.respects Frame.keepsGeometry (Examples.noMaterialExporter material hasUVs).
Proof. apply respects_ret. exact _. Qed.

Lemma exportMesh_appends_one_mesh_witness :
  match Examples.exportMesh (Examples.triangle [Examples.wholeTriangle; Examples.wholeTriangle])
          GLTFExporter.new with
  | Normal (index, e') =>
      index = 0
      /\ (exists primitives,
            GLTFExporter._meshes e' = [GLTFExporter.IMesh.mk primitives]
            /\ length primitives = 2%nat)
      /\ GLTFExporter._nodes e' = []
      /\ GLTFExporter._convertToRightHandedState e' = ExporterState.new
  | Throw _ => False
  end.
Proof.
  destruct (Examples.exportMesh
              (Examples.triangle [Examples.wholeTriangle; Examples.wholeTriangle])
              GLTFExporter.new) as [[index e'] | message] eqn:Hrun;
    [| vm_compute in Hrun; discriminate Hrun].
  destruct (exportMesh_appends_one_mesh BabylonVertexBuffer BabylonMaterial
              Examples.noFloat32Bytes Examples.noMaterialExporter Examples.noMaterialExporter
              Examples.options
              (Examples.triangle [Examples.wholeTriangle; Examples.wholeTriangle])
              GLTFExporter.new e' index
              noMaterialExporter_keepsGeometry noMaterialExporter_keepsGeometry Hrun)
    as (Hindex & Hmeshes & _ & _ & _ & Hnodes & _ & _ & _ & Hother).
  split; [exact Hindex |]. split; [exact Hmeshes |]. split; [exact Hnodes | exact Hother].
Defined.

(** ** The export of the nodes *)

#[local] Instance keepsNodes_preorder : PreOrder Hierarchy.keepsNodes.
Proof.
  split.
  - intros e. unfold Hierarchy.keepsNodes. repeat split.
  - intros e1 e2 e3 (?&?&?&?) (?&?&?&?). unfold Hierarchy.keepsNodes.
    repeat split; congruence.
Qed.

Lemma appends_keepsNodes (field : GLTFExporter.StateField) (e e' : GLTFExporter.t) :
  Frame.appends field e e' -> Hierarchy.keepsNodes e e'.
Proof. intros (_ & _ & _ & _ & Hn & Hs & Hnm & Hc & _). repeat split; assumption. Qed.

Lemma keepsNodes_updateState (field : GLTFExporter.StateField)
    (f : ExporterState.t -> ExporterState.t) :
  Frame.respects Hierarchy.keepsNodes (GLTFExporter.updateState field f).
Proof.
  apply respects_modify; try exact _. intros e. destruct e, field; repeat split.
Qed.

Section Nodes.
Context (VertexBuffer : VertexBufferKinds) (Material : MaterialFillModes).
Context (float32Bytes : number -> list Z).
Context (exportPBRMaterialAsync exportStandardMaterialAsync
           : Babylon.Material -> bool -> GLTFExporter.M Z).
Context (_options : GLTFExporter.IExportOptions).
Hypothesis exportPBRMaterialAsync_keeps : forall material hasUVs,
  Frame.respects Frame.keepsGeometry (exportPBRMaterialAsync material hasUVs).
Hypothesis exportStandardMaterialAsync_keeps : forall material hasUVs,
  Frame.respects Frame.keepsGeometry (exportStandardMaterialAsync material hasUVs).

Lemma exportMeshAsync_keepsNodes (babylonMesh : Babylon.Mesh) :
  Frame.respects Hierarchy.keepsNodes
    (GLTFExporter._exportMeshAsync VertexBuffer Material float32Bytes exportPBRMaterialAsync
       exportStandardMaterialAsync _options babylonMesh).
Proof.
  intros e index e' Hrun.
  destruct (exportMesh_effect VertexBuffer Material float32Bytes exportPBRMaterialAsync
              exportStandardMaterialAsync _options babylonMesh e e' index
              exportPBRMaterialAsync_keeps exportStandardMaterialAsync_keeps Hrun)
    as (_ & _ & _ & _ & _ & Hn & Hs & Hnm & Hc & _).
  repeat split; assumption.
Qed.

Lemma exportNode_effect (babylonNode : Babylon.Node) (e e' : GLTFExporter.t) (index : Z) :
  GLTFExporter._exportNodeAsync VertexBuffer Material float32Bytes exportPBRMaterialAsync
    exportStandardMaterialAsync _options babylonNode e = Normal (index, e') ->
  index = Z.of_nat (length (GLTFExporter._nodes e))
  /\ (exists node,
        GLTFExporter._nodes e' = GLTFExporter._nodes e ++ [node]
        /\ GLTFExporter.INode.children node = None)
  /\ GLTFExporter._nodeMap e' = GLTFExporter._nodeMap e
  /\ GLTFExporter._scenes e' = GLTFExporter._scenes e
  /\ GLTFExporter._nodesToConvertToRightHanded e'
     = GLTFExporter._nodesToConvertToRightHanded e.
Proof.
  unfold GLTFExporter._exportNodeAsync. intros Hrun.
  apply bind_Normal in Hrun. destruct Hrun as (e0 & e1 & Hread & Hrun).
  apply read_Normal in Hread. destruct Hread as [-> ->].
  apply bind_Normal in Hrun. destruct Hrun as (mesh & e1 & Hmesh & Hrun).
  assert (Hkeeps : Hierarchy.keepsNodes e e1).
  { set (e0 := e) in Hmesh at 1 2.
    assert (Hcase : forall babylonMesh,
      Frame.respects Hierarchy.keepsNodes
        (meshIndex ← GLTFExporter.orElse
                       (ExporterState.getMesh (Babylon.mesh_id babylonMesh)
                          (GLTFExporter.stateOf
                             (GLTFExporter._getState (Babylon.uniqueId babylonNode) e0) e0))
                       (GLTFExporter._exportMeshAsync VertexBuffer Material float32Bytes
                          exportPBRMaterialAsync exportStandardMaterialAsync _options
                          babylonMesh);
         GLTFExporter.updateState (GLTFExporter._getState (Babylon.uniqueId babylonNode) e0)
           (ExporterState.setMesh (Babylon.mesh_id babylonMesh) meshIndex);;
         mret (Some meshIndex))).
    { intros babylonMesh. apply respects_bind; try exact _.
      - unfold GLTFExporter.orElse.
        destruct (ExporterState.getMesh _ _) as [v |]; [destruct (v =? 0) |];
          first [apply exportMeshAsync_keepsNodes | apply respects_ret; exact _].
      - intros meshIndex. apply respects_bind; try exact _.
        + apply keepsNodes_updateState.
        + intros _. apply respects_ret; exact _. }
    destruct (Babylon.class babylonNode);
      first [ eapply Hcase, Hmesh
            | apply ret_Normal in Hmesh; destruct Hmesh as [_ ->]; reflexivity ]. }
  run Hrun. destruct Hkeeps as (Hn & Hnm & Hs & Hc).
  destruct e1 as [ac bv ms ns ss dw cs os rs nm mm us]. cbn in *. subst.
  rewrite length_app. cbn.
  repeat match goal with |- _ /\ _ => split end; try reflexivity; try lia.
  eexists. split; reflexivity.
Qed.

Lemma orElse_Normal (a : option Z) (b : GLTFExporter.M Z) (e e' : GLTFExporter.t) (v : Z) :
  GLTFExporter.orElse a b e = Normal (v, e') ->
  (a = Some v /\ v <> 0 /\ e' = e) \/ b e = Normal (v, e').
Proof.
  unfold GLTFExporter.orElse. destruct a as [w |]; [| now right].
  destruct (Z.eqb_spec w 0) as [-> | Hne]; [now right |].
  intros Hrun. apply ret_Normal in Hrun. destruct Hrun as [-> ->]. now left.
Qed.

Lemma exportNodes_effect (babylonNodes : list Babylon.Node) : forall (e e' : GLTFExporter.t) u,
  Hierarchy.nodeMapValid e ->
  GLTFExporter._exportNodesAsync VertexBuffer Material float32Bytes exportPBRMaterialAsync
    exportStandardMaterialAsync _options babylonNodes e = Normal (u, e') ->
  Hierarchy.nodeMapValid e'
  /\ (forall babylonNode, babylonNode ∈ babylonNodes ->
        is_Some (GLTFExporter._nodeMap e' !! Babylon.uniqueId babylonNode))
  /\ (forall id, is_Some (GLTFExporter._nodeMap e !! id) ->
        is_Some (GLTFExporter._nodeMap e' !! id))
  /\ GLTFExporter._nodes e `prefix_of` GLTFExporter._nodes e'
  /\ GLTFExporter._scenes e' = GLTFExporter._scenes e
  /\ GLTFExporter._nodesToConvertToRightHanded e'
     = GLTFExporter._nodesToConvertToRightHanded e.
Proof.
  unfold GLTFExporter._exportNodesAsync.
  induction babylonNodes as [| babylonNode rest IH]; intros e e' u Hvalid Hrun; simpl in Hrun.
  - apply ret_Normal in Hrun. destruct Hrun as [_ ->].
    split; [exact Hvalid |]. split; [intros n Hn; apply elem_of_nil in Hn; contradiction |].
    repeat split; auto.
  - apply bind_Normal in Hrun. destruct Hrun as (u1 & e1 & Hfirst & Hrest).
    apply bind_Normal in Hfirst. destruct Hfirst as (e0 & e0' & Hread & Hfirst).
    apply read_Normal in Hread. destruct Hread as [-> ->].
    apply bind_Normal in Hfirst. destruct Hfirst as (nodeIndex & e2 & Hindex & Hset).
    apply modify_Normal in Hset.
    assert (Hstep : GLTFExporter._nodes e `prefix_of` GLTFExporter._nodes e2
                    /\ GLTFExporter._nodeMap e2 = GLTFExporter._nodeMap e
                    /\ GLTFExporter._scenes e2 = GLTFExporter._scenes e
                    /\ GLTFExporter._nodesToConvertToRightHanded e2
                       = GLTFExporter._nodesToConvertToRightHanded e
                    /\ 0 <= nodeIndex < Z.of_nat (length (GLTFExporter._nodes e2))).
    { apply orElse_Normal in Hindex. destruct Hindex as [(Hcached & _ & ->) | Hexport].
      - repeat split; try reflexivity; eapply Hvalid, Hcached.
      - apply exportNode_effect in Hexport.
        destruct Hexport as (-> & (node & Hnodes & _) & Hnm & Hs & Hc).
        rewrite Hnodes, length_app. cbn.
        repeat match goal with |- _ /\ _ => split end; try assumption; try lia.
        now apply prefix_app_r. }
    destruct Hstep as (Hprefix & Hnm & Hs & Hc & Hindex').
    assert (Hvalid1 : Hierarchy.nodeMapValid e1).
    { subst e1. intros id index. destruct e2 as [ac bv ms ns ss dw cs os rs nm mm us].
      cbn in *. subst nm. intros Hlookup.
      destruct (decide (id = Babylon.uniqueId babylonNode)) as [-> | Hne].
      - rewrite lookup_insert_eq in Hlookup. injection Hlookup as <-. exact Hindex'.
      - rewrite lookup_insert_ne in Hlookup by congruence.
        pose proof (Hvalid id index Hlookup) as Hold.
        apply prefix_length in Hprefix. lia. }
    destruct u1.
    destruct (IH e1 e' u Hvalid1 Hrest) as (Hvalid' & Hall & Hkept & Hprefix' & Hs' & Hc').
    assert (Hnm1 : GLTFExporter._nodeMap e1
                   = <[Babylon.uniqueId babylonNode := nodeIndex]> (GLTFExporter._nodeMap e)).
    { subst e1. destruct e2. cbn in *. now subst. }
    assert (Hrest1 : GLTFExporter._nodes e1 = GLTFExporter._nodes e2
                     /\ GLTFExporter._scenes e1 = GLTFExporter._scenes e2
                     /\ GLTFExporter._nodesToConvertToRightHanded e1
                        = GLTFExporter._nodesToConvertToRightHanded e2).
    { subst e1. destruct e2. repeat split. }
    destruct Hrest1 as (Hn1 & Hs1 & Hc1).
    split; [exact Hvalid' |]. split; [| split; [| split; [| split]]].
    + intros n Hn. apply elem_of_cons in Hn. destruct Hn as [-> | Hn]; [| now apply Hall].
      apply Hkept. rewrite Hnm1, lookup_insert_eq. eauto.
    + intros id Hid. apply Hkept. rewrite Hnm1.
      destruct (decide (id = Babylon.uniqueId babylonNode)) as [-> | Hne];
        [rewrite lookup_insert_eq; eauto | now rewrite lookup_insert_ne by congruence].
    + etrans; [exact Hprefix |]. rewrite <- Hn1. exact Hprefix'.
    + congruence.
    + congruence.
Qed.

End Nodes.

Lemma withChildren_app (node : GLTFExporter.INode.t) (a b : list Z) :
  Hierarchy.withChildren (Hierarchy.withChildren node a) b = Hierarchy.withChildren node (a ++ b).
Proof.
  destruct a as [| x a]; [reflexivity |]. destruct b as [| y b].
  - now rewrite app_nil_r.
  - cbn. now rewrite <- app_assoc.
Qed.

Lemma linkNodes_effect (babylonNodes : list Babylon.Node) :
  forall (sceneNodes : list Z) (e : GLTFExporter.t),
  Hierarchy.nodeMapValid e ->
  (forall babylonNode, babylonNode ∈ babylonNodes ->
     is_Some (GLTFExporter._nodeMap e !! Babylon.uniqueId babylonNode)) ->
  exists e',
    GLTFExporter.forOf babylonNodes GLTFExporter.linkNode sceneNodes e
    = Normal (sceneNodes ++ Hierarchy.rootsOf (GLTFExporter._nodeMap e) babylonNodes, e')
    /\ GLTFExporter._nodeMap e' = GLTFExporter._nodeMap e
    /\ GLTFExporter._scenes e' = GLTFExporter._scenes e
    /\ GLTFExporter._meshes e' = GLTFExporter._meshes e
    /\ GLTFExporter._accessors e' = GLTFExporter._accessors e
    /\ GLTFExporter._bufferViews e' = GLTFExporter._bufferViews e
    /\ GLTFExporter._dataWriter e' = GLTFExporter._dataWriter e
    /\ length (GLTFExporter._nodes e') = length (GLTFExporter._nodes e)
    /\ forall (k : nat) (node : GLTFExporter.INode.t),
         GLTFExporter._nodes e !! k = Some node ->
         GLTFExporter._nodes e' !! k
         = Some (Hierarchy.withChildren node
                   (Hierarchy.childrenOf (GLTFExporter._nodeMap e) babylonNodes k)).
Proof.
  induction babylonNodes as [| babylonNode rest IH]; intros sceneNodes e Hvalid Hall.
  - exists e. cbn. rewrite app_nil_r. repeat split. intros k node Hk. exact Hk.
  - destruct (Hall babylonNode ltac:(left)) as [nodeIndex HnodeIndex].
    assert (Hrest : forall n, n ∈ rest -> is_Some (GLTFExporter._nodeMap e !! Babylon.uniqueId n)).
    { intros n Hn. apply Hall. now right. }
    cbn [GLTFExporter.forOf]. unfold mbind at 1, GLTFExporter.M_bind at 1.
    unfold GLTFExporter.linkNode at 1.
    unfold mbind at 1, GLTFExporter.M_bind at 1, GLTFExporter.read at 1.
    rewrite HnodeIndex.
    unfold Hierarchy.rootsOf, Hierarchy.childrenOf. cbn [List.filter].
    fold (Hierarchy.parentIndex (GLTFExporter._nodeMap e) babylonNode).
    destruct (Hierarchy.parentIndex (GLTFExporter._nodeMap e) babylonNode)
      as [parentNodeIndex |] eqn:Hparent.
    + assert (Hin : 0 <= parentNodeIndex < Z.of_nat (length (GLTFExporter._nodes e))).
      { unfold Hierarchy.parentIndex in Hparent.
        destruct (Babylon.parent babylonNode) as [p |]; [| discriminate].
        eapply Hvalid, Hparent. }
      destruct (Z.ltb_spec parentNodeIndex 0) as [Hneg | _]; [lia |].
      destruct (lookup_lt_is_Some_2 (GLTFExporter._nodes e) (Z.to_nat parentNodeIndex)
                  ltac:(lia)) as [parentNode HparentNode].
      rewrite HparentNode.
      unfold mbind at 1, GLTFExporter.M_bind at 1, GLTFExporter.modify at 1.
      unfold mret at 1, GLTFExporter.M_ret at 1.
      set (e1 := GLTFExporter.update_nodes _ e).
      assert (Hnm1 : GLTFExporter._nodeMap e1 = GLTFExporter._nodeMap e) by now destruct e.
      assert (Hnodes1 : GLTFExporter._nodes e1
                        = <[Z.to_nat parentNodeIndex :=
                              Hierarchy.withChildren parentNode [nodeIndex]]>
                            (GLTFExporter._nodes e)) by now destruct e.
      assert (Hvalid1 : Hierarchy.nodeMapValid e1).
      { intros id index. rewrite Hnm1, Hnodes1, length_insert. apply Hvalid. }
      destruct (IH sceneNodes e1 Hvalid1 ltac:(now rewrite Hnm1))
        as (e' & Hrun & Hnm & Hs & Hm & Ha & Hb & Hw & Hlen & Hnodes).
      exists e'. rewrite Hrun, Hnm1.
      cbn [bool_decide decide_rel]. rewrite bool_decide_eq_false_2 by discriminate.
      split; [reflexivity |].
      rewrite Hnm, Hs, Hm, Ha, Hb, Hw, Hlen, Hnm1, Hnodes1, length_insert.
      split; [reflexivity |]. split; [now destruct e |]. split; [now destruct e |].
      split; [now destruct e |]. split; [now destruct e |]. split; [now destruct e |].
      split; [reflexivity |].
      intros k node Hk.
      destruct (decide (k = Z.to_nat parentNodeIndex)) as [-> | Hne].
      * rewrite (Hnodes _ (Hierarchy.withChildren parentNode [nodeIndex])).
        2:{ rewrite Hnodes1. apply list_lookup_insert_eq. eapply lookup_lt_Some, Hk. }
        rewrite Hk in HparentNode. injection HparentNode as <-.
        rewrite withChildren_app, Hnm1. f_equal. f_equal.
        rewrite bool_decide_eq_true_2 by (f_equal; lia).
        cbn [List.map app]. f_equal. unfold Hierarchy.indexOfNode. now rewrite HnodeIndex.
      * rewrite (Hnodes _ node).
        2:{ rewrite Hnodes1. rewrite list_lookup_insert_ne by congruence. exact Hk. }
        rewrite Hnm1. f_equal. f_equal.
        rewrite bool_decide_eq_false_2; [reflexivity |].
        intros Heq. injection Heq as ->. apply Hne. now rewrite Nat2Z.id.
    + unfold mret at 1, GLTFExporter.M_ret at 1.
      destruct (IH (sceneNodes ++ [nodeIndex]) e Hvalid Hrest)
        as (e' & Hrun & Hnm & Hs & Hm & Ha & Hb & Hw & Hlen & Hnodes).
      exists e'. rewrite Hrun.
      rewrite bool_decide_eq_true_2 by reflexivity. cbn [List.map].
      replace (Hierarchy.indexOfNode (GLTFExporter._nodeMap e) babylonNode) with nodeIndex
        by (unfold Hierarchy.indexOfNode; now rewrite HnodeIndex).
      split; [unfold Hierarchy.rootsOf; now rewrite <- app_assoc |].
      repeat match goal with |- _ /\ _ => split end; assumption.
Qed.

(** ** The nodes of a scene that are exported *)

Lemma splice_sublist {A : Type} (array : list A) (start deleteCount : Z) :
  GLTFExporter.splice array start deleteCount `sublist_of` array.
Proof.
  unfold GLTFExporter.splice.
  set (len := Z.of_nat (length array)).
  set (actualStart := if start <? 0 then Z.max (len + start) 0 else Z.min start len).
  set (actualDeleteCount := Z.min (Z.max deleteCount 0) (len - actualStart)).
  assert (Hstart : 0 <= actualStart <= len).
  { subst actualStart. destruct (start <? 0) eqn:Hneg; [lia |].
    apply Z.ltb_ge in Hneg. lia. }
  assert (Hcount : 0 <= actualDeleteCount) by (subst actualDeleteCount; lia).
  rewrite <- (take_drop (Z.to_nat actualStart) array) at 3.
  apply sublist_app; [reflexivity |].
  replace (Z.to_nat (actualStart + actualDeleteCount))
    with (Z.to_nat actualStart + Z.to_nat actualDeleteCount)%nat by lia.
  rewrite <- drop_drop. apply sublist_drop.
Qed.

Lemma update_marks_twice (f g : gset positive -> gset positive) (e : GLTFExporter.t) :
  GLTFExporter.update_nodesToConvertToRightHanded f
    (GLTFExporter.update_nodesToConvertToRightHanded g e)
  = GLTFExporter.update_nodesToConvertToRightHanded (fun set => f (g set)) e.
Proof. now destruct e. Qed.

Lemma update_marks_same (f : gset positive -> gset positive) (e : GLTFExporter.t) :
  f (GLTFExporter._nodesToConvertToRightHanded e) = GLTFExporter._nodesToConvertToRightHanded e ->
  GLTFExporter.update_nodesToConvertToRightHanded f e = e.
Proof. destruct e. cbn. now intros ->. Qed.

Lemma update_marks_ext (f g : gset positive -> gset positive) (e : GLTFExporter.t) :
  f (GLTFExporter._nodesToConvertToRightHanded e) = g (GLTFExporter._nodesToConvertToRightHanded e) ->
  GLTFExporter.update_nodesToConvertToRightHanded f e
  = GLTFExporter.update_nodesToConvertToRightHanded g e.
Proof. destruct e. cbn. now intros ->. Qed.

Lemma forOf_marks {A : Type} (l : list A) (f : A -> gset positive -> gset positive) :
  forall e : GLTFExporter.t,
  GLTFExporter.forOf l
    (fun _ x => GLTFExporter.modify (GLTFExporter.update_nodesToConvertToRightHanded (f x)))
    tt e
  = Normal (tt, GLTFExporter.update_nodesToConvertToRightHanded
                  (fun set => fold_left (fun s x => f x s) l set) e).
Proof.
  induction l as [| x rest IH]; intros e; simpl.
  - unfold mret, GLTFExporter.M_ret. f_equal. f_equal. now destruct e.
  - unfold mbind, GLTFExporter.M_bind, GLTFExporter.modify at 1.
    rewrite IH, update_marks_twice. reflexivity.
Qed.

Lemma fold_left_difference (l : list Babylon.Node) (set : gset positive) :
  fold_left (fun s (x : Babylon.Node) => s ∖ {[Babylon.uniqueId x]}) l set ⊆ set.
Proof.
  revert set. induction l as [| x rest IH]; intros set; simpl; [reflexivity |].
  etrans; [apply IH |]. apply subseteq_difference_l. reflexivity.
Qed.

Lemma fold_left_union (l : list Babylon.Node) (set : gset positive) :
  fold_left (fun s (x : Babylon.Node) => s ∪ {[Babylon.uniqueId x]}) l set
  = set ∪ Collect.ids l.
Proof.
  revert set. induction l as [| x rest IH]; intros set; simpl.
  - unfold Collect.ids. cbn. now rewrite (right_id_L ∅ (∪)).
  - rewrite IH. unfold Collect.ids. cbn. now rewrite (assoc_L (∪)).
Qed.

Section Collecting.
Context (_babylonScene : Babylon.Scene) (_options : GLTFExporter.IExportOptions).

Lemma pruneRootNode_effect (nodes : list Babylon.Node) (rootNode : Babylon.Node)
    (e : GLTFExporter.t) :
  exists nodes' set',
    GLTFExporter.pruneRootNode _babylonScene nodes rootNode e
    = Normal (nodes', GLTFExporter.update_nodesToConvertToRightHanded (fun _ => set') e)
    /\ nodes' `sublist_of` nodes
    /\ set' ⊆ GLTFExporter._nodesToConvertToRightHanded e
    /\ (Babylon.useRightHandedSystem _babylonScene = true ->
        set' = GLTFExporter._nodesToConvertToRightHanded e).
Proof.
  unfold GLTFExporter.pruneRootNode.
  destruct (GLTFExporter.isNoopNode rootNode _).
  2:{ exists nodes, (GLTFExporter._nodesToConvertToRightHanded e).
      split; [unfold mret, GLTFExporter.M_ret; now rewrite update_marks_same |].
      repeat split; reflexivity. }
  destruct (Babylon.useRightHandedSystem _babylonScene); cbn [negb].
  - eexists _, (GLTFExporter._nodesToConvertToRightHanded e).
    split; [cbn; unfold mret, GLTFExporter.M_ret; now rewrite update_marks_same |].
    split; [apply splice_sublist |]. split; reflexivity.
  - eexists _, _. split.
    { unfold mbind, GLTFExporter.M_bind, GLTFExporter.modify at 1.
      rewrite forOf_marks, update_marks_twice. unfold mret, GLTFExporter.M_ret.
      f_equal. f_equal. apply update_marks_ext. reflexivity. }
    split; [apply splice_sublist |]. split; [| discriminate].
    etrans; [apply fold_left_difference |]. cbn.
    replace (GLTFExporter._nodesToConvertToRightHanded
               (GLTFExporter.update_nodesToConvertToRightHanded
                  (fun set => set ∖ {[Babylon.uniqueId rootNode]}) e))
      with (GLTFExporter._nodesToConvertToRightHanded e ∖ {[Babylon.uniqueId rootNode]})
      by now destruct e.
    apply subseteq_difference_l. reflexivity.
Qed.

Lemma forOf_pruneRootNode_effect (rootNodes : list Babylon.Node) :
  forall (nodes : list Babylon.Node) (e : GLTFExporter.t),
  exists nodes' set',
    GLTFExporter.forOf rootNodes (GLTFExporter.pruneRootNode _babylonScene) nodes e
    = Normal (nodes', GLTFExporter.update_nodesToConvertToRightHanded (fun _ => set') e)
    /\ nodes' `sublist_of` nodes
    /\ set' ⊆ GLTFExporter._nodesToConvertToRightHanded e
    /\ (Babylon.useRightHandedSystem _babylonScene = true ->
        set' = GLTFExporter._nodesToConvertToRightHanded e).
Proof.
  induction rootNodes as [| rootNode rest IH]; intros nodes e; simpl.
  - exists nodes, (GLTFExporter._nodesToConvertToRightHanded e).
    split; [unfold mret, GLTFExporter.M_ret; now rewrite update_marks_same |].
    repeat split; reflexivity.
  - destruct (pruneRootNode_effect nodes rootNode e) as (nodes1 & set1 & Hrun1 & Hsub1 & Hset1 & Hright1).
    unfold mbind, GLTFExporter.M_bind. rewrite Hrun1.
    destruct (IH nodes1 (GLTFExporter.update_nodesToConvertToRightHanded (fun _ => set1) e))
      as (nodes2 & set2 & Hrun2 & Hsub2 & Hset2 & Hright2).
    exists nodes2, set2. rewrite Hrun2, update_marks_twice.
    assert (Hfield : GLTFExporter._nodesToConvertToRightHanded
                       (GLTFExporter.update_nodesToConvertToRightHanded (fun _ => set1) e)
                     = set1) by now destruct e.
    rewrite Hfield in Hset2, Hright2.
    split; [reflexivity |]. split; [etrans; eassumption |]. split; [etrans; eassumption |].
    intros Hright. rewrite Hright2, Hright1 by exact Hright. reflexivity.
Qed.

Lemma collectNodes_effect (e : GLTFExporter.t) :
  exists nodes set',
    GLTFExporter.collectNodes _babylonScene _options e
    = Normal (nodes, GLTFExporter.update_nodesToConvertToRightHanded (fun _ => set') e)
    /\ nodes `sublist_of` Collect.candidates _babylonScene _options
    /\ set' ⊆ GLTFExporter._nodesToConvertToRightHanded e
             ∪ Collect.ids (Collect.candidates _babylonScene _options)
    /\ (Babylon.useRightHandedSystem _babylonScene = true ->
        set' = GLTFExporter._nodesToConvertToRightHanded e)
    /\ (Collect.prunes _options = false ->
        nodes = Collect.candidates _babylonScene _options
        /\ (Babylon.useRightHandedSystem _babylonScene = false ->
            set' = GLTFExporter._nodesToConvertToRightHanded e
                   ∪ Collect.ids (Collect.candidates _babylonScene _options))).
Proof.
  unfold GLTFExporter.collectNodes. cbv zeta.
  fold (Collect.candidates _babylonScene _options). fold (Collect.prunes _options).
  set (nodes := Collect.candidates _babylonScene _options).
  assert (Hmark : exists set1,
    (if negb (Babylon.useRightHandedSystem _babylonScene)
     then GLTFExporter.forOf nodes
            (fun _ node =>
               GLTFExporter.modify
                 (GLTFExporter.update_nodesToConvertToRightHanded
                    (fun set => set ∪ {[Babylon.uniqueId node]}))) tt
     else mret tt) e
    = Normal (tt, GLTFExporter.update_nodesToConvertToRightHanded (fun _ => set1) e)
    /\ set1 = (if Babylon.useRightHandedSystem _babylonScene
               then GLTFExporter._nodesToConvertToRightHanded e
               else GLTFExporter._nodesToConvertToRightHanded e ∪ Collect.ids nodes)).
  { destruct (Babylon.useRightHandedSystem _babylonScene); cbn [negb]; eexists; split;
      try reflexivity.
    - unfold mret, GLTFExporter.M_ret. now rewrite update_marks_same.
    - rewrite forOf_marks. f_equal. f_equal. apply update_marks_ext.
      apply fold_left_union. }
  destruct Hmark as (set1 & Hrun1 & Hset1).
  unfold mbind at 1, GLTFExporter.M_bind at 1. rewrite Hrun1.
  assert (Hfield : GLTFExporter._nodesToConvertToRightHanded
                     (GLTFExporter.update_nodesToConvertToRightHanded (fun _ => set1) e)
                   = set1) by now destruct e.
  destruct (Collect.prunes _options).
  - destruct (forOf_pruneRootNode_effect (Babylon.rootNodes _babylonScene) nodes
                (GLTFExporter.update_nodesToConvertToRightHanded (fun _ => set1) e))
      as (nodes2 & set2 & Hrun2 & Hsub2 & Hset2 & Hright2).
    rewrite Hfield in Hset2, Hright2.
    exists nodes2, set2. rewrite Hrun2, update_marks_twice.
    split; [reflexivity |]. split; [exact Hsub2 |].
    split; [| split; [| discriminate]].
    + etrans; [exact Hset2 |]. rewrite Hset1.
      destruct (Babylon.useRightHandedSystem _babylonScene);
        [apply union_subseteq_l | reflexivity].
    + intros Hright. rewrite (Hright2 Hright), Hset1, Hright. reflexivity.
  - exists nodes, set1. split; [reflexivity |]. split; [reflexivity |].
    split; [| split; [| intros _; split; [reflexivity |]]].
    + rewrite Hset1. destruct (Babylon.useRightHandedSystem _babylonScene);
        [apply union_subseteq_l | reflexivity].
    + intros Hright. now rewrite Hset1, Hright.
    + intros Hleft. now rewrite Hset1, Hleft.
Qed.

End Collecting.

(** X18.  The collection of the nodes of a scene always returns.  The
    nodes it returns are nodes of the scene that [shouldExportNode] lets
    through, in the order transform nodes, meshes, lights, cameras; they are
    all of them when the no-op root nodes are kept.  The only field of the
    exporter that may change is the set of the nodes to convert: it stays as
    it was in a right-handed scene, and otherwise holds at most the nodes
    that passed beside what it held, and exactly these when the no-op root
    nodes are kept. *)
Theorem collectNodes_selects_scene_nodes (_babylonScene : Babylon.Scene)
    (_options : GLTFExporter.IExportOptions) (e : GLTFExporter.t) :
  exists nodes set',
    GLTFExporter.collectNodes _babylonScene _options e
    = Normal (nodes, GLTFExporter.update_nodesToConvertToRightHanded (fun _ => set') e)
    /\ nodes `sublist_of` Collect.candidates _babylonScene _options
    /\ set' ⊆ GLTFExporter._nodesToConvertToRightHanded e
             ∪ Collect.ids (Collect.candidates _babylonScene _options)
    /\ (Babylon.useRightHandedSystem _babylonScene = true ->
        set' = GLTFExporter._nodesToConvertToRightHanded e)
    /\ (Collect.prunes _options = false ->
        nodes = Collect.candidates _babylonScene _options
        /\ (Babylon.useRightHandedSystem _babylonScene = false ->
            set' = GLTFExporter._nodesToConvertToRightHanded e
                   ∪ Collect.ids (Collect.candidates _babylonScene _options))).
Proof. apply collectNodes_effect. Qed.

(** ** The export of a scene *)

Lemma bind_run_Normal {A B : Type} (m : GLTFExporter.M A) (k : A -> GLTFExporter.M B)
    (e e' : GLTFExporter.t) (a : A) :
  m e = Normal (a, e') -> (m ≫= k) e = k a e'.
Proof. unfold mbind, GLTFExporter.M_bind. now intros ->. Qed.

Lemma bind_run_Throw {A B : Type} (m : GLTFExporter.M A) (k : A -> GLTFExporter.M B)
    (e : GLTFExporter.t) (message : string) :
  m e = Throw message -> (m ≫= k) e = Throw message.
Proof. unfold mbind, GLTFExporter.M_bind. now intros ->. Qed.

Section Scenes.
Context (VertexBuffer : VertexBufferKinds) (Material : MaterialFillModes).
Context (float32Bytes : number -> list Z).
Context (exportPBRMaterialAsync exportStandardMaterialAsync
           : Babylon.Material -> bool -> GLTFExporter.M Z).
Context (_babylonScene : Babylon.Scene) (_options : GLTFExporter.IExportOptions).

(** X17.  The export of a scene fails only where the export of one of its nodes
    fails: the two lookups of the loop that links the nodes always find
    their entry.  When it returns, the new scene lists the exported nodes
    without an exported parent, and every exported node has got, after the
    children it had, the exported nodes of which it is the parent, both in
    the order of the export. *)
Theorem exportScene_links_every_node (e : GLTFExporter.t) :
  (forall material hasUVs,
      Frame.respects Frame.keepsGeometry (exportPBRMaterialAsync material hasUVs)) ->
  (forall material hasUVs,
      Frame.respects Frame.keepsGeometry (exportStandardMaterialAsync material hasUVs)) ->
  Hierarchy.nodeMapValid e ->
  exists nodes e1,
    GLTFExporter.collectNodes _babylonScene _options e = Normal (nodes, e1)
    /\ match GLTFExporter._exportNodesAsync VertexBuffer Material float32Bytes
               exportPBRMaterialAsync exportStandardMaterialAsync _options nodes e1 with
       | Throw message =>
           GLTFExporter._exportSceneAsync VertexBuffer Material float32Bytes
             exportPBRMaterialAsync exportStandardMaterialAsync _babylonScene _options e
           = Throw message
       | Normal (_, e2) =>
           exists e',
             GLTFExporter._exportSceneAsync VertexBuffer Material float32Bytes
               exportPBRMaterialAsync exportStandardMaterialAsync _babylonScene _options e
             = Normal (tt, e')
             /\ GLTFExporter._scenes e'
                = GLTFExporter._scenes e
                  ++ [GLTFExporter.IScene.mk
                        (Hierarchy.rootsOf (GLTFExporter._nodeMap e2) nodes)]
             /\ GLTFExporter._nodeMap e' = GLTFExporter._nodeMap e2
             /\ (forall babylonNode, babylonNode ∈ nodes ->
                   is_Some (GLTFExporter._nodeMap e' !! Babylon.uniqueId babylonNode))
             /\ length (GLTFExporter._nodes e') = length (GLTFExporter._nodes e2)
             /\ forall (k : nat) (node : GLTFExporter.INode.t),
                  GLTFExporter._nodes e2 !! k = Some node ->
                  GLTFExporter._nodes e' !! k
                  = Some (Hierarchy.withChildren node
                            (Hierarchy.childrenOf (GLTFExporter._nodeMap e2) nodes k))
       end.
Proof.
  intros Hpbr Hstandard Hvalid.
  destruct (collectNodes_effect _babylonScene _options e) as (nodes & set' & Hcollect & _).
  set (e1 := GLTFExporter.update_nodesToConvertToRightHanded (fun _ => set') e) in *.
  exists nodes, e1. split; [exact Hcollect |].
  assert (Hvalid1 : Hierarchy.nodeMapValid e1).
  { intros id index. subst e1. destruct e. cbn. apply Hvalid. }
  assert (Hscenes1 : GLTFExporter._scenes e1 = GLTFExporter._scenes e)
    by (subst e1; now destruct e).
  unfold GLTFExporter._exportSceneAsync.
  rewrite !(bind_run_Normal _ _ _ _ _ Hcollect).
  destruct (GLTFExporter._exportNodesAsync _ _ _ _ _ _ nodes e1) as [[[] e2] | message] eqn:Hnodes.
  2:{ now apply bind_run_Throw. }
  destruct (exportNodes_effect VertexBuffer Material float32Bytes exportPBRMaterialAsync
              exportStandardMaterialAsync _options Hpbr Hstandard nodes e1 e2 tt Hvalid1 Hnodes)
    as (Hvalid2 & Hall & _ & _ & Hscenes2 & _).
  destruct (linkNodes_effect nodes [] e2 Hvalid2 Hall)
    as (e3 & Hlink & Hnm & Hs & _ & _ & _ & _ & Hlen & Hlinked).
  rewrite (bind_run_Normal _ _ _ _ _ Hnodes), (bind_run_Normal _ _ _ _ _ Hlink). cbn [app].
  unfold GLTFExporter.modify.
  eexists. split; [reflexivity |].
  destruct e3 as [ac bv ms ns ss dw cs os rs nm mm us]. cbn in *. subst.
  rewrite Hscenes2, Hscenes1.
  repeat match goal with |- _ /\ _ => split end; try reflexivity; assumption.
Qed.

End Scenes.

Lemma nodeMapValid_new : Hierarchy.nodeMapValid GLTFExporter.new.
Proof. intros id index Hlookup. cbn in Hlookup. rewrite lookup_empty in Hlookup. discriminate. Qed.

Lemma exportScene_links_every_node_witness :
  exists nodes e1,
    GLTFExporter.collectNodes Examples.instancedScene Examples.options GLTFExporter.new
    = Normal (nodes, e1)
    /\ match GLTFExporter._exportNodesAsync BabylonVertexBuffer BabylonMaterial
               Examples.noFloat32Bytes Examples.noMaterialExporter Examples.noMaterialExporter
               Examples.options nodes e1 with
       | Throw message =>
           Examples.exportScene Examples.instancedScene Examples.options GLTFExporter.new
           = Throw message
       | Normal (_, e2) =>
           exists e',
             Examples.exportScene Examples.instancedScene Examples.options GLTFExporter.new
             = Normal (tt, e')
             /\ GLTFExporter._scenes e'
                = GLTFExporter._scenes GLTFExporter.new
                  ++ [GLTFExporter.IScene.mk
                        (Hierarchy.rootsOf (GLTFExporter._nodeMap e2) nodes)]
             /\ GLTFExporter._nodeMap e' = GLTFExporter._nodeMap e2
             /\ (forall babylonNode, babylonNode ∈ nodes ->
                   is_Some (GLTFExporter._nodeMap e' !! Babylon.uniqueId babylonNode))
             /\ length (GLTFExporter._nodes e') = length (GLTFExporter._nodes e2)
             /\ forall (k : nat) (node : GLTFExporter.INode.t),
                  GLTFExporter._nodes e2 !! k = Some node ->
                  GLTFExporter._nodes e' !! k
                  = Some (Hierarchy.withChildren node
                            (Hierarchy.childrenOf (GLTFExporter._nodeMap e2) nodes k))
       end.
Proof.
  exact (exportScene_links_every_node BabylonVertexBuffer BabylonMaterial
           Examples.noFloat32Bytes Examples.noMaterialExporter Examples.noMaterialExporter
           Examples.instancedScene Examples.options GLTFExporter.new
           noMaterialExporter_keepsGeometry noMaterialExporter_keepsGeometry nodeMapValid_new).
Defined.

(** ** Conversion between the handednesses *)

Lemma timesMinusOne_involutive (x : number) :
  Handedness.timesMinusOne (Handedness.timesMinusOne x) = x.
Proof.
  destruct x as [| | [n d] |]; try reflexivity.
  cbn. unfold Qmult. cbn. f_equal. f_equal; [lia | now rewrite !Pos.mul_1_r].
Qed.

(** X20.  Converting a position or a rotation twice gives it back: the
    conversion to the other handedness is its own inverse, and it leaves
    the other components as they are. *)
Theorem handedness_conversion_is_involutive :
  (forall value : Handedness.Vector3,
      Handedness.convertToRightHandedPosition (Handedness.convertToRightHandedPosition value)
      = value
      /\ Handedness.x (Handedness.convertToRightHandedPosition value) = Handedness.x value
      /\ Handedness.y (Handedness.convertToRightHandedPosition value) = Handedness.y value)
  /\ (forall value : Handedness.Quaternion.t,
        Handedness.convertToRightHandedRotation (Handedness.convertToRightHandedRotation value)
        = value
        /\ Handedness.Quaternion.z (Handedness.convertToRightHandedRotation value)
           = Handedness.Quaternion.z value
        /\ Handedness.Quaternion.w (Handedness.convertToRightHandedRotation value)
           = Handedness.Quaternion.w value).
Proof.
  split.
  - intros [x y z]. unfold Handedness.convertToRightHandedPosition. cbn.
    rewrite timesMinusOne_involutive. repeat split.
  - intros [x y z w]. unfold Handedness.convertToRightHandedRotation. cbn.
    rewrite !timesMinusOne_involutive. repeat split.
Qed.

(** ** The payload of the binary chunk *)

Lemma glb_payload_follows_prefix TextEncoder jsonText binaryBuffer images :
  let payload := Layout.jsonPayload TextEncoder jsonText in
  let binaryChunkStart :=
    20 + Z.of_nat (length payload) + GLTFExporter._getPadding (Z.of_nat (length payload)) in
  drop (Z.to_nat binaryChunkStart + 8)
    (GLTFExporter.generateGLBAsync TextEncoder jsonText binaryBuffer images)
  = binaryBuffer ++ concat images
    ++ replicate (Z.to_nat (GLTFExporter._getPadding (Z.of_nat (length binaryBuffer)))) 0
    ++ replicate (Z.to_nat (GLTFExporter._getPadding (Z.of_nat (length (concat images))))) 0.
Proof.
  cbv zeta. rewrite generateGLBAsync_is_container. unfold Layout.container. cbv zeta.
  set (payload := Layout.jsonPayload TextEncoder jsonText).
  set (jsonLength := Z.of_nat (length payload)).
  assert (HjsonLength : 0 <= jsonLength) by (subst jsonLength; lia).
  pose proof (getPadding_range _ HjsonLength) as HjsonPadding.
  set (jsonPadding := GLTFExporter._getPadding jsonLength) in *.
  assert (Hbytes32 : forall v, length (GLTFExporter.bytes32 v) = 4%nat) by reflexivity.
  match goal with
  | |- drop _ (?a ++ ?b ++ ?c ++ ?d ++ ?f ++ ?g ++ ?h ++ ?i ++ ?j ++ ?rest) = _ =>
      replace (a ++ b ++ c ++ d ++ f ++ g ++ h ++ i ++ j ++ rest)
        with ((a ++ b ++ c ++ d ++ f ++ g ++ h ++ i ++ j) ++ rest)
        by (now rewrite <- !app_assoc);
      assert (Hprefix : length (a ++ b ++ c ++ d ++ f ++ g ++ h ++ i ++ j)
                        = (Z.to_nat (20 + jsonLength + jsonPadding) + 8)%nat)
  end.
  { rewrite !length_app, !Hbytes32, length_replicate. fold payload.
    subst jsonLength. lia. }
  rewrite <- Hprefix. apply drop_app_length.
Qed.

Lemma viewBytes_app_l (view : IBufferView.t) (content padding : list Z) :
  0 <= default 0 (IBufferView.byteOffset view) ->
  0 <= IBufferView.byteLength view ->
  default 0 (IBufferView.byteOffset view) + IBufferView.byteLength view
  <= Z.of_nat (length content) ->
  Reader.viewBytes view (content ++ padding) = Reader.viewBytes view content.
Proof.
  intros Hoffset Hlength Hfits. unfold Reader.viewBytes.
  rewrite drop_app_le by lia. rewrite take_app_le; [reflexivity |].
  rewrite length_drop. lia.
Qed.

(** X21.  In the container, the bytes that follow the prefix of the binary
    chunk are the geometry bytes, the images in their order and the zero
    bytes of the two paddings; so a buffer view that lies within the
    geometry and the images designates, from that offset of the file, the
    bytes that it designates in the binary buffer and the images. *)
Theorem glb_views_address_the_file TextEncoder jsonText binaryBuffer images
    (view : IBufferView.t) :
  0 <= default 0 (IBufferView.byteOffset view) ->
  0 <= IBufferView.byteLength view ->
  default 0 (IBufferView.byteOffset view) + IBufferView.byteLength view
  <= Z.of_nat (length (binaryBuffer ++ concat images)) ->
  let payload := Layout.jsonPayload TextEncoder jsonText in
  let binaryChunkStart :=
    20 + Z.of_nat (length payload) + GLTFExporter._getPadding (Z.of_nat (length payload)) in
  Reader.viewBytes view
    (drop (Z.to_nat binaryChunkStart + 8)
       (GLTFExporter.generateGLBAsync TextEncoder jsonText binaryBuffer images))
  = Reader.viewBytes view (binaryBuffer ++ concat images).
Proof.
  intros Hoffset Hlength Hfits. cbv zeta.
  pose proof (glb_payload_follows_prefix TextEncoder jsonText binaryBuffer images) as Hdrop.
  cbv zeta in Hdrop. rewrite Hdrop.
  rewrite (app_assoc binaryBuffer). now apply viewBytes_app_l.
Qed.

Lemma glb_views_address_the_file_witness :
  Reader.viewBytes (createBufferView 0 6 3 None None)
    (drop (Z.to_nat (20 + 2 + 2) + 8) Examples.smallContainer)
  = [137; 80; 78].
Proof.
  exact (glb_views_address_the_file None [123; 125] [0; 0; 1; 0; 2; 0] [[137; 80; 78]]
           (createBufferView 0 6 3 None None) ltac:(simpl; lia) ltac:(simpl; lia)
           ltac:(simpl; lia)).
Defined.

(** ** Components of a vertex buffer *)

Lemma truncate_inject_Z (v : Z) : BufferUtils.truncate (inject_Z v) = v.
Proof.
  unfold BufferUtils.truncate. destruct (Qle_bool 0 (inject_Z v)); [apply Qfloor_Z | apply Qceiling_Z].
Qed.

Lemma littleEndian_bytesOf (size : nat) : forall v : Z,
  0 <= v < 256 ^ Z.of_nat size ->
  BufferUtils.littleEndian (BufferUtils.bytesOf size v) = v.
Proof.
  induction size as [| size IH]; intros v Hv.
  - simpl in *. lia.
  - cbn [BufferUtils.bytesOf BufferUtils.littleEndian].
    rewrite IH.
    + pose proof (Z.div_mod v 256 ltac:(lia)). lia.
    + rewrite Nat2Z.inj_succ, Z.pow_succ_r in Hv by lia.
      split; [apply Z.div_pos; lia | apply Z.div_lt_upper_bound; lia].
Qed.

Lemma length_bytesOf (size : nat) (v : Z) : length (BufferUtils.bytesOf size v) = size.
Proof. revert v. induction size as [| size IH]; intros v; simpl; [reflexivity | now rewrite IH]. Qed.

Lemma setInt_getUint (dataView : list Z) (byteOffset : Z) (size : nat) (value : number) :
  BufferUtils.inView dataView byteOffset size = true ->
  exists dataView',
    BufferUtils.setInt dataView byteOffset size value = Normal dataView'
    /\ length dataView' = length dataView
    /\ take (Z.to_nat byteOffset) dataView' = take (Z.to_nat byteOffset) dataView
    /\ drop (Z.to_nat byteOffset + size) dataView' = drop (Z.to_nat byteOffset + size) dataView
    /\ BufferUtils.getUint dataView' byteOffset size
       = Normal (BufferUtils.ToUintN (8 * Z.of_nat size) value).
Proof.
  intros Hin. unfold BufferUtils.setInt. rewrite Hin. eexists. split; [reflexivity |].
  unfold BufferUtils.inView in Hin. apply andb_true_iff in Hin. destruct Hin as [Hlo Hhi].
  apply Z.leb_le in Hlo, Hhi.
  assert (Hlen : length (take (Z.to_nat byteOffset) dataView
                         ++ BufferUtils.bytesOf size (BufferUtils.ToUintN (8 * Z.of_nat size) value)
                         ++ drop (Z.to_nat byteOffset + size) dataView)
                 = length dataView).
  { rewrite !length_app, length_take, length_bytesOf, length_drop. lia. }
  split; [exact Hlen |].
  split; [apply take_app_length'; rewrite length_take; lia |].
  split.
  { rewrite app_assoc. apply drop_app_length'.
    rewrite length_app, length_take, length_bytesOf. lia. }
  unfold BufferUtils.getUint, BufferUtils.inView. rewrite Hlen.
  rewrite (proj2 (Z.leb_le _ _) Hlo), (proj2 (Z.leb_le _ _) Hhi). cbn [andb].
  f_equal. rewrite drop_app_length'; [| rewrite length_take; lia].
  rewrite take_app_length'; [| symmetry; apply length_bytesOf].
  apply littleEndian_bytesOf.
  assert (Hrange : 0 <= BufferUtils.ToUintN (8 * Z.of_nat size) value < 2 ^ (8 * Z.of_nat size)).
  { unfold BufferUtils.ToUintN. destruct value; try (split; [lia | apply Z.pow_pos_nonneg; lia]).
    apply Z.mod_pos_bound. apply Z.pow_pos_nonneg; lia. }
  replace (256 ^ Z.of_nat size) with (2 ^ (8 * Z.of_nat size)); [exact Hrange |].
  change 256 with (2 ^ 8). rewrite <- Z.pow_mul_r by lia. reflexivity.
Qed.

Lemma ToUintN_ofZ (bits v : Z) : BufferUtils.ToUintN bits (BufferUtils.ofZ v) = v mod 2 ^ bits.
Proof. unfold BufferUtils.ToUintN, BufferUtils.ofZ. now rewrite truncate_inject_Z. Qed.

Lemma signed_round_trip (bits v : Z) :
  0 < bits -> - 2 ^ (bits - 1) <= v < 2 ^ (bits - 1) ->
  (if 2 ^ (bits - 1) <=? v mod 2 ^ bits then v mod 2 ^ bits - 2 ^ bits else v mod 2 ^ bits) = v.
Proof.
  intros Hbits Hv.
  assert (Hpow : 2 ^ bits = 2 * 2 ^ (bits - 1)).
  { replace bits with (Z.succ (bits - 1)) at 1 by lia. apply Z.pow_succ_r. lia. }
  destruct (Z_lt_le_dec v 0) as [Hneg | Hpos].
  - assert (Hmod : v mod 2 ^ bits = v + 2 ^ bits).
    { symmetry. apply (Z.mod_unique v (2 ^ bits) (-1)); lia. }
    rewrite Hmod. destruct (Z.leb_spec (2 ^ (bits - 1)) (v + 2 ^ bits)); lia.
  - rewrite Z.mod_small by lia.
    destruct (Z.leb_spec (2 ^ (bits - 1)) v); lia.
Qed.

Lemma setInt_getInt (dataView : list Z) (byteOffset : Z) (size : nat) (v : Z) :
  (0 < size)%nat ->
  - 2 ^ (8 * Z.of_nat size - 1) <= v < 2 ^ (8 * Z.of_nat size - 1) ->
  BufferUtils.inView dataView byteOffset size = true ->
  exists dataView',
    BufferUtils.setInt dataView byteOffset size (BufferUtils.ofZ v) = Normal dataView'
    /\ length dataView' = length dataView
    /\ take (Z.to_nat byteOffset) dataView' = take (Z.to_nat byteOffset) dataView
    /\ drop (Z.to_nat byteOffset + size) dataView' = drop (Z.to_nat byteOffset + size) dataView
    /\ BufferUtils.getInt dataView' byteOffset size = Normal v.
Proof.
  intros Hsize Hv Hin.
  destruct (setInt_getUint dataView byteOffset size (BufferUtils.ofZ v) Hin)
    as (dataView' & Hset & Hlen & Htake & Hdrop & Hget).
  exists dataView'. repeat split; try assumption.
  unfold BufferUtils.getInt. rewrite Hget, ToUintN_ofZ. f_equal.
  apply signed_round_trip; lia.
Qed.

Lemma setInt_getUint_small (dataView : list Z) (byteOffset : Z) (size : nat) (v : Z) :
  0 <= v < 2 ^ (8 * Z.of_nat size) ->
  BufferUtils.inView dataView byteOffset size = true ->
  exists dataView',
    BufferUtils.setInt dataView byteOffset size (BufferUtils.ofZ v) = Normal dataView'
    /\ length dataView' = length dataView
    /\ take (Z.to_nat byteOffset) dataView' = take (Z.to_nat byteOffset) dataView
    /\ drop (Z.to_nat byteOffset + size) dataView' = drop (Z.to_nat byteOffset + size) dataView
    /\ BufferUtils.getUint dataView' byteOffset size = Normal v.
Proof.
  intros Hv Hin.
  destruct (setInt_getUint dataView byteOffset size (BufferUtils.ofZ v) Hin)
    as (dataView' & Hset & Hlen & Htake & Hdrop & Hget).
  exists dataView'. repeat split; try assumption.
  rewrite Hget, ToUintN_ofZ. f_equal. apply Z.mod_small. exact Hv.
Qed.

(** X22. Writing an integer of the range of an integer component type with
    [setFloatValue], not normalized, at a place inside of the view succeeds;
    it keeps the length of the view and the bytes before and after the
    component, and [getFloatValue] reads the same number back there. *)
Theorem setFloatValue_then_getFloatValue
    (VertexBuffer : BufferUtils.ComponentTypes)
    (divide multiply : number -> number -> number) (round : number -> number)
    (getFloat32 : list Z -> number) (float32Bytes : number -> list Z)
    (dataView : list Z) (type byteOffset low high : Z) (size : nat) (v : Z) :
  BufferUtils.integerRange VertexBuffer type = Some (low, high, size) ->
  low <= v <= high ->
  BufferUtils.inView dataView byteOffset size = true ->
  exists dataView',
    BufferUtils.setFloatValue VertexBuffer multiply round float32Bytes
      dataView type byteOffset false (BufferUtils.ofZ v) = Normal dataView'
    /\ length dataView' = length dataView
    /\ take (Z.to_nat byteOffset) dataView' = take (Z.to_nat byteOffset) dataView
    /\ drop (Z.to_nat byteOffset + size) dataView' = drop (Z.to_nat byteOffset + size) dataView
    /\ BufferUtils.getFloatValue VertexBuffer divide getFloat32
         dataView' type byteOffset false = Normal (BufferUtils.ofZ v).
Proof.
  unfold BufferUtils.integerRange, BufferUtils.setFloatValue, BufferUtils.getFloatValue.
  intros Hrange Hv Hin.
  repeat (destruct (type =? _);
          [injection Hrange as <- <- <-;
           match type of Hin with
           | BufferUtils.inView _ _ ?n = true =>
               first [ destruct (setInt_getInt dataView byteOffset n v ltac:(lia)
                                   ltac:(simpl; lia) Hin) as (dataView' & Hset & Hlen & Htake & Hdrop & Hget)
                     | destruct (setInt_getUint_small dataView byteOffset n v
                                   ltac:(simpl; lia) Hin) as (dataView' & Hset & Hlen & Htake & Hdrop & Hget) ]
           end;
           exists dataView'; rewrite Hget; repeat split; assumption |]).
  discriminate Hrange.
Qed.

Lemma setFloatValue_then_getFloatValue_witness :
  exists dataView',
    BufferUtils.setFloatValue Scenarios.vertexBuffer (fun a _ => a) (fun a => a) (fun _ => [])
      [1; 2; 3; 4] 5122 1 false (BufferUtils.ofZ (-2)) = Normal dataView'
    /\ length dataView' = 4%nat
    /\ take 1 dataView' = [1]
    /\ drop 3 dataView' = [4]
    /\ BufferUtils.getFloatValue Scenarios.vertexBuffer (fun a _ => a) (fun _ => NaN)
         dataView' 5122 1 false = Normal (BufferUtils.ofZ (-2)).
Proof.
  exact (setFloatValue_then_getFloatValue Scenarios.vertexBuffer (fun a _ => a) (fun a _ => a)
           (fun a => a) (fun _ => NaN) (fun _ => []) [1; 2; 3; 4] 5122 1 (-32768) 32767 2 (-2)
           eq_refl ltac:(lia) eq_refl).
Defined.

